(** * x402-pyth gateway: pricing store, symbol directory, purchase flow

    A shallow embedding of the TypeScript sources

    - [pricing.ts]          (schema, [loadConfig], [computePrice], [getAllRouteConfigs]),
    - [symbols.ts]          ([parseTickerName], [initSymbols], [getTickerInfo], ...),
    - [routes/purchase.ts]  ([purchaseBody], [purchaseHandler]),
    - [routes/pricing.ts]   (the [GET /v1/pricing] handler, in its two revisions),
    - [index.ts]            (start-up),

    followed by the properties of the specification that concern them.

    Conventions.
    - A JavaScript string is a Rocq [string]: a sequence of code units
      below 256.
    - A JavaScript number is an IEEE-754 binary64 value ([spec_float] with
      precision 53 and maximal exponent 1024), see [Number].
    - A plain JavaScript object is the list of its own enumerable
      properties, in enumeration order; a property read also consults
      [Object.prototype], see [JsObject]. What the built-ins found there
      hold themselves is a parameter, [Host].
    - Module-level mutable bindings ([current], [byAssetType]) are passed
      explicitly. *)

From Stdlib Require Import ZArith QArith List String Ascii Bool Lia.
From Stdlib Require Import DecimalString.
From Stdlib Require Import Floats.SpecFloat.
Import ListNotations.

Close Scope Q_scope.

Set Warnings "-register-all".

Local Open Scope list_scope.
Local Open Scope string_scope.

(* ================================================================== *)
(** * JavaScript numbers *)
(* ================================================================== *)

Module Number.

Local Open Scope Z_scope.

Definition number := spec_float.

Definition prec : Z := 53.
Definition emax : Z := 1024.

Definition NaN : number := S754_nan.
Definition Infinity : number := S754_infinity false.

(** [x * y] and [x / y] on numbers. *)
Definition mul : number -> number -> number := SFmul prec emax.
Definition div : number -> number -> number := SFdiv prec emax.

(** The number nearest to an integer (exact below 2^53). *)
Definition of_Z (n : Z) : number := binary_normalize prec emax n 0 false.

(** The number a decimal literal [m]e[-k] denotes, for [m] and [10^k]
    below 2^53 (both are then exact and the quotient is correctly
    rounded). *)
Definition of_decimal (m : Z) (k : Z) : number := div (of_Z m) (of_Z (10 ^ k)).

(** [0 < x], false on NaN. *)
Definition positive (x : number) : bool := SFltb (S754_zero false) x.

(** [Math.round]: the nearest integer, ties towards +Infinity; the sign
    of a zero result is that of the argument. *)
Definition Math_round (x : number) : number :=
  match x with
  | S754_finite s m e =>
      if 0 <=? e then x
      else
        let n := Z.shiftr (2 * cond_Zopp s (Zpos m) + 2 ^ (- e)) (1 - e) in
        binary_normalize prec emax n 0 s
  | _ => x
  end.

(** Decimal digits of a natural number, ["0"] for zero. *)
Definition digits (n : Z) : string := NilZero.string_of_uint (N.to_uint (Z.to_N n)).

Fixpoint zeros (k : nat) : string :=
  match k with O => "" | S k => String "0" (zeros k) end.

(** [Number::toString] on a finite integer-valued [x >= 10^21]: the
    shortest digit string [s] of [k] digits with [s * 10^(n-k)] rounding
    to [x], printed in exponent form. [X] is the exact value of [x]. *)
Definition shortest_candidates (x : number) (X : Z) (nd : Z) (k : Z)
  : list (Z * Z) :=
  flat_map (fun n =>
    let p := 10 ^ (n - k) in
    let lo := X / p in
    filter (fun sn =>
              let s := fst sn in
              (10 ^ (k - 1) <=? s) && (s <? 10 ^ k) &&
              match SFcompare (of_Z (s * p)) x with Some Eq => true | _ => false end)
           [(lo, n); (lo + 1, n)])
    [nd; nd + 1].

Definition closer (X k : Z) (a b : Z * Z) : Z * Z :=
  let da := Z.abs (fst a * 10 ^ (snd a - k) - X) in
  let db := Z.abs (fst b * 10 ^ (snd b - k) - X) in
  if db <? da then b
  else if (db =? da) && Z.even (fst b) then b else a.

Fixpoint shortest_from (x : number) (X nd : Z) (k : Z) (fuel : nat)
  : option (Z * Z) :=
  match fuel with
  | O => None
  | S fuel =>
      match shortest_candidates x X nd k with
      | [] => shortest_from x X nd (k + 1) fuel
      | c :: cs => Some (fold_left (closer X k) cs c)
      end
  end.

Definition toString_large (x : number) (X : Z) : string :=
  let nd := Z.of_nat (String.length (digits X)) in
  match shortest_from x X nd 1 17 with
  | Some (s, n) =>
      let ds := digits s in
      let e := digits (n - 1) in
      match ds with
      | String d "" => String d ("e+" ++ e)%string
      | String d rest => String d ("." ++ rest ++ "e+" ++ e)%string
      | "" => ""
      end
  | None => ""
  end.


(** [Number.prototype.toFixed(f)] *)
Definition toFixed (x : number) (f : nat) : string :=
  match x with
  | S754_nan => "NaN"
  | S754_infinity false => "Infinity"
  | S754_infinity true => "-Infinity"
  | S754_zero _ =>
      match f with O => "0" | _ => ("0." ++ zeros f)%string end
  | S754_finite s m e =>
      let sign := if s then "-" else "" in
      let large := (0 <=? e) && (10 ^ 21 <=? Zpos m * 2 ^ e) in
      if large
      then (sign ++ toString_large (S754_finite false m e) (Zpos m * 2 ^ e))%string
      else
        let scaled := Zpos m * 10 ^ Z.of_nat f in
        let n := if 0 <=? e then scaled * 2 ^ e
                 else Z.shiftr (2 * scaled + 2 ^ (- e)) (1 - e) in
        let ds := digits n in
        let k := String.length ds in
        let ds := if Nat.leb k f then (zeros (f + 1 - k) ++ ds)%string else ds in
        let k := String.length ds in
        match f with
        | O => (sign ++ ds)%string
        | _ => (sign ++ substring 0 (k - f) ds ++ "." ++ substring (k - f) f ds)%string
        end
  end.

End Number.

(* ================================================================== *)
(** * Plain JavaScript objects *)
(* ================================================================== *)

Module JsObject.

(** Own enumerable properties, in enumeration order. *)
Definition obj (A : Type) := list (string * A).

(** The properties every plain object inherits from [Object.prototype]. *)
Definition Object_prototype_names : list string :=
  [ "constructor"; "hasOwnProperty"; "isPrototypeOf"; "propertyIsEnumerable";
    "toLocaleString"; "toString"; "valueOf"; "__proto__";
    "__defineGetter__"; "__defineSetter__"; "__lookupGetter__";
    "__lookupSetter__" ].

Definition inherited (k : string) : bool :=
  existsb (String.eqb k) Object_prototype_names.

(** The result of a property read [o[k]]: an own property, a built-in
    inherited under the name [k], or [undefined]. *)
Inductive prop (A : Type) : Type :=
  | Own (a : A)
  | Builtin (name : string)
  | Undefined.
Arguments Own {A} a.
Arguments Builtin {A} name.
Arguments Undefined {A}.

Fixpoint own {A : Type} (o : obj A) (k : string) : option A :=
  match o with
  | [] => None
  | (k', v) :: o' => if String.eqb k k' then Some v else own o' k
  end.

(** [o[k]] *)
Definition get {A : Type} (o : obj A) (k : string) : prop A :=
  match own o k with
  | Some v => Own v
  | None => if inherited k then Builtin k else Undefined
  end.

(** [k in o] *)
Definition has {A : Type} (o : obj A) (k : string) : bool :=
  match get o k with Undefined => false | _ => true end.

(** Truthiness of a property whose own values are objects; the
    built-ins of [Object.prototype] are functions or objects. *)
Definition truthy {A : Type} (p : prop A) : bool :=
  match p with Undefined => false | _ => true end.

(** [Object.keys(o)] *)
Definition keys {A : Type} (o : obj A) : list string := map fst o.

(** [o[k] = v], for [k] neither an array index nor ["__proto__"]: an
    own property keeps its place, a new one is enumerated last. *)
Fixpoint set {A : Type} (o : obj A) (k : string) (v : A) : obj A :=
  match o with
  | [] => [(k, v)]
  | (k', v') :: o' =>
      if String.eqb k k' then (k', v) :: o' else (k', v') :: set o' k v
  end.

(** What a built-in of [Object.prototype] converts to when it is used
    as a property key (V8's rendering). *)
Definition native_key (name : string) : string :=
  if String.eqb name "__proto__" then "[object Object]"
  else if String.eqb name "constructor" then "function Object() { [native code] }"
  else "function " ++ name ++ "() { [native code] }".

(** The properties of those built-ins themselves are the host's:
    [host_has b p] is [p in B] and [host_truthy b p] the truthiness of
    [B[p]], for the built-in [B] inherited under the name [b]. *)
Record Host := {
  host_has : string -> string -> bool;
  host_truthy : string -> string -> bool
}.

End JsObject.

(* ================================================================== *)
(** * JSON values, as [JSON.parse] returns them *)
(* ================================================================== *)

Module Json.
Import Number JsObject.

Inductive json : Type :=
  | JNull
  | JBool (b : bool)
  | JNumber (x : number)
  | JString (s : string)
  | JArray (l : list json)
  | JObject (o : obj json).

End Json.

(* ================================================================== *)
(** * pricing.ts *)
(* ================================================================== *)

Module Pricing.
Import Number JsObject Json.

Module Duration.
Record t := { path : string; label : string; basePriceDollars : number }.
End Duration.

Module AssetType.
Record t := { label : string; multiplier : number }.
End AssetType.

Module Channel.
Record t := { label : string; wsChannel : string; multiplier : number }.
End Channel.

Record PricingConfig := {
  durations : list Duration.t;
  assetTypes : obj AssetType.t;
  channels : obj Channel.t
}.

Record RouteConfig := {
  routePath : string;
  price : string;
  assetType : string;
  channel : string;
  duration : string
}.

(** ** The zod schema *)

(** [z.string()] on a property read. *)
Definition z_string (p : prop json) : option string :=
  match p with Own (JString s) => Some s | _ => None end.

(** [z.number().positive()]: a number, not NaN, greater than zero. *)
Definition z_number_positive (p : prop json) : option number :=
  match p with
  | Own (JNumber x) => if positive x then Some x else None
  | _ => None
  end.

Fixpoint traverse {A B : Type} (f : A -> option B) (l : list A) : option (list B) :=
  match l with
  | [] => Some []
  | a :: l' =>
      match f a, traverse f l' with
      | Some b, Some bs => Some (b :: bs)
      | _, _ => None
      end
  end.

Definition durationSchema (j : json) : option Duration.t :=
  match j with
  | JObject o =>
      match z_string (get o "path"), z_string (get o "label"),
            z_number_positive (get o "basePriceDollars") with
      | Some p, Some l, Some b =>
          Some {| Duration.path := p; Duration.label := l;
                  Duration.basePriceDollars := b |}
      | _, _, _ => None
      end
  | _ => None
  end.

Definition assetTypeSchema (j : json) : option AssetType.t :=
  match j with
  | JObject o =>
      match z_string (get o "label"), z_number_positive (get o "multiplier") with
      | Some l, Some m => Some {| AssetType.label := l; AssetType.multiplier := m |}
      | _, _ => None
      end
  | _ => None
  end.

Definition channelSchema (j : json) : option Channel.t :=
  match j with
  | JObject o =>
      match z_string (get o "label"), z_string (get o "wsChannel"),
            z_number_positive (get o "multiplier") with
      | Some l, Some w, Some m =>
          Some {| Channel.label := l; Channel.wsChannel := w;
                  Channel.multiplier := m |}
      | _, _, _ => None
      end
  | _ => None
  end.

(** [z.array(item).min(1)] *)
Definition z_array_min1 {A : Type} (item : json -> option A) (p : prop json)
  : option (list A) :=
  match p with
  | Own (JArray l) =>
      match traverse item l with
      | Some (x :: xs) => Some (x :: xs)
      | _ => None
      end
  | _ => None
  end.

(** [z.record(z.string(), value).refine(non-empty)]: every own property
    is validated; the result is a fresh object with the validated
    properties in the same order, a key ["__proto__"] left out. *)
Definition z_record_nonempty {A : Type} (value : json -> option A) (p : prop json)
  : option (obj A) :=
  match p with
  | Own (JObject o) =>
      match traverse (fun kv => option_map (pair (fst kv)) (value (snd kv))) o with
      | Some r =>
          match filter (fun kv => negb (String.eqb (fst kv) "__proto__")) r with
          | [] => None
          | r' => Some r'
          end
      | None => None
      end
  | _ => None
  end.

(** [pricingSchema.parse], [None] when it throws. *)
Definition pricingSchema (j : json) : option PricingConfig :=
  match j with
  | JObject o =>
      match z_array_min1 durationSchema (get o "durations"),
            z_record_nonempty assetTypeSchema (get o "assetTypes"),
            z_record_nonempty channelSchema (get o "channels") with
      | Some d, Some a, Some c =>
          Some {| durations := d; assetTypes := a; channels := c |}
      | _, _, _ => None
      end
  | _ => None
  end.

(** ** Loading and hot reload *)

(** What reading and [JSON.parse]-ing [pricing.json] gives at some
    moment: [readFileSync] throws, [JSON.parse] throws, or a value. *)
Inductive file : Type :=
  | Unreadable
  | Malformed
  | Document (j : json).

(** The entries the module logs. *)
Inductive log : Type :=
  | InfoConfigLoaded        (* info: "Pricing config loaded" *)
  | ErrorLoadFailed         (* error: "Failed to load pricing.json" *)
  | WarnUpdateIgnored       (* warn: "Invalid pricing.json update ignored" *)
  | WarnWatchUnavailable.   (* warn: "Could not watch pricing.json for changes" *)

(** [loadConfig()]: the configuration or [null], and what it logs. *)
Definition loadConfig (f : file) : list log * option PricingConfig :=
  match f with
  | Document j =>
      match pricingSchema j with
      | Some parsed => ([InfoConfigLoaded], Some parsed)
      | None => ([ErrorLoadFailed], None)
      end
  | _ => ([ErrorLoadFailed], None)
  end.

(** The module after its top-level code ran: it holds [current], or
    its evaluation threw and the server does not start. *)
Inductive module_state : Type :=
  | Loaded (current : PricingConfig) (watching : bool)
  | Threw.

(** The top-level code: initial load, then [fs.watch]; [watch_ok] is
    false when [fs.watch] throws. *)
Definition init (f : file) (watch_ok : bool) : list log * module_state :=
  let '(logs, current) := loadConfig f in
  match current with
  | None => (logs, Threw)
  | Some current =>
      if watch_ok then (logs, Loaded current true)
      else ((logs ++ [WarnWatchUnavailable])%list, Loaded current false)
  end.

(** A notification of [fs.watch], with the file as it is read then. *)
Record fs_event := { eventType : string; content : file }.

(** The [fs.watch] listener, on the binding [current]. *)
Definition on_watch (ev : fs_event) (current : PricingConfig)
  : list log * PricingConfig :=
  if String.eqb ev.(eventType) "change" then
    let '(logs, updated) := loadConfig ev.(content) in
    match updated with
    | Some updated => (logs, updated)
    | None => ((logs ++ [WarnUpdateIgnored])%list, current)
    end
  else ([], current).

(** One notification delivered to the module. *)
Definition deliver (ev : fs_event) (st : module_state) : list log * module_state :=
  match st with
  | Loaded current true =>
      let '(logs, current') := on_watch ev current in (logs, Loaded current' true)
  | _ => ([], st)
  end.

Fixpoint run (evs : list fs_event) (st : module_state) : list log * module_state :=
  match evs with
  | [] => ([], st)
  | ev :: evs' =>
      let '(l1, st1) := deliver ev st in
      let '(l2, st2) := run evs' st1 in
      ((l1 ++ l2)%list, st2)
  end.

(** ** Prices and routes *)

Record Price := { dollars : number; formatted : string }.

(** [at.multiplier]: a built-in has no such property, and [undefined]
    is NaN in a product. *)
Definition assetType_multiplier (p : prop AssetType.t) : number :=
  match p with Own a => a.(AssetType.multiplier) | _ => NaN end.

Definition channel_multiplier (p : prop Channel.t) : number :=
  match p with Own c => c.(Channel.multiplier) | _ => NaN end.

Definition computePrice (cfg : PricingConfig) (assetType channel durationPath : string)
  : option Price :=
  let aty := get cfg.(assetTypes) assetType in
  let ch := get cfg.(channels) channel in
  let dur := find (fun d => String.eqb d.(Duration.path) durationPath) cfg.(durations) in
  match dur with
  | Some dur =>
      if negb (truthy aty) || negb (truthy ch) then None
      else
        let dollars :=
          mul (mul dur.(Duration.basePriceDollars) (assetType_multiplier aty))
              (channel_multiplier ch) in
        let rounded := div (Math_round (mul dollars (of_Z 100))) (of_Z 100) in
        Some {| dollars := rounded; formatted := "$" ++ toFixed rounded 2 |}
  | None => None
  end.

Definition routePath_of (assetType channel durationPath : string) : string :=
  "/v1/purchase/" ++ assetType ++ "/" ++ channel ++ "/" ++ durationPath.

Definition getAllRouteConfigs (cfg : PricingConfig) : list RouteConfig :=
  flat_map (fun assetType =>
    flat_map (fun channel =>
      flat_map (fun dur =>
        match computePrice cfg assetType channel dur.(Duration.path) with
        | Some price =>
            [ {| routePath := routePath_of assetType channel dur.(Duration.path);
                 price := price.(formatted);
                 assetType := assetType;
                 channel := channel;
                 duration := dur.(Duration.path) |} ]
        | None => []
        end)
        cfg.(durations))
      (keys cfg.(channels)))
    (keys cfg.(assetTypes)).

End Pricing.

(* ================================================================== *)
(** * symbols.ts *)
(* ================================================================== *)

Module Symbols.
Import Number JsObject Pricing.

(** Maps API [asset_type] values to our pricing config keys. *)
Definition ASSET_TYPE_MAP : obj string :=
  [ ("crypto", "crypto");
    ("equity", "equity");
    ("fx", "fx");
    ("rates", "rates");
    ("commodity", "commodity");
    ("kalshi", "kalshi");
    ("nav", "nav");
    ("metal", "commodity") ].

(** Feed ids are integers; they are only copied. [assetType] holds the
    mapped type as the property key it is used as. *)
Record TickerInfo := { feedId : Z; assetType : string }.

(** Nested map: assetType -> ticker -> TickerInfo *)
Definition directory := obj (obj TickerInfo).

(** ** String primitives *)

(** [s.indexOf(c)] and [s.lastIndexOf(c)] for a one-character [c],
    [None] for -1. *)
Fixpoint indexOf (c : ascii) (s : string) : option nat :=
  match s with
  | "" => None
  | String a s' =>
      if Ascii.eqb a c then Some 0 else option_map S (indexOf c s')
  end.

Fixpoint lastIndexOf (c : ascii) (s : string) : option nat :=
  match s with
  | "" => None
  | String a s' =>
      match lastIndexOf c s' with
      | Some i => Some (S i)
      | None => if Ascii.eqb a c then Some 0 else None
      end
  end.

(** [s.substring(0, n)] and [s.substring(n)] *)
Fixpoint take (n : nat) (s : string) : string :=
  match n, s with
  | S n', String a s' => String a (take n' s')
  | _, _ => ""
  end.

Fixpoint drop (n : nat) (s : string) : string :=
  match n, s with
  | S n', String _ s' => drop n' s'
  | _, _ => s
  end.

Definition is_empty (s : string) : bool :=
  match s with "" => true | _ => false end.

(** Derive a human-readable ticker from the Pyth symbol string. *)
Definition parseTickerName (symbol : string) : option string :=
  match indexOf "/" symbol with
  | None => None
  | Some slashIdx =>
      let prefix := take slashIdx symbol in
      let quote := drop (slashIdx + 1) symbol in
      match lastIndexOf "." prefix with
      | None => None
      | Some dotIdx =>
          let base := drop (dotIdx + 1) prefix in
          if is_empty base || is_empty quote then None
          else Some (base ++ "-" ++ quote)
      end
  end.

(** ** Ingestion *)

(** An entry of the upstream catalog. *)
Record item := {
  state : string;
  asset_type : string;
  symbol : string;
  pyth_lazer_id : Z
}.

(** [ASSET_TYPE_MAP[asset_type]] as it is used afterwards: as a
    property key. [None] when the value is falsy. *)
Definition mappedType_of (asset_type : string) : option string :=
  match get ASSET_TYPE_MAP asset_type with
  | Own s => if is_empty s then None else Some s
  | Builtin b => Some (native_key b)
  | Undefined => None
  end.

(** One turn of the loop of [initSymbols] over [map]. *)
Definition ingest (assetTypes : obj AssetType.t) (map : directory) (it : item)
  : directory :=
  if negb (String.eqb it.(state) "stable") then map
  else
    match mappedType_of it.(asset_type) with
    | None => map
    | Some mappedType =>
        if negb (truthy (get assetTypes mappedType)) then map
        else
          match parseTickerName it.(symbol) with
          | None => map
          | Some ticker =>
              if is_empty ticker then map
              else
                let map :=
                  if negb (truthy (get map mappedType)) then set map mappedType []
                  else map in
                match get map mappedType with
                | Own tickers =>
                    (* First-seen wins *)
                    if negb (truthy (get tickers ticker)) then
                      set map mappedType
                        (set tickers ticker
                           {| feedId := it.(pyth_lazer_id);
                              assetType := mappedType |})
                    else map
                | _ =>
                    (* [map[mappedType]] is a built-in: the write does not
                       touch [map]. *)
                    map
                end
          end
    end.

(** [initSymbols], given the catalog the fetch returned: the value
    assigned to [byAssetType]. *)
Definition initSymbols (assetTypes : obj AssetType.t) (data : list item) : directory :=
  fold_left (ingest assetTypes) data [].

(** ** Queries *)

(** Look up a single ticker within an asset type. A falsy property of
    a built-in is reported as [Undefined]: callers test truthiness. *)
Definition getTickerInfo (h : Host) (byAssetType : directory)
    (assetType ticker : string) : prop TickerInfo :=
  match get byAssetType assetType with
  | Own tickers => get tickers ticker
  | Builtin b =>
      if h.(host_truthy) b ticker then Builtin (b ++ "." ++ ticker) else Undefined
  | Undefined => Undefined
  end.

(** All tickers for a given asset type (empty object if none). *)
Definition getTickersForAssetType (byAssetType : directory) (assetType : string)
  : prop (obj TickerInfo) :=
  match get byAssetType assetType with
  | Undefined => Own []
  | p => p
  end.

(** Full nested map of all tickers. *)
Definition getAllTickers (byAssetType : directory) : directory := byAssetType.

(** [Object.keys] of what [getTickersForAssetType] returns; a built-in
    has no enumerable own property. *)
Definition Object_keys {A : Type} (p : prop (obj A)) : list string :=
  match p with Own o => keys o | _ => [] end.

(** [ticker in tickers] on what [getTickersForAssetType] returns. *)
Definition in_tickers {A : Type} (h : Host) (ticker : string) (p : prop (obj A)) : bool :=
  match p with
  | Own o => has o ticker
  | Builtin b => h.(host_has) b ticker
  | Undefined => false
  end.

End Symbols.

(* ================================================================== *)
(** * Regular expressions ([RegExp.prototype.test], anchored) *)
(* ================================================================== *)

Module Regex.

Inductive re : Type :=
  | Void
  | Eps
  | Class (p : ascii -> bool)
  | Seq (r1 r2 : re)
  | Alt (r1 r2 : re)
  | Star (r : re).

(** [r+] *)
Definition Plus (r : re) : re := Seq r (Star r).

Fixpoint nullable (r : re) : bool :=
  match r with
  | Void => false
  | Eps => true
  | Class _ => false
  | Seq r1 r2 => nullable r1 && nullable r2
  | Alt r1 r2 => nullable r1 || nullable r2
  | Star _ => true
  end.

Fixpoint deriv (a : ascii) (r : re) : re :=
  match r with
  | Void => Void
  | Eps => Void
  | Class p => if p a then Eps else Void
  | Seq r1 r2 =>
      if nullable r1 then Alt (Seq (deriv a r1) r2) (deriv a r2)
      else Seq (deriv a r1) r2
  | Alt r1 r2 => Alt (deriv a r1) (deriv a r2)
  | Star r1 => Seq (deriv a r1) (Star r1)
  end.

(** [/^r$/.test(s)] *)
Fixpoint test (r : re) (s : string) : bool :=
  match s with
  | "" => nullable r
  | String a s' => test (deriv a r) s'
  end.

(** [[A-Z]], [[0-9]], [[A-Z0-9]] *)
Definition upper (c : ascii) : bool :=
  let n := nat_of_ascii c in Nat.leb 65 n && Nat.leb n 90.

Definition digit (c : ascii) : bool :=
  let n := nat_of_ascii c in Nat.leb 48 n && Nat.leb n 57.

Definition upper_or_digit (c : ascii) : bool := upper c || digit c.

End Regex.

(* ================================================================== *)
(** * HTTP responses *)
(* ================================================================== *)

Module Http.

Record ErrorBody := {
  code : string;
  message : string;
  hint : option string
}.

(** [res.json(body)] answers 200; [res.status(n).json({error})]
    answers [n]. *)
Inductive response (A : Type) : Type :=
  | Ok (body : A)
  | Err (status : Z) (error : ErrorBody).
Arguments Ok {A} body.
Arguments Err {A} status error.

Definition status {A : Type} (r : response A) : Z :=
  match r with Ok _ => 200%Z | Err n _ => n end.

(** [xs.join(sep)] *)
Definition join (sep : string) (xs : list string) : string := String.concat sep xs.

(** The type name zod reports for a value it did not expect. *)
Definition received (j : Json.json) : string :=
  match j with
  | Json.JNull => "null"
  | Json.JBool _ => "boolean"
  | Json.JNumber S754_nan => "nan"
  | Json.JNumber _ => "number"
  | Json.JString _ => "string"
  | Json.JArray _ => "array"
  | Json.JObject _ => "object"
  end.

(** One issue of a [ZodError], rendered as the handlers do:
    [`${e.path.join(".")}: ${e.message}`]. *)
Definition issue (path : string) (msg : string) : string := path ++ ": " ++ msg.

Definition validation_error {A : Type} (issues : list string) : response A :=
  Err 400 {| code := "VALIDATION_ERROR"; message := join ", " issues; hint := None |}.

End Http.

(* ================================================================== *)
(** * routes/purchase.ts *)
(* ================================================================== *)

Module Purchase.
Import Number JsObject Json Pricing Symbols Regex Http.

(** [/^[A-Z0-9]+-[A-Z]+$/] *)
Definition ticker_re : re :=
  Seq (Plus (Class upper_or_digit))
      (Seq (Class (Ascii.eqb "-")) (Plus (Class upper))).

(** [purchaseBody.safeParse(req.body)]: the ticker, or the issues with
    zod's default messages. [None] is a body that is [undefined]. *)
Definition purchaseBody (body : option json) : string + list string :=
  match body with
  | None => inr [issue "" "Required"]
  | Some (JObject o) =>
      match get o "ticker" with
      | Own (JString t) =>
          if test ticker_re t then inl t else inr [issue "ticker" "Invalid"]
      | Own j => inr [issue "ticker" ("Expected string, received " ++ received j)]
      | Builtin _ => inr [issue "ticker" "Expected string, received function"]
      | Undefined => inr [issue "ticker" "Required"]
      end
  | Some j => inr [issue "" ("Expected object, received " ++ received j)]
  end.

(** The part of [config.ts] the handler echoes. *)
Record Env := {
  PYTH_PRO_ACCESS_TOKEN : string;
  PYTH_PRO_WS_URLS : list string
}.

Record request := {
  body : option json;
  payerAddress : option string;      (* (req as any).payerAddress *)
  x_payer_address : option string    (* req.headers["x-payer-address"] *)
}.

Module Audit.
Record t := {
  wallet : string;
  ticker : string;
  feedId : option Z;
  assetType : string;
  channel : string;
  duration : string;
  pricePaid : option string
}.
End Audit.

Record Subscribe := {
  type : string;
  subscriptionId : Z;
  priceFeedIds : list (option Z);
  properties : list string;
  formats : list string;
  channel : string;
  deliveryFormat : string;
  jsonBinaryEncoding : string
}.

Record PythPro := {
  accessToken : string;
  websocketUrls : list string;
  authMethod : string;
  subscribe : Subscribe
}.

Module Credential.
Record t := {
  ticker : string;
  feedId : option Z;
  assetType : string;
  channel : string;
  duration : string;
  pricePaid : option string;
  pythPro : PythPro
}.
End Credential.

(** What a request does besides answering: calls into the symbol
    directory and the audit log. *)
Inductive effect : Type :=
  | CallGetTickerInfo (assetType ticker : string)
  | CallGetTickersForAssetType (assetType : string)
  | LogPurchaseCompleted (record : Audit.t).

(** [tickerInfo.feedId]; a built-in has no such property. *)
Definition feedId_of (p : prop TickerInfo) : option Z :=
  match p with Own i => Some i.(feedId) | _ => None end.

(** [channels[channelSlug]?.wsChannel ?? "fixed_rate@200ms"] *)
Definition wsChannel_of (p : prop Channel.t) : string :=
  match p with Own c => c.(Channel.wsChannel) | _ => "fixed_rate@200ms" end.

(** [a ?? b ?? "unknown"] *)
Definition payerWallet_of (req : request) : string :=
  match req.(payerAddress) with
  | Some a => a
  | None => match req.(x_payer_address) with Some a => a | None => "unknown" end
  end.

Definition invalid_ticker_message (ticker assetType : string) (available : list string)
  : string :=
  "Ticker '" ++ ticker ++ "' is not a valid " ++ assetType ++ " ticker. Available: "
  ++ join ", " (firstn 10 available)
  ++ (if Nat.ltb 10 (List.length available)
      then " ... (" ++ digits (Z.of_nat (List.length available)) ++ " total)"
      else "").

(** [purchaseHandler(assetType, channelSlug, duration)(req, res)], on
    the bindings [config], [current] and [byAssetType]. *)
Definition purchaseHandler (h : Host) (env : Env) (cfg : PricingConfig)
    (byAssetType : directory) (assetType channelSlug duration : string)
    (req : request) : list effect * response Credential.t :=
  match purchaseBody req.(body) with
  | inr issues => ([], validation_error issues)
  | inl ticker =>
      let tickerInfo := getTickerInfo h byAssetType assetType ticker in
      if negb (truthy tickerInfo) then
        let available := Object_keys (getTickersForAssetType byAssetType assetType) in
        ([CallGetTickerInfo assetType ticker; CallGetTickersForAssetType assetType],
         Err 400 {| code := "INVALID_TICKER";
                    message := invalid_ticker_message ticker assetType available;
                    hint := None |})
      else
        let price := computePrice cfg assetType channelSlug duration in
        let channels := cfg.(channels) in
        let wsChannel := wsChannel_of (get channels channelSlug) in
        let payerWallet := payerWallet_of req in
        ([CallGetTickerInfo assetType ticker;
          LogPurchaseCompleted
            {| Audit.wallet := payerWallet;
               Audit.ticker := ticker;
               Audit.feedId := feedId_of tickerInfo;
               Audit.assetType := assetType;
               Audit.channel := channelSlug;
               Audit.duration := duration;
               Audit.pricePaid := option_map formatted price |}],
         Ok {| Credential.ticker := ticker;
               Credential.feedId := feedId_of tickerInfo;
               Credential.assetType := assetType;
               Credential.channel := channelSlug;
               Credential.duration := duration;
               Credential.pricePaid := option_map formatted price;
               Credential.pythPro :=
                 {| accessToken := env.(PYTH_PRO_ACCESS_TOKEN);
                    websocketUrls := env.(PYTH_PRO_WS_URLS);
                    authMethod := "Pass as Authorization: Bearer {accessToken} header when connecting to WebSocket";
                    subscribe :=
                      {| type := "subscribe";
                         subscriptionId := 1;
                         priceFeedIds := [feedId_of tickerInfo];
                         properties := ["price"; "bestBidPrice"; "bestAskPrice";
                                        "exponent"; "confidence"];
                         formats := ["evm"; "solana"];
                         channel := wsChannel;
                         deliveryFormat := "json";
                         jsonBinaryEncoding := "hex" |} |} |})
  end.

End Purchase.

(* ================================================================== *)
(** * routes/pricing.ts *)
(* ================================================================== *)

Module PricingRoute.
Import Number JsObject Json Pricing Symbols Http.

(** A value of [req.query]: a string, or what a repeated or bracketed
    parameter parses to. *)
Inductive qvalue : Type :=
  | QString (s : string)
  | QArray
  | QObject.

Record query := {
  ticker : option qvalue;
  assetType : option qvalue;
  channel : option qvalue
}.

(** [z.string().optional()] on one parameter. *)
Definition z_string_optional (name : string) (v : option qvalue)
  : option string + string :=
  match v with
  | None => inl None
  | Some (QString s) => inl (Some s)
  | Some QArray => inr (issue name "Expected string, received array")
  | Some QObject => inr (issue name "Expected string, received object")
  end.

Definition issues_of {A : Type} (r : A + string) : list string :=
  match r with inl _ => [] | inr i => [i] end.

(** [querySchema.safeParse(req.query)] *)
Definition querySchema (q : query)
  : (option string * option string * option string) + list string :=
  match z_string_optional "ticker" q.(ticker),
        z_string_optional "assetType" q.(assetType),
        z_string_optional "channel" q.(channel) with
  | inl t, inl a, inl c => inl (t, a, c)
  | t, a, c => inr (issues_of t ++ issues_of a ++ issues_of c)%list
  end.

(** Truthiness of [string | undefined]. *)
Definition given (v : option string) : option string :=
  match v with
  | Some s => if is_empty s then None else Some s
  | None => None
  end.

Module Row.
Record t := {
  assetType : string;
  channel : string;
  duration : string;
  price : string;
  purchaseUrl : string
}.
End Row.

(** The pricing matrix of the 200 answer. The other fields of that
    body (the echoed configuration, [supportedTickers],
    [instructions]) are not part of this model. *)
Definition matrix (cfg : PricingConfig) (effectiveAssetTypes filteredChannels : list string)
  : list Row.t :=
  flat_map (fun aty =>
    flat_map (fun ch =>
      flat_map (fun dur =>
        match computePrice cfg aty ch dur.(Duration.path) with
        | Some p =>
            [ {| Row.assetType := aty;
                 Row.channel := ch;
                 Row.duration := dur.(Duration.path);
                 Row.price := p.(formatted);
                 Row.purchaseUrl := routePath_of aty ch dur.(Duration.path) |} ]
        | None => []
        end)
        cfg.(durations))
      filteredChannels)
    effectiveAssetTypes.

Definition invalid_asset_type (cfg : PricingConfig) (assetType : string) : ErrorBody :=
  {| code := "INVALID_ASSET_TYPE";
     message := "Asset type '" ++ assetType ++ "' is not supported. Available: "
                ++ join ", " (keys cfg.(assetTypes));
     hint := None |}.

Definition invalid_channel (cfg : PricingConfig) (channel : string) : ErrorBody :=
  {| code := "INVALID_CHANNEL";
     message := "Channel '" ++ channel ++ "' is not supported. Available: "
                ++ join ", " (keys cfg.(channels));
     hint := None |}.

(** [v && !o[v]]: the filter value the object does not know. *)
Definition unknown_filter {A : Type} (o : obj A) (v : option string) : option string :=
  match given v with
  | Some k => if negb (truthy (get o k)) then Some k else None
  | None => None
  end.

(** Both revisions start alike: the query is parsed, then the
    [assetType] and the [channel] filter are validated. *)
Definition validate_filters (cfg : PricingConfig) (assetType channel : option string)
  : option ErrorBody :=
  match unknown_filter cfg.(assetTypes) assetType with
  | Some a => Some (invalid_asset_type cfg a)
  | None =>
      match unknown_filter cfg.(channels) channel with
      | Some c => Some (invalid_channel cfg c)
      | None => None
      end
  end.

Definition filteredAssetTypes_of (cfg : PricingConfig) (assetType : option string)
  : list string :=
  match given assetType with Some a => [a] | None => keys cfg.(assetTypes) end.

Definition filteredChannels_of (cfg : PricingConfig) (channel : option string)
  : list string :=
  match given channel with Some c => [c] | None => keys cfg.(channels) end.

(** ** The revision with a single [ticker] *)
Module Single.

Definition not_found_message (ticker : string) (assetType : option string) : string :=
  "Ticker '" ++ ticker ++ "' not found"
  ++ match given assetType with
     | Some a => " in asset type '" ++ a ++ "'"
     | None => ""
     end.

Definition pricingRouter_get (h : Host) (cfg : PricingConfig) (byAssetType : directory)
    (q : query) : response (list Row.t) :=
  match querySchema q with
  | inr issues => validation_error issues
  | inl (ticker, assetType, channel) =>
      match validate_filters cfg assetType channel with
      | Some e => Err 400 e
      | None =>
          let filteredAssetTypes := filteredAssetTypes_of cfg assetType in
          let filteredChannels := filteredChannels_of cfg channel in
          match given ticker with
          | Some ticker =>
              let effectiveAssetTypes :=
                filter (fun aty =>
                          in_tickers h ticker (getTickersForAssetType byAssetType aty))
                       filteredAssetTypes in
              match effectiveAssetTypes with
              | [] =>
                  Err 400 {| code := "INVALID_TICKER";
                             message := not_found_message ticker assetType;
                             hint := None |}
              | _ => Ok (matrix cfg effectiveAssetTypes filteredChannels)
              end
          | None => Ok (matrix cfg filteredAssetTypes filteredChannels)
          end
      end
  end.

End Single.

(** ** The revision with comma-separated tickers *)
Module Multi.

(** [s.split(",")] *)
Fixpoint split (sep : ascii) (s : string) : list string :=
  match s with
  | "" => [""]
  | String a s' =>
      match split sep s' with
      | x :: xs => if Ascii.eqb a sep then "" :: x :: xs else String a x :: xs
      | [] => []
      end
  end.

(** White space among the code units below 256. *)
Definition white_space (c : ascii) : bool :=
  let n := nat_of_ascii c in
  (Nat.leb 9 n && Nat.leb n 13) || Nat.eqb n 32 || Nat.eqb n 160.

Fixpoint trimStart (s : string) : string :=
  match s with
  | String a s' => if white_space a then trimStart s' else s
  | "" => ""
  end.

Fixpoint trimEnd (s : string) : string :=
  match s with
  | String a s' =>
      let r := trimEnd s' in
      if white_space a && is_empty r then "" else String a r
  | "" => ""
  end.

(** [s.trim()] *)
Definition trim (s : string) : string := trimEnd (trimStart s).

(** [tickerParam ? tickerParam.split(",").map(trim).filter(Boolean) : []] *)
Definition tickers_of (tickerParam : option string) : list string :=
  match given tickerParam with
  | Some p => filter (fun t => negb (is_empty t)) (map trim (split "," p))
  | None => []
  end.

(** [allTickerData[at]?.[t]] is truthy. *)
Definition found_in (h : Host) (allTickerData : directory) (aty t : string) : bool :=
  match get allTickerData aty with
  | Own tickers => truthy (get tickers t)
  | Builtin b => h.(host_truthy) b t
  | Undefined => false
  end.

Definition invalidTickers_of (h : Host) (cfg : PricingConfig) (allTickerData : directory)
    (tickers : list string) : list string :=
  filter (fun t => negb (existsb (fun aty => found_in h allTickerData aty t)
                                 (keys cfg.(assetTypes))))
         tickers.

Definition pricingRouter_get (h : Host) (cfg : PricingConfig) (byAssetType : directory)
    (q : query) : response (list Row.t) :=
  match querySchema q with
  | inr issues => validation_error issues
  | inl (tickerParam, assetType, channel) =>
      match validate_filters cfg assetType channel with
      | Some e => Err 400 e
      | None =>
          let tickers := tickers_of tickerParam in
          let invalidTickers :=
            invalidTickers_of h cfg (getAllTickers byAssetType) tickers in
          match invalidTickers with
          | _ :: _ =>
              Err 400 {| code := "INVALID_TICKER";
                         message := "Ticker(s) not found: " ++ join ", " invalidTickers;
                         hint := Some "Look up valid symbols and feed IDs at https://history.pyth-lazer.dourolabs.app/history/v1/symbols" |}
          | [] =>
              let filteredAssetTypes := filteredAssetTypes_of cfg assetType in
              let effectiveAssetTypes :=
                match tickers with
                | [] => filteredAssetTypes
                | _ =>
                    filter (fun aty =>
                              existsb (fun t =>
                                         in_tickers h t
                                           (getTickersForAssetType byAssetType aty))
                                      tickers)
                           filteredAssetTypes
                end in
              let filteredChannels := filteredChannels_of cfg channel in
              Ok (matrix cfg effectiveAssetTypes filteredChannels)
          end
      end
  end.

End Multi.

End PricingRoute.

(* ================================================================== *)
(** * routes/pricing.ts: the supported-ticker map of the 200 answer *)
(* ================================================================== *)

Module SupportedTickers.
Import Number JsObject Json Pricing Symbols Http PricingRoute.

(** [{ feedId }] per ticker; the feed id is [undefined] when the
    ticker is a property of a built-in. *)
Definition tickerMap := obj (option Z).

(** [supportedTickers[at] = v]: an assignment to ["__proto__"] creates
    no own property. *)
Definition assign (supportedTickers : obj tickerMap) (aty : string) (v : tickerMap)
  : obj tickerMap :=
  if String.eqb aty "__proto__" then supportedTickers else set supportedTickers aty v.

(** [Object.fromEntries(Object.entries(tickers).map(([t, info]) =>
    [t, { feedId: info.feedId }]))] *)
Definition all_of (tickers : obj TickerInfo) : tickerMap :=
  map (fun kv => (fst kv, Some (snd kv).(feedId))) tickers.

Module Single.

(** One turn of the loop over [effectiveAssetTypes]. *)
Definition step (h : Host) (allTickers : directory) (ticker : option string)
    (supportedTickers : obj tickerMap) (aty : string) : obj tickerMap :=
  match get allTickers aty with
  | Undefined => supportedTickers
  | Own tickers =>
      match given ticker with
      | Some t =>
          match get tickers t with
          | Undefined => supportedTickers
          | p => assign supportedTickers aty [(t, Purchase.feedId_of p)]
          end
      | None => assign supportedTickers aty (all_of tickers)
      end
  | Builtin b =>
      match given ticker with
      | Some t =>
          if h.(host_truthy) b t then assign supportedTickers aty [(t, None)]
          else supportedTickers
      | None => assign supportedTickers aty []
      end
  end.

Definition supportedTickers_of (h : Host) (byAssetType : directory)
    (ticker : option string) (effectiveAssetTypes : list string) : obj tickerMap :=
  fold_left (step h (getAllTickers byAssetType) ticker) effectiveAssetTypes [].

End Single.

Module Multi.

(** [matched[t] = { feedId }], when [atTickers[t]] is truthy. *)
Definition match_ticker (atTickers : obj TickerInfo) (matched : tickerMap) (t : string)
  : tickerMap :=
  match get atTickers t with
  | Undefined => matched
  | p => if String.eqb t "__proto__" then matched else set matched t (Purchase.feedId_of p)
  end.

Definition match_builtin (h : Host) (b : string) (matched : tickerMap) (t : string)
  : tickerMap :=
  if h.(host_truthy) b t then
    if String.eqb t "__proto__" then matched else set matched t None
  else matched.

Definition step (h : Host) (allTickers : directory) (tickers : list string)
    (supportedTickers : obj tickerMap) (aty : string) : obj tickerMap :=
  match get allTickers aty with
  | Undefined => supportedTickers
  | Own atTickers =>
      match tickers with
      | [] => assign supportedTickers aty (all_of atTickers)
      | _ =>
          match fold_left (match_ticker atTickers) tickers [] with
          | [] => supportedTickers
          | matched => assign supportedTickers aty matched
          end
      end
  | Builtin b =>
      match tickers with
      | [] => assign supportedTickers aty []
      | _ =>
          match fold_left (match_builtin h b) tickers [] with
          | [] => supportedTickers
          | matched => assign supportedTickers aty matched
          end
      end
  end.

Definition supportedTickers_of (h : Host) (byAssetType : directory)
    (tickers : list string) (effectiveAssetTypes : list string) : obj tickerMap :=
  fold_left (step h (getAllTickers byAssetType) tickers) effectiveAssetTypes [].

End Multi.

End SupportedTickers.

(* ================================================================== *)
(** * config.ts *)
(* ================================================================== *)

Module Config.
Import Number PricingRoute.

(** [process.env]. [PORT] is given as [Number(process.env.PORT)], the
    value [z.coerce.number()] validates. *)
Record process_env := {
  env_PORT : option number;
  env_PAYMENT_RECIPIENT_ADDRESS : option string;
  env_X402_NETWORK : option string;
  env_CDP_API_KEY_ID : option string;
  env_CDP_API_KEY_SECRET : option string;
  env_PYTH_PRO_ACCESS_TOKEN : option string;
  env_PYTH_PRO_WS_URLS : option string;
  env_NODE_ENV : option string
}.

Record t := {
  PORT : number;
  PAYMENT_RECIPIENT_ADDRESS : string;
  X402_NETWORK : string;
  CDP_API_KEY_ID : option string;
  CDP_API_KEY_SECRET : option string;
  PYTH_PRO_ACCESS_TOKEN : string;
  PYTH_PRO_WS_URLS : list string;
  NODE_ENV : string
}.

Definition is_nan (x : number) : bool :=
  match x with S754_nan => true | _ => false end.

(** [(v) => v?.startsWith("your-") ? undefined : v] *)
Definition drop_placeholder (v : option string) : option string :=
  match v with
  | Some s => if String.prefix "your-" s then None else Some s
  | None => None
  end.

Definition default_ws_urls : string :=
  "wss://pyth-lazer-0.dourolabs.app/v1/stream,wss://pyth-lazer-1.dourolabs.app/v1/stream,wss://pyth-lazer-2.dourolabs.app/v1/stream".

Definition with_default (v : option string) (d : string) : string :=
  match v with Some s => s | None => d end.

(** [envSchema.parse(process.env)], [None] when it throws. *)
Definition envSchema (e : process_env) : option t :=
  let port := match e.(env_PORT) with Some x => x | None => of_Z 4021 end in
  let node_env := with_default e.(env_NODE_ENV) "development" in
  match e.(env_PAYMENT_RECIPIENT_ADDRESS), e.(env_PYTH_PRO_ACCESS_TOKEN) with
  | Some addr, Some token =>
      if is_nan port then None
      else if negb (String.prefix "0x" addr) then None
      else if negb (existsb (String.eqb node_env) ["development"; "production"; "test"])
      then None
      else
        Some {| PORT := port;
                PAYMENT_RECIPIENT_ADDRESS := addr;
                X402_NETWORK := with_default e.(env_X402_NETWORK) "eip155:8453";
                CDP_API_KEY_ID := drop_placeholder e.(env_CDP_API_KEY_ID);
                CDP_API_KEY_SECRET := drop_placeholder e.(env_CDP_API_KEY_SECRET);
                PYTH_PRO_ACCESS_TOKEN := token;
                PYTH_PRO_WS_URLS :=
                  Multi.split "," (with_default e.(env_PYTH_PRO_WS_URLS) default_ws_urls);
                NODE_ENV := node_env |}
  | _, _ => None
  end.

(** What the purchase handler reads of [config]. *)
Definition purchase_env (c : t) : Purchase.Env :=
  {| Purchase.PYTH_PRO_ACCESS_TOKEN := c.(PYTH_PRO_ACCESS_TOKEN);
     Purchase.PYTH_PRO_WS_URLS := c.(PYTH_PRO_WS_URLS) |}.

End Config.

(* ================================================================== *)
(** * server.ts *)
(* ================================================================== *)

Module Server.
Import JsObject Json Pricing Symbols Http.

(** [!!(config.CDP_API_KEY_ID && config.CDP_API_KEY_SECRET)] *)
Definition hasCdpKeys (c : Config.t) : bool :=
  match PricingRoute.given c.(Config.CDP_API_KEY_ID),
        PricingRoute.given c.(Config.CDP_API_KEY_SECRET) with
  | Some _, Some _ => true
  | _, _ => false
  end.

Inductive facilitator : Type :=
  | Cdp (keyId keySecret : string)
  | Public (url : string).

Definition facilitator_of (c : Config.t) : facilitator :=
  match PricingRoute.given c.(Config.CDP_API_KEY_ID),
        PricingRoute.given c.(Config.CDP_API_KEY_SECRET) with
  | Some i, Some k => Cdp i k
  | _, _ => Public "https://x402.org/facilitator"
  end.

Record Accept := {
  scheme : string;
  price : string;
  network : string;
  payTo : string
}.

Record RouteEntry := {
  accepts : list Accept;
  description : string;
  mimeType : string
}.

Definition entry_of (c : Config.t) (r : RouteConfig) : RouteEntry :=
  {| accepts :=
       [ {| scheme := "exact";
            price := r.(Pricing.price);
            network := c.(Config.X402_NETWORK);
            payTo := c.(Config.PAYMENT_RECIPIENT_ADDRESS) |} ];
     description :=
       "Purchase " ++ r.(Pricing.duration) ++ " " ++ r.(Pricing.assetType)
       ++ " access at " ++ r.(Pricing.channel) ++ " rate";
     mimeType := "application/json" |}.

(** The object handed to [paymentMiddleware]: one assignment
    [routeConfig[`POST ${r.routePath}`] = ...] per route. *)
Definition routeConfig_of (c : Config.t) (routes : list RouteConfig) : obj RouteEntry :=
  fold_left (fun rc r => set rc ("POST " ++ r.(routePath)) (entry_of c r)) routes [].

(** The [app.post] registrations, in order: the path and the
    arguments of [purchaseHandler]. *)
Definition registrations_of (routes : list RouteConfig)
  : list (string * (string * string * string)) :=
  map (fun r => (r.(routePath),
                 (r.(Pricing.assetType), r.(Pricing.channel), r.(Pricing.duration))))
      routes.

(** What reaches the global error handler. *)
Inductive thrown : Type :=
  | ZodError (issues : list string)
  | OtherError.

Definition errorHandler (err : thrown) : response unit :=
  match err with
  | ZodError issues => validation_error issues
  | OtherError =>
      Err 500 {| code := "INTERNAL_ERROR";
                 message := "An unexpected error occurred";
                 hint := None |}
  end.

End Server.

(* ================================================================== *)
(** * index.ts *)
(* ================================================================== *)

Module Index.
Import JsObject Pricing Symbols.

(** What start-up asks of the platform besides the files it reads:
    whether [logger.ts] can create its log directory and its streams,
    whether [createApp()] returns, whether [server.listen(config.PORT)]
    binds the port. *)
Record Platform := {
  logger_ok : bool;
  createApp_ok : bool;
  listen_ok : bool
}.

(** The process once start-up is over: it exited, or it listens with
    the bindings [config], [current] and [byAssetType] and the routes
    [createApp] registered. *)
Inductive process : Type :=
  | Exited
  | Listening (config : Config.t) (current : PricingConfig) (watching : bool)
              (byAssetType : directory) (routes : list RouteConfig).

(** Start-up. The imports come first: [config.ts] parses the
    environment and throws on a missing or invalid variable,
    [logger.ts] opens the log, [pricing.ts] runs its top-level code.
    Then [main] awaits [initSymbols], calls [createApp], which
    registers the routes of the snapshot it reads, and listens. [early]
    are the notifications that arrive while the catalog is fetched,
    [fetched] is the catalog, [None] when the fetch or its decoding
    fails. *)
Definition main (p : Platform) (e : Config.process_env) (f : file) (watch_ok : bool)
    (early : list fs_event) (fetched : option (list item)) : process :=
  match Config.envSchema e with
  | None => Exited
  | Some config =>
      if negb p.(logger_ok) then Exited
      else
        match snd (init f watch_ok) with
        | Threw => Exited
        | st =>
            match fetched, snd (run early st) with
            | Some data, Loaded current watching =>
                if p.(createApp_ok) && p.(listen_ok) then
                  Listening config current watching
                    (initSymbols current.(assetTypes) data)
                    (getAllRouteConfigs current)
                else Exited
            | _, _ => Exited
            end
        end
  end.

End Index.

(* ================================================================== *)
(** * Example data *)
(* ================================================================== *)

Module Examples.
Import Number JsObject Json Pricing Symbols.

(** Duration [{path:"1h", basePriceDollars:5}], asset type
    [crypto{multiplier:1}], channel [fixed{multiplier:2}]. *)
Definition config : PricingConfig :=
  {| durations :=
       [ {| Duration.path := "1h"; Duration.label := "1 hour";
            Duration.basePriceDollars := of_Z 5 |} ];
     assetTypes :=
       [ ("crypto", {| AssetType.label := "Crypto"; AssetType.multiplier := of_Z 1 |}) ];
     channels :=
       [ ("fixed", {| Channel.label := "Fixed rate";
                      Channel.wsChannel := "fixed_rate@200ms";
                      Channel.multiplier := of_Z 2 |}) ] |}.

(** The same document as [JSON.parse] gives it. *)
Definition document : json :=
  JObject
    [ ("durations",
       JArray [ JObject [ ("path", JString "1h"); ("label", JString "1 hour");
                          ("basePriceDollars", JNumber (of_Z 5)) ] ]);
      ("assetTypes",
       JObject [ ("crypto", JObject [ ("label", JString "Crypto");
                                      ("multiplier", JNumber (of_Z 1)) ]) ]);
      ("channels",
       JObject [ ("fixed", JObject [ ("label", JString "Fixed rate");
                                     ("wsChannel", JString "fixed_rate@200ms");
                                     ("multiplier", JNumber (of_Z 2)) ]) ]) ].

(** An update that renames the only channel. *)
Definition config_renamed : PricingConfig :=
  {| durations := config.(durations);
     assetTypes := config.(assetTypes);
     channels :=
       [ ("real_time", {| Channel.label := "Real time";
                          Channel.wsChannel := "real_time";
                          Channel.multiplier := of_Z 3 |}) ] |}.

Definition document_renamed : json :=
  JObject
    [ ("durations",
       JArray [ JObject [ ("path", JString "1h"); ("label", JString "1 hour");
                          ("basePriceDollars", JNumber (of_Z 5)) ] ]);
      ("assetTypes",
       JObject [ ("crypto", JObject [ ("label", JString "Crypto");
                                      ("multiplier", JNumber (of_Z 1)) ]) ]);
      ("channels",
       JObject [ ("real_time", JObject [ ("label", JString "Real time");
                                         ("wsChannel", JString "real_time");
                                         ("multiplier", JNumber (of_Z 3)) ]) ]) ].

(** A document without channels. *)
Definition document_invalid : json :=
  JObject [ ("durations", JArray []); ("assetTypes", JObject []) ].

Definition catalog : list item :=
  [ {| state := "stable"; asset_type := "crypto"; symbol := "Crypto.BTC/USD";
       pyth_lazer_id := 1 |};
    {| state := "coming_soon"; asset_type := "crypto"; symbol := "Crypto.ETH/USD";
       pyth_lazer_id := 2 |};
    {| state := "stable"; asset_type := "crypto"; symbol := "Crypto.FundingRate.BTC/USD";
       pyth_lazer_id := 112 |} ].

(** A host whose built-ins have none of the properties asked for. *)
Definition host : Host :=
  {| host_has := fun _ _ => false; host_truthy := fun _ _ => false |}.

Definition env : Purchase.Env :=
  {| Purchase.PYTH_PRO_ACCESS_TOKEN := "test-token";
     Purchase.PYTH_PRO_WS_URLS := ["wss://pyth-lazer-0.dourolabs.app/v1/stream"] |}.

(** The directory built from [catalog] under [config]. *)
Definition byAssetType : directory := initSymbols config.(assetTypes) catalog.

(** A purchase request with body [{ticker}]. *)
Definition request (ticker : string) : Purchase.request :=
  {| Purchase.body := Some (JObject [("ticker", JString ticker)]);
     Purchase.payerAddress := None;
     Purchase.x_payer_address := None |}.


(** A [process.env] that sets the two required variables and two
    placeholder keys, and the configuration parsed from it. *)
Definition process_env : Config.process_env :=
  {| Config.env_PORT := None;
     Config.env_PAYMENT_RECIPIENT_ADDRESS := Some "0x00000000000000000000000000000000000000aa";
     Config.env_X402_NETWORK := None;
     Config.env_CDP_API_KEY_ID := Some "your-cdp-key-id";
     Config.env_CDP_API_KEY_SECRET := Some "your-cdp-key-secret";
     Config.env_PYTH_PRO_ACCESS_TOKEN := Some "test-token";
     Config.env_PYTH_PRO_WS_URLS := None;
     Config.env_NODE_ENV := None |}.

Definition settings : Config.t :=
  {| Config.PORT := of_Z 4021;
     Config.PAYMENT_RECIPIENT_ADDRESS := "0x00000000000000000000000000000000000000aa";
     Config.X402_NETWORK := "eip155:8453";
     Config.CDP_API_KEY_ID := None;
     Config.CDP_API_KEY_SECRET := None;
     Config.PYTH_PRO_ACCESS_TOKEN := "test-token";
     Config.PYTH_PRO_WS_URLS :=
       [ "wss://pyth-lazer-0.dourolabs.app/v1/stream";
         "wss://pyth-lazer-1.dourolabs.app/v1/stream";
         "wss://pyth-lazer-2.dourolabs.app/v1/stream" ];
     Config.NODE_ENV := "development" |}.

(** A platform on which start-up meets no obstacle. *)
Definition platform : Index.Platform :=
  {| Index.logger_ok := true; Index.createApp_ok := true; Index.listen_ok := true |}.

(** The only route of [config]. *)
Definition route : RouteConfig :=
  {| routePath := "/v1/purchase/crypto/fixed/1h";
     price := "$10.00";
     Pricing.assetType := "crypto";
     Pricing.channel := "fixed";
     Pricing.duration := "1h" |}.

End Examples.

(* ================================================================== *)
(** * Vocabulary of the statements *)
(* ================================================================== *)

Import Number JsObject Json Pricing Symbols Regex Http.
Import PricingRoute.

(** The route the generator emits for one combination. *)
Definition route_of (a c : string) (dur : Duration.t) (p : Price) : RouteConfig :=
  {| Pricing.routePath := "/v1/purchase/" ++ a ++ "/" ++ c ++ "/" ++ dur.(Duration.path);
     Pricing.price := p.(formatted);
     Pricing.assetType := a;
     Pricing.channel := c;
     Pricing.duration := dur.(Duration.path) |}.

(** What the schema guarantees of a configuration. *)
Definition well_formed (cfg : PricingConfig) : Prop :=
  cfg.(durations) <> [] /\
  Forall (fun d => positive d.(Duration.basePriceDollars) = true) cfg.(durations) /\
  cfg.(assetTypes) <> [] /\
  Forall (fun kv => positive (snd kv).(AssetType.multiplier) = true) cfg.(assetTypes) /\
  cfg.(channels) <> [] /\
  Forall (fun kv => positive (snd kv).(Channel.multiplier) = true) cfg.(channels).

(** A load fails when the file cannot be read, is not JSON, or does
    not satisfy the schema. *)
Definition load_fails (f : file) : Prop :=
  match f with
  | Unreadable | Malformed => True
  | Document j => pricingSchema j = None
  end.

(** The shape of a symbol that parses: a prefix, the last dot before
    the first slash, the base, the slash, the quote. *)
Definition symbol_shape (symbol base quote : string) : Prop :=
  exists pre,
    symbol = pre ++ "." ++ base ++ "/" ++ quote /\
    indexOf "/" pre = None /\ indexOf "/" base = None /\ indexOf "." base = None /\
    base <> "" /\ quote <> "".

(** The own entry of a directory for an asset type and a ticker. *)
Definition lookup (dir : directory) (a t : string) : option TickerInfo :=
  match own dir a with Some m => own m t | None => None end.

(** The (assetType, ticker) pair an entry normalizes to, when it
    passes the three filters of the loop. *)
Definition normalize (assetTypes : obj AssetType.t) (it : item) : option (string * string) :=
  if String.eqb it.(state) "stable" then
    match mappedType_of it.(asset_type) with
    | Some mappedType =>
        if truthy (get assetTypes mappedType) then
          match parseTickerName it.(symbol) with
          | Some ticker => Some (mappedType, ticker)
          | None => None
          end
        else None
    | None => None
    end
  else None.

Definition normalizes_to (assetTypes : obj AssetType.t) (a t : string) (it : item) : bool :=
  match normalize assetTypes it with
  | Some (a', t') => String.eqb a' a && String.eqb t' t
  | None => false
  end.

Definition record_of (a : string) (it : item) : TickerInfo :=
  {| feedId := it.(pyth_lazer_id); Symbols.assetType := a |}.

(** Every ticker map of the directory has distinct keys. *)
Definition tickers_distinct (dir : directory) : Prop :=
  forall a m, own dir a = Some m -> NoDup (keys m).

(** The strings a regular expression denotes. *)
Inductive lang : re -> string -> Prop :=
  | lang_eps : lang Eps ""
  | lang_class p a : p a = true -> lang (Class p) (String a "")
  | lang_seq r1 r2 s1 s2 : lang r1 s1 -> lang r2 s2 -> lang (Seq r1 r2) (s1 ++ s2)
  | lang_alt_l r1 r2 s : lang r1 s -> lang (Alt r1 r2) s
  | lang_alt_r r1 r2 s : lang r2 s -> lang (Alt r1 r2) s
  | lang_star_nil r : lang (Star r) ""
  | lang_star_cons r s1 s2 : lang r s1 -> lang (Star r) s2 -> lang (Star r) (s1 ++ s2).

(** Every character of a string satisfies [p]. *)
Fixpoint all_chars (p : ascii -> bool) (s : string) : bool :=
  match s with
  | "" => true
  | String a s' => p a && all_chars p s'
  end.

(** The pattern of the handler: a non-empty base of upper-case letters
    and digits, a hyphen, a non-empty quote of upper-case letters. *)
Definition lexical (ticker : string) : Prop :=
  exists base quote,
    ticker = base ++ "-" ++ quote /\
    base <> "" /\ all_chars upper_or_digit base = true /\
    quote <> "" /\ all_chars upper quote = true.

(** The pattern as the specification words it: the quote may hold
    digits as well. *)
Definition spec_lexical (ticker : string) : Prop :=
  exists base quote,
    ticker = base ++ "-" ++ quote /\
    base <> "" /\ all_chars upper_or_digit base = true /\
    quote <> "" /\ all_chars upper_or_digit quote = true.



(** A key without a slash. *)
Definition slash_free (k : string) : Prop := indexOf "/" k = None.

(** A configuration as the JavaScript value the module holds. *)
Definition duration_json (d : Duration.t) : json :=
  JObject [ ("path", JString d.(Duration.path));
            ("label", JString d.(Duration.label));
            ("basePriceDollars", JNumber d.(Duration.basePriceDollars)) ].

Definition assetType_json (a : AssetType.t) : json :=
  JObject [ ("label", JString a.(AssetType.label));
            ("multiplier", JNumber a.(AssetType.multiplier)) ].

Definition channel_json (c : Channel.t) : json :=
  JObject [ ("label", JString c.(Channel.label));
            ("wsChannel", JString c.(Channel.wsChannel));
            ("multiplier", JNumber c.(Channel.multiplier)) ].

Definition config_json (cfg : PricingConfig) : json :=
  JObject
    [ ("durations", JArray (map duration_json cfg.(durations)));
      ("assetTypes",
       JObject (map (fun kv => (fst kv, assetType_json (snd kv))) cfg.(assetTypes)));
      ("channels",
       JObject (map (fun kv => (fst kv, channel_json (snd kv))) cfg.(channels))) ].

(** No key of the configuration is ["__proto__"]. *)
Definition no_proto_key (cfg : PricingConfig) : Prop :=
  ~ In "__proto__" (keys cfg.(assetTypes)) /\ ~ In "__proto__" (keys cfg.(channels)).

(** The total [initSymbols] logs: the number of tickers over all
    asset types. *)
Definition total (dir : directory) : nat :=
  fold_left (fun sum m => sum + List.length (keys m)) (map snd dir) 0.

(** The (asset type, ticker) pairs a directory holds, and the pairs
    the entries of a catalog normalize to, in catalog order. *)
Definition pairs (dir : directory) : list (string * string) :=
  flat_map (fun kv => map (pair (fst kv)) (keys (snd kv))) dir.

Definition normalized (assetTypes : obj AssetType.t) (data : list item)
  : list (string * string) :=
  flat_map (fun it => match normalize assetTypes it with
                      | Some p => [p]
                      | None => []
                      end) data.

Definition pair_eq_dec (x y : string * string) : {x = y} + {x <> y}.
Proof. decide equality; apply string_dec. Defined.

(** The purchase records among the effects of a request, and the
    record that repeats a credential for a wallet. *)
Definition audits (effs : list Purchase.effect) : list Purchase.Audit.t :=
  flat_map (fun e => match e with
                     | Purchase.LogPurchaseCompleted r => [r]
                     | _ => []
                     end) effs.

Definition audit_of (wallet : string) (c : Purchase.Credential.t) : Purchase.Audit.t :=
  {| Purchase.Audit.wallet := wallet;
     Purchase.Audit.ticker := c.(Purchase.Credential.ticker);
     Purchase.Audit.feedId := c.(Purchase.Credential.feedId);
     Purchase.Audit.assetType := c.(Purchase.Credential.assetType);
     Purchase.Audit.channel := c.(Purchase.Credential.channel);
     Purchase.Audit.duration := c.(Purchase.Credential.duration);
     Purchase.Audit.pricePaid := c.(Purchase.Credential.pricePaid) |}.

(** A string without the code unit [sep]. *)
Definition free_of (sep : ascii) (s : string) : Prop :=
  all_chars (fun a => negb (Ascii.eqb a sep)) s = true.

(** A key the facilitator can use: set, non-empty, not a placeholder. *)
Definition usable_key (v : option string) (k : string) : Prop :=
  v = Some k /\ k <> "" /\ String.prefix "your-" k = false.

(** The row that quotes a route, and a parameter that filters
    nothing: absent or empty. *)
Definition quote_of (r : RouteConfig) : PricingRoute.Row.t :=
  {| PricingRoute.Row.assetType := r.(Pricing.assetType);
     PricingRoute.Row.channel := r.(Pricing.channel);
     PricingRoute.Row.duration := r.(Pricing.duration);
     PricingRoute.Row.price := r.(Pricing.price);
     PricingRoute.Row.purchaseUrl := r.(routePath) |}.

Definition no_filter (v : option PricingRoute.qvalue) : Prop :=
  v = None \/ v = Some (PricingRoute.QString "").

(** A parameter that is absent or a string other than the names of
    [Object.prototype]. *)
Definition plain_filter (v : option PricingRoute.qvalue) : Prop :=
  forall x, v = Some (PricingRoute.QString x) -> inherited x = false.

(** What the supported-ticker map of an answer lists for a ticker
    under an asset type. *)
Definition listed (s : obj SupportedTickers.tickerMap) (a t : string) : option (option Z) :=
  match own s a with
  | Some m => own m t
  | None => None
  end.

(** The error code of an answer, and a filter value the route
    rejects: non-empty, no key of the object, no name of
    [Object.prototype]. *)
Definition error_code {A : Type} (r : response A) : option string :=
  match r with
  | Err _ e => Some e.(code)
  | Ok _ => None
  end.

Definition rejected_by {A : Type} (o : obj A) (v : option string) : Prop :=
  exists x, v = Some x /\ x <> "" /\ own o x = None /\ inherited x = false.

(** The exact value of a finite number, as a fraction. *)
Definition exact (x : number) : Q :=
  match x with
  | S754_finite s m e =>
      if (0 <=? e)%Z then inject_Z (cond_Zopp s (Zpos m) * 2 ^ e)
      else Qmake (cond_Zopp s (Zpos m)) (Z.to_pos (2 ^ (- e)))
  | _ => 0%Q
  end.





(* ================================================================== *)
(** * Properties *)
(* ================================================================== *)

(** ** Objects *)

Section ObjectFacts.
Context {A : Type}.
Implicit Types (o : obj A) (k : string) (v : A).

Lemma get_own o k v : own o k = Some v -> get o k = Own v.
Proof. unfold get. intros ->. reflexivity. Qed.

Lemma get_Own_inv o k v : get o k = Own v -> own o k = Some v.
Proof.
  unfold get. destruct (own o k); [congruence|].
  destruct (inherited k); discriminate.
Qed.

Lemma get_absent o k : own o k = None -> inherited k = false -> get o k = Undefined.
Proof. unfold get. intros -> ->. reflexivity. Qed.

Lemma truthy_get_plain o k :
  inherited k = false -> truthy (get o k) = true <-> own o k <> None.
Proof.
  unfold get. intros Hk. destruct (own o k); simpl.
  - split; [discriminate | reflexivity].
  - rewrite Hk. simpl. split; [discriminate | congruence].
Qed.

Lemma own_In o k v : own o k = Some v -> In (k, v) o.
Proof.
  induction o as [|[k' v'] o IH]; simpl; [discriminate|].
  destruct (String.eqb k k') eqn:E.
  - apply String.eqb_eq in E. intros [= ->]. subst. now left.
  - intros H. right. auto.
Qed.

Lemma In_keys_own o k : In k (keys o) -> exists v, own o k = Some v.
Proof.
  unfold keys. induction o as [|[k' v'] o IH]; simpl; [tauto|].
  intros H. destruct (String.eqb k k') eqn:E; [eauto|].
  destruct H as [H|H]; [|auto].
  subst. rewrite String.eqb_refl in E. discriminate.
Qed.

Lemma own_keys o k v : own o k = Some v -> In k (keys o).
Proof.
  intros H. apply own_In in H. unfold keys.
  change k with (fst (k, v)). now apply in_map.
Qed.

Lemma NoDup_keys_own o k v : NoDup (keys o) -> In (k, v) o -> own o k = Some v.
Proof.
  unfold keys. induction o as [|[k' v'] o IH]; simpl; [tauto|].
  intros Hnd [H|H].
  - inversion H; subst. now rewrite String.eqb_refl.
  - inversion Hnd as [|? ? Hnotin Hnd']; subst.
    destruct (String.eqb k k') eqn:E.
    + apply String.eqb_eq in E. subst. exfalso. apply Hnotin.
      change k' with (fst (k', v)). now apply in_map.
    + auto.
Qed.

Lemma own_set_same o k v : own (set o k v) k = Some v.
Proof.
  induction o as [|[k' v'] o IH]; simpl.
  - now rewrite String.eqb_refl.
  - destruct (String.eqb k k') eqn:E; simpl; rewrite E; auto.
Qed.

Lemma own_set_other o k k' v : k' <> k -> own (set o k v) k' = own o k'.
Proof.
  intros Hne. induction o as [|[k0 v0] o IH]; simpl.
  - apply String.eqb_neq in Hne. now rewrite Hne.
  - destruct (String.eqb k k0) eqn:E; simpl.
    + apply String.eqb_eq in E. subst.
      apply String.eqb_neq in Hne. now rewrite Hne.
    + destruct (String.eqb k' k0); auto.
Qed.

Lemma keys_set_present o k v v' : own o k = Some v' -> keys (set o k v) = keys o.
Proof.
  unfold keys. induction o as [|[k0 v0] o IH]; simpl; [discriminate|].
  destruct (String.eqb k k0) eqn:E; simpl; [reflexivity|].
  intros H. now rewrite IH.
Qed.

Lemma keys_set_absent o k v : own o k = None -> keys (set o k v) = (keys o ++ [k])%list.
Proof.
  unfold keys. induction o as [|[k0 v0] o IH]; simpl; [reflexivity|].
  destruct (String.eqb k k0) eqn:E; simpl; [discriminate|].
  intros H. now rewrite IH.
Qed.

Lemma own_None_not_key o k : own o k = None -> ~ In k (keys o).
Proof.
  intros H Hin. apply In_keys_own in Hin as [v Hv]. congruence.
Qed.

Lemma NoDup_keys_set o k v : NoDup (keys o) -> NoDup (keys (set o k v)).
Proof.
  intros Hnd. destruct (own o k) as [v'|] eqn:E.
  - now rewrite (keys_set_present _ _ _ _ E).
  - rewrite (keys_set_absent _ _ _ E).
    apply NoDup_app; [assumption | repeat constructor; simpl; tauto |].
    intros x Hx [<-|[]]. now apply (own_None_not_key _ _ E).
Qed.

End ObjectFacts.

Lemma inherited_In k : inherited k = true -> In k Object_prototype_names.
Proof.
  unfold inherited. intros H. apply existsb_exists in H as [x [Hin Heq]].
  apply String.eqb_eq in Heq. now subst.
Qed.

(** ** Strings and numbers *)

Lemma append_assoc (s1 s2 s3 : string) : (s1 ++ s2) ++ s3 = s1 ++ (s2 ++ s3).
Proof. induction s1; simpl; congruence. Qed.





(** ** Pricing Config Store *)

Lemma find_path_In (ds : list Duration.t) (dur : Duration.t) :
  In dur ds ->
  exists dur', find (fun d => String.eqb d.(Duration.path) dur.(Duration.path)) ds = Some dur'
               /\ dur'.(Duration.path) = dur.(Duration.path).
Proof.
  induction ds as [|d ds IH]; simpl; [tauto|].
  intros Hin. destruct (String.eqb (Duration.path d) (Duration.path dur)) eqn:E.
  - exists d. split; [reflexivity | now apply String.eqb_eq].
  - destruct Hin as [->|Hin]; [|auto].
    rewrite String.eqb_refl in E. discriminate.
Qed.

Lemma computePrice_own cfg a c d atd chd dur :
  own cfg.(assetTypes) a = Some atd ->
  own cfg.(channels) c = Some chd ->
  find (fun x => String.eqb x.(Duration.path) d) cfg.(durations) = Some dur ->
  computePrice cfg a c d =
    let dollars := mul (mul dur.(Duration.basePriceDollars) atd.(AssetType.multiplier))
                       chd.(Channel.multiplier) in
    let rounded := div (Math_round (mul dollars (of_Z 100))) (of_Z 100) in
    Some {| dollars := rounded; formatted := "$" ++ toFixed rounded 2 |}.
Proof.
  intros Ha Hc Hd. unfold computePrice.
  rewrite Hd, (get_own _ _ _ Ha), (get_own _ _ _ Hc). reflexivity.
Qed.

Lemma computePrice_keys cfg a c dur :
  In a (keys cfg.(assetTypes)) -> In c (keys cfg.(channels)) -> In dur cfg.(durations) ->
  exists p, computePrice cfg a c dur.(Duration.path) = Some p.
Proof.
  intros Ha Hc Hd.
  apply In_keys_own in Ha as [atd Ha]. apply In_keys_own in Hc as [chd Hc].
  apply find_path_In in Hd as [dur' [Hf _]].
  rewrite (computePrice_own _ _ _ _ _ _ _ Ha Hc Hf). simpl. eauto.
Qed.










(** 9.99 * 1.5 * 2.5 = 37.4625 is charged ["$37.46"]. *)
Example computePrice_rounds_to_cents :
  computePrice
    {| durations := [ {| Duration.path := "7d"; Duration.label := "7 days";
                         Duration.basePriceDollars := of_decimal 999 2 |} ];
       assetTypes := [ ("equity", {| AssetType.label := "Equity";
                                     AssetType.multiplier := of_decimal 15 1 |}) ];
       channels := [ ("real_time", {| Channel.label := "Real time";
                                      Channel.wsChannel := "real_time";
                                      Channel.multiplier := of_decimal 25 1 |}) ] |}
    "equity" "real_time" "7d"
  = Some {| dollars := of_decimal 3746 2; formatted := "$37.46" |}.
Proof. vm_compute. reflexivity. Qed.

Lemma length_flat_map_uniform {A B : Type} (f : A -> list B) (l : list A) (n : nat) :
  (forall x, In x l -> List.length (f x) = n) ->
  List.length (flat_map f l) = List.length l * n.
Proof.
  induction l as [|x l IH]; simpl; intros H; [reflexivity|].
  rewrite length_app, H, IH by auto. reflexivity.
Qed.

(** C9. [getAllRouteConfigs] returns the combinations of the Cartesian
    product of the configured asset types, channels and durations for
    which [computePrice] resolves a price, each with the formatted
    price and the path built from the triple; every combination of the
    snapshot resolves, so there is one route per combination. *)
Theorem getAllRouteConfigs_product (cfg : PricingConfig) :
  (forall r,
      In r (getAllRouteConfigs cfg) <->
      exists a c dur p,
        In a (keys cfg.(assetTypes)) /\ In c (keys cfg.(channels)) /\
        In dur cfg.(durations) /\
        computePrice cfg a c dur.(Duration.path) = Some p /\
        r = route_of a c dur p)
  /\ (forall a c dur,
         In a (keys cfg.(assetTypes)) -> In c (keys cfg.(channels)) ->
         In dur cfg.(durations) ->
         exists p, computePrice cfg a c dur.(Duration.path) = Some p
                   /\ In (route_of a c dur p) (getAllRouteConfigs cfg))
  /\ List.length (getAllRouteConfigs cfg) =
       List.length (keys cfg.(assetTypes)) * List.length (keys cfg.(channels))
       * List.length cfg.(durations).
Proof.
  assert (Hmem : forall r,
      In r (getAllRouteConfigs cfg) <->
      exists a c dur p,
        In a (keys cfg.(assetTypes)) /\ In c (keys cfg.(channels)) /\
        In dur cfg.(durations) /\
        computePrice cfg a c dur.(Duration.path) = Some p /\
        r = route_of a c dur p).
  { intros r. unfold getAllRouteConfigs. rewrite in_flat_map. split.
    - intros [a [Ha H]]. apply in_flat_map in H as [c [Hc H]].
      apply in_flat_map in H as [dur [Hd H]].
      destruct (computePrice cfg a c (Duration.path dur)) as [p|] eqn:E; [|destruct H].
      destruct H as [<-|[]]. exists a, c, dur, p. auto.
    - intros [a [c [dur [p [Ha [Hc [Hd [Hp ->]]]]]]]].
      exists a. split; [assumption|]. apply in_flat_map. exists c. split; [assumption|].
      apply in_flat_map. exists dur. split; [assumption|]. rewrite Hp. now left. }
  split; [exact Hmem|]. split.
  - intros a c dur Ha Hc Hd.
    destruct (computePrice_keys cfg a c dur Ha Hc Hd) as [p Hp].
    exists p. split; [assumption|]. apply Hmem. exists a, c, dur, p. auto.
  - unfold getAllRouteConfigs.
    rewrite (length_flat_map_uniform _ _
               (List.length (keys cfg.(channels)) * List.length cfg.(durations))).
    + now rewrite Nat.mul_assoc.
    + intros a Ha.
      rewrite (length_flat_map_uniform _ _ (List.length cfg.(durations))); [reflexivity|].
      intros c Hc.
      rewrite (length_flat_map_uniform _ _ 1); [now rewrite Nat.mul_1_r|].
      intros dur Hd.
      destruct (computePrice_keys cfg a c dur Ha Hc Hd) as [p ->]. reflexivity.
Qed.

Lemma getAllRouteConfigs_product_witness :
  exists p,
    computePrice Examples.config "crypto" "fixed" "1h" = Some p /\
    In {| Pricing.routePath := "/v1/purchase/crypto/fixed/1h";
          Pricing.price := p.(formatted);
          Pricing.assetType := "crypto";
          Pricing.channel := "fixed";
          Pricing.duration := "1h" |}
       (getAllRouteConfigs Examples.config).
Proof.
  apply (proj1 (proj2 (getAllRouteConfigs_product Examples.config)) "crypto" "fixed"
           {| Duration.path := "1h"; Duration.label := "1 hour";
              Duration.basePriceDollars := of_Z 5 |});
    simpl; auto.
Defined.

Lemma traverse_Forall {A B : Type} (f : A -> option B) (P : B -> Prop) :
  (forall a b, f a = Some b -> P b) ->
  forall l l', traverse f l = Some l' -> Forall P l'.
Proof.
  intros Hf. induction l as [|a l IH]; simpl; intros l' H.
  - injection H as <-. constructor.
  - destruct (f a) as [b|] eqn:E; [|discriminate].
    destruct (traverse f l) as [bs|]; [|discriminate].
    injection H as <-. constructor; eauto.
Qed.

Lemma z_number_positive_sound p x : z_number_positive p = Some x -> positive x = true.
Proof.
  destruct p as [[| | y | | |]| |]; simpl; try discriminate.
  destruct (positive y) eqn:E; [|discriminate]. now intros [= <-].
Qed.

Lemma Forall_filter {A : Type} (P : A -> Prop) (f : A -> bool) (l : list A) :
  Forall P l -> Forall P (filter f l).
Proof.
  induction 1; simpl; [constructor|]. destruct (f x); auto.
Qed.

Lemma z_record_nonempty_sound {A : Type} (value : json -> option A) (P : A -> Prop) p r :
  (forall j a, value j = Some a -> P a) ->
  z_record_nonempty value p = Some r ->
  r <> [] /\ Forall (fun kv => P (snd kv)) r.
Proof.
  intros Hv. unfold z_record_nonempty.
  destruct p as [[| | | | |o]| |]; try discriminate.
  destruct (traverse _ o) as [r0|] eqn:E; [|discriminate].
  destruct (filter _ r0) as [|kv r'] eqn:F; [discriminate|].
  intros [= <-]. split; [discriminate|].
  rewrite <- F. apply Forall_filter.
  revert E. apply traverse_Forall.
  intros [k j] [k' a]; simpl. destruct (value j) eqn:V; [|discriminate].
  intros [= <- <-]. eauto.
Qed.

Lemma pricingSchema_well_formed j cfg : pricingSchema j = Some cfg -> well_formed cfg.
Proof.
  unfold pricingSchema. destruct j as [| | | | |o]; try discriminate.
  destruct (z_array_min1 _ _) as [d|] eqn:D; [|discriminate].
  destruct (z_record_nonempty assetTypeSchema _) as [a|] eqn:HA; [|discriminate].
  destruct (z_record_nonempty channelSchema _) as [c|] eqn:HC; [|discriminate].
  intros [= <-]. unfold well_formed; simpl.
  apply (z_record_nonempty_sound _
           (fun a => positive a.(AssetType.multiplier) = true)) in HA.
  2:{ intros j a0. unfold assetTypeSchema. destruct j as [| | | | |o0]; try discriminate.
      destruct (z_string _); [|discriminate].
      destruct (z_number_positive _) eqn:N; [|discriminate].
      intros [= <-]. simpl. eapply z_number_positive_sound; eauto. }
  apply (z_record_nonempty_sound _
           (fun c => positive c.(Channel.multiplier) = true)) in HC.
  2:{ intros j c0. unfold channelSchema. destruct j as [| | | | |o0]; try discriminate.
      destruct (z_string _); [|discriminate].
      destruct (z_string _); [|discriminate].
      destruct (z_number_positive _) eqn:N; [|discriminate].
      intros [= <-]. simpl. eapply z_number_positive_sound; eauto. }
  destruct HA as [HA1 HA2], HC as [HC1 HC2].
  repeat split; try assumption.
  - unfold z_array_min1 in D. destruct (get o "durations") as [[| | | |l|]| |]; try discriminate.
    destruct (traverse durationSchema l) as [[|x xs]|]; try discriminate.
    injection D as <-. discriminate.
  - unfold z_array_min1 in D. destruct (get o "durations") as [[| | | |l|]| |]; try discriminate.
    destruct (traverse durationSchema l) as [[|x xs]|] eqn:T; try discriminate.
    injection D as <-. revert T. apply traverse_Forall.
    intros j d0. unfold durationSchema. destruct j as [| | | | |o0]; try discriminate.
    destruct (z_string _); [|discriminate].
    destruct (z_string _); [|discriminate].
    destruct (z_number_positive _) eqn:N; [|discriminate].
    intros [= <-]. simpl. eapply z_number_positive_sound; eauto.
Qed.

Lemma loadConfig_fails f : load_fails f <-> snd (loadConfig f) = None.
Proof.
  destruct f as [| |j]; simpl; try tauto.
  destruct (pricingSchema j); simpl; split; congruence.
Qed.

Lemma loadConfig_well_formed f cfg : snd (loadConfig f) = Some cfg -> well_formed cfg.
Proof.
  destruct f as [| |j]; simpl; try discriminate.
  destruct (pricingSchema j) eqn:E; simpl; [|discriminate].
  intros [= <-]. now apply pricingSchema_well_formed in E.
Qed.

Lemma on_watch_well_formed ev cur :
  well_formed cur -> well_formed (snd (on_watch ev cur)).
Proof.
  intros Hwf. unfold on_watch. destruct (String.eqb _ _); [|assumption].
  destruct (loadConfig (content ev)) as [logs [upd|]] eqn:E; simpl; [|assumption].
  apply (loadConfig_well_formed (content ev)). now rewrite E.
Qed.

Lemma run_Loaded evs : forall cur watching,
  well_formed cur ->
  exists cur', snd (run evs (Loaded cur watching)) = Loaded cur' watching /\ well_formed cur'.
Proof.
  induction evs as [|ev evs IH]; intros cur watching Hwf; simpl.
  - eauto.
  - destruct watching.
    + destruct (on_watch ev cur) as [l1 cur1] eqn:E. simpl.
      destruct (IH cur1 true) as [cur' [H1 H2]].
      { change cur1 with (snd (l1, cur1)). rewrite <- E. now apply on_watch_well_formed. }
      destruct (run evs (Loaded cur1 true)) as [l2 st2]. simpl in *. eauto.
    + destruct (IH cur false Hwf) as [cur' [H1 H2]].
      destruct (run evs (Loaded cur false)) as [l2 st2]. simpl in *. eauto.
Qed.

(** C5. A load that fails at startup makes the module throw, and the
    process exits without listening. A load that fails on a later file-change
    notification leaves [current] as it was; whatever notifications
    arrive after a successful start, the module still holds a
    configuration that satisfies the schema. *)
Theorem reload_keeps_snapshot :
  (forall p e f watch_ok early fetched,
      load_fails f ->
      snd (init f watch_ok) = Threw
      /\ Index.main p e f watch_ok early fetched = Index.Exited)
  /\ (forall ev current,
         load_fails ev.(content) -> snd (on_watch ev current) = current)
  /\ (forall f watch_ok current watching evs,
         snd (init f watch_ok) = Loaded current watching ->
         well_formed current /\
         exists current',
           snd (run evs (Loaded current watching)) = Loaded current' watching
           /\ well_formed current').
Proof.
  split; [|split].
  - intros p e f watch_ok early fetched Hf. apply loadConfig_fails in Hf.
    assert (Hi : snd (init f watch_ok) = Threw).
    { unfold init. destruct (loadConfig f) as [logs cur]. simpl in Hf. now subst. }
    split; [assumption|]. unfold Index.main. rewrite Hi.
    destruct (Config.envSchema e); [|reflexivity].
    now destruct (negb (Index.logger_ok p)).
  - intros ev cur Hf. apply loadConfig_fails in Hf. unfold on_watch.
    destruct (String.eqb _ _); [|reflexivity].
    destruct (loadConfig (content ev)) as [logs upd]. simpl in Hf. subst. reflexivity.
  - intros f watch_ok cur watching evs Hinit.
    assert (Hwf : well_formed cur).
    { unfold init in Hinit. destruct (loadConfig f) as [logs [c|]] eqn:E; simpl in Hinit.
      - apply (loadConfig_well_formed f). rewrite E. simpl.
        destruct watch_ok; simpl in Hinit; congruence.
      - discriminate. }
    split; [assumption|]. now apply run_Loaded.
Qed.

Lemma reload_keeps_snapshot_witness :
  (snd (init (Document Examples.document_invalid) true) = Threw
   /\ Index.main Examples.platform Examples.process_env
        (Document Examples.document_invalid) true [] (Some Examples.catalog)
      = Index.Exited)
  /\ snd (on_watch {| eventType := "change"; content := Malformed |} Examples.config)
     = Examples.config
  /\ exists current',
       snd (run [ {| eventType := "change"; content := Document Examples.document_invalid |};
                  {| eventType := "change"; content := Document Examples.document_renamed |};
                  {| eventType := "rename"; content := Unreadable |} ]
                (Loaded Examples.config true))
       = Loaded current' true /\ well_formed current'.
Proof.
  destruct reload_keeps_snapshot as [H1 [H2 H3]].
  split; [|split].
  - apply H1. reflexivity.
  - apply H2. exact I.
  - apply (H3 (Document Examples.document) true). reflexivity.
Defined.

(** ** Symbol Directory: parsing *)

Lemma indexOf_split c s i :
  indexOf c s = Some i ->
  s = take i s ++ String c (drop (i + 1) s) /\ indexOf c (take i s) = None.
Proof.
  revert i. induction s as [|a s IH]; simpl; intros i; [discriminate|].
  destruct (Ascii.eqb a c) eqn:E.
  - intros [= <-]. apply Ascii.eqb_eq in E. subst. simpl. auto.
  - destruct (indexOf c s) as [j|]; simpl; [|discriminate].
    intros [= <-]. destruct (IH j eq_refl) as [H1 H2]. simpl.
    rewrite E, H2. simpl. split; [congruence | reflexivity].
Qed.

Lemma indexOf_app c pre post :
  indexOf c pre = None ->
  indexOf c (pre ++ String c post) = Some (String.length pre)
  /\ take (String.length pre) (pre ++ String c post) = pre
  /\ drop (String.length pre + 1) (pre ++ String c post) = post.
Proof.
  induction pre as [|a pre IH]; simpl.
  - intros _. now rewrite Ascii.eqb_refl.
  - destruct (Ascii.eqb a c); [discriminate|].
    destruct (indexOf c pre); [discriminate|]. intros _.
    destruct (IH eq_refl) as [-> [-> ->]]. auto.
Qed.

Lemma lastIndexOf_split c s i :
  lastIndexOf c s = Some i ->
  s = take i s ++ String c (drop (i + 1) s) /\ indexOf c (drop (i + 1) s) = None.
Proof.
  revert i. induction s as [|a s IH]; simpl; intros i; [discriminate|].
  destruct (lastIndexOf c s) as [j|] eqn:L.
  - intros [= <-]. destruct (IH j eq_refl) as [H1 H2]. simpl.
    split; [congruence | assumption].
  - destruct (Ascii.eqb a c) eqn:E; [|discriminate].
    intros [= <-]. apply Ascii.eqb_eq in E. subst. simpl. split; [reflexivity|].
    clear IH. induction s as [|b s IHs]; simpl in *; [reflexivity|].
    destruct (lastIndexOf c s); [discriminate|].
    destruct (Ascii.eqb b c); [discriminate|]. now rewrite IHs.
Qed.

Lemma lastIndexOf_None c s : lastIndexOf c s = None <-> indexOf c s = None.
Proof.
  induction s as [|a s IH]; simpl; [tauto|].
  destruct (lastIndexOf c s), (indexOf c s), (Ascii.eqb a c); simpl;
    intuition congruence.
Qed.

Lemma lastIndexOf_app c pre post :
  indexOf c post = None ->
  lastIndexOf c (pre ++ String c post) = Some (String.length pre)
  /\ drop (String.length pre + 1) (pre ++ String c post) = post.
Proof.
  intros Hpost. apply lastIndexOf_None in Hpost.
  induction pre as [|a pre [IH1 IH2]]; simpl.
  - now rewrite Hpost, Ascii.eqb_refl.
  - now rewrite IH1, IH2.
Qed.

Lemma indexOf_append_None c s1 s2 :
  indexOf c (s1 ++ s2) = None <-> indexOf c s1 = None /\ indexOf c s2 = None.
Proof.
  induction s1 as [|a s1 IH]; simpl; [tauto|].
  destruct (Ascii.eqb a c); [intuition discriminate|].
  destruct (indexOf c (s1 ++ s2)), (indexOf c s1); simpl in *;
    intuition congruence.
Qed.

Lemma is_empty_false s : is_empty s = false <-> s <> "".
Proof. destruct s; simpl; split; congruence. Qed.

Lemma parseTickerName_spec symbol ticker :
  parseTickerName symbol = Some ticker <->
  exists base quote, symbol_shape symbol base quote /\ ticker = base ++ "-" ++ quote.
Proof.
  unfold parseTickerName, symbol_shape. split.
  - destruct (indexOf "/" symbol) as [i|] eqn:I; [|discriminate].
    destruct (lastIndexOf "." (take i symbol)) as [j|] eqn:J; [|discriminate].
    destruct (is_empty (drop (j + 1) (take i symbol))) eqn:B; [discriminate|].
    destruct (is_empty (drop (i + 1) symbol)) eqn:Q; [discriminate|].
    simpl. intros [= <-].
    apply indexOf_split in I as [I1 I2]. apply lastIndexOf_split in J as [J1 J2].
    exists (drop (j + 1) (take i symbol)), (drop (i + 1) symbol).
    split; [|reflexivity].
    exists (take j (take i symbol)).
    rewrite J1 in I2. apply indexOf_append_None in I2 as [I3 I4].
    simpl in I4. destruct (Ascii.eqb "." "/") eqn:E; [discriminate|].
    destruct (indexOf "/" (drop (j + 1) (take i symbol))) eqn:I5; [discriminate|].
    repeat split; try assumption; try (now apply is_empty_false).
    rewrite I1 at 1. rewrite J1 at 1. rewrite append_assoc. reflexivity.
  - intros [base [quote [[pre [-> [P1 [P2 [P3 [P4 P5]]]]]] ->]]].
    assert (Hpre : indexOf "/" (pre ++ String "." base) = None).
    { apply indexOf_append_None. split; [assumption|]. simpl. now rewrite P2. }
    change (pre ++ "." ++ base ++ "/" ++ quote)
      with (pre ++ (String "." base ++ String "/" quote)).
    rewrite <- append_assoc.
    destruct (indexOf_app "/" _ quote Hpre) as [-> [-> ->]].
    destruct (lastIndexOf_app "." pre base P3) as [-> ->].
    apply is_empty_false in P4, P5. now rewrite P4, P5.
Qed.

Lemma indexOf_dash base quote : indexOf "-" (base ++ "-" ++ quote) <> None.
Proof.
  induction base as [|a base IH]; simpl.
  - discriminate.
  - destruct (Ascii.eqb a "-"); [discriminate|].
    simpl in IH. destruct (indexOf "-" _); simpl; [discriminate | exact IH].
Qed.

(** A string with a hyphen is no property of [Object.prototype]. *)
Lemma dash_not_inherited base quote : inherited (base ++ "-" ++ quote) = false.
Proof.
  destruct (inherited (base ++ "-" ++ quote)) eqn:E; [|reflexivity].
  exfalso. apply inherited_In in E. pose proof (indexOf_dash base quote) as H.
  unfold Object_prototype_names, In in E.
  repeat (destruct E as [E|E]; [rewrite <- E in H; now apply H|]).
  destruct E.
Qed.

Lemma parseTickerName_plain symbol ticker :
  parseTickerName symbol = Some ticker ->
  is_empty ticker = false /\ inherited ticker = false.
Proof.
  intros H. apply parseTickerName_spec in H as [base [quote [[pre [_ [_ [_ [_ [Hb _]]]]]] ->]]].
  split; [|apply dash_not_inherited].
  destruct base; [congruence | reflexivity].
Qed.

(** The alias table never maps to a property of [Object.prototype]. *)
Lemma mappedType_plain asset_type mappedType :
  mappedType_of asset_type = Some mappedType -> inherited mappedType = false.
Proof.
  unfold mappedType_of, get.
  destruct (own ASSET_TYPE_MAP asset_type) as [v|] eqn:E.
  - apply own_In in E. simpl in E.
    repeat (destruct E as [E|E]; [injection E as <- <-; now intros [= <-]|]).
    destruct E.
  - destruct (inherited asset_type) eqn:I; [|discriminate].
    apply inherited_In in I. simpl in I.
    repeat (destruct I as [I|I]; [rewrite <- I; now intros [= <-]|]).
    destruct I.
Qed.

(** ** Symbol Directory: ingestion *)

Lemma normalize_Some assetTypes it a t :
  normalize assetTypes it = Some (a, t) <->
  it.(state) = "stable" /\
  mappedType_of it.(asset_type) = Some a /\
  In a (keys assetTypes) /\
  parseTickerName it.(symbol) = Some t.
Proof.
  unfold normalize. split.
  - destruct (String.eqb (state it) "stable") eqn:S; [|discriminate].
    destruct (mappedType_of (asset_type it)) as [mt|] eqn:M; [|discriminate].
    destruct (truthy (get assetTypes mt)) eqn:T; [|discriminate].
    destruct (parseTickerName (symbol it)) as [tk|]; [|discriminate].
    intros [= <- <-]. apply String.eqb_eq in S.
    apply truthy_get_plain in T; [|now apply mappedType_plain in M].
    repeat split; try assumption.
    destruct (own assetTypes mt) eqn:O; [|congruence]. now apply own_keys in O.
  - intros [-> [-> [Hin ->]]]. rewrite String.eqb_refl.
    apply In_keys_own in Hin as [v Hv]. now rewrite (get_own _ _ _ Hv).
Qed.

Lemma normalizes_to_true assetTypes a t it :
  normalizes_to assetTypes a t it = true <-> normalize assetTypes it = Some (a, t).
Proof.
  unfold normalizes_to. destruct (normalize assetTypes it) as [[a' t']|].
  - rewrite andb_true_iff, !String.eqb_eq. split; [intros [-> ->]; reflexivity|].
    intros [= -> ->]. auto.
  - split; discriminate.
Qed.

Lemma ingest_skip assetTypes map it :
  normalize assetTypes it = None -> ingest assetTypes map it = map.
Proof.
  unfold normalize, ingest.
  destruct (String.eqb (state it) "stable"); [|reflexivity]. simpl.
  destruct (mappedType_of (asset_type it)) as [mt|]; [|reflexivity].
  destruct (truthy (get assetTypes mt)); [|reflexivity]. simpl.
  destruct (parseTickerName (symbol it)); [discriminate | reflexivity].
Qed.

Lemma ingest_keep assetTypes map it a t :
  normalize assetTypes it = Some (a, t) ->
  ingest assetTypes map it =
    match own map a with
    | None => set (set map a []) a [(t, record_of a it)]
    | Some tickers =>
        match own tickers t with
        | Some _ => map
        | None => set map a (set tickers t (record_of a it))
        end
    end.
Proof.
  intros H. pose proof H as H'. apply normalize_Some in H' as [_ [Hm [_ Hp]]].
  apply mappedType_plain in Hm. apply parseTickerName_plain in Hp as [Hne Hpl].
  revert H. unfold normalize, ingest.
  destruct (String.eqb (state it) "stable"); [|discriminate]. simpl.
  destruct (mappedType_of (asset_type it)) as [mt|]; [|discriminate].
  destruct (truthy (get assetTypes mt)); [|discriminate]. simpl.
  destruct (parseTickerName (symbol it)) as [tk|]; [|discriminate].
  intros [= -> ->]. rewrite Hne.
  destruct (own map a) as [tickers|] eqn:O.
  - rewrite (get_own _ _ _ O). simpl. rewrite (get_own _ _ _ O).
    destruct (own tickers t) as [r|] eqn:T.
    + now rewrite (get_own _ _ _ T).
    + now rewrite (get_absent _ _ T Hpl).
  - rewrite (get_absent _ _ O Hm). simpl.
    rewrite (get_own _ _ _ (own_set_same map a [])).
    now rewrite (get_absent [] t eq_refl Hpl).
Qed.

Lemma lookup_set dir a m a' t :
  lookup (set dir a m) a' t = if String.eqb a' a then own m t else lookup dir a' t.
Proof.
  unfold lookup. destruct (String.eqb a' a) eqn:E.
  - apply String.eqb_eq in E. subst. now rewrite own_set_same.
  - apply String.eqb_neq in E. now rewrite own_set_other.
Qed.

Lemma lookup_ingest assetTypes map it a t :
  lookup (ingest assetTypes map it) a t =
    match lookup map a t with
    | Some r => Some r
    | None => if normalizes_to assetTypes a t it then Some (record_of a it) else None
    end.
Proof.
  unfold normalizes_to.
  destruct (normalize assetTypes it) as [[a' t']|] eqn:N.
  2:{ rewrite ingest_skip by assumption. now destruct (lookup map a t). }
  rewrite (ingest_keep _ _ _ _ _ N).
  destruct (String.eqb a' a) eqn:Ea; simpl.
  - apply String.eqb_eq in Ea. subst a'. unfold lookup at 2.
    destruct (own map a) as [tickers|] eqn:O.
    + destruct (String.eqb t' t) eqn:Et.
      * apply String.eqb_eq in Et. subst t'.
        destruct (own tickers t) as [r|] eqn:T.
        -- unfold lookup. now rewrite O, T.
        -- now rewrite lookup_set, String.eqb_refl, own_set_same.
      * apply String.eqb_neq in Et.
        destruct (own tickers t') as [r|] eqn:T.
        -- unfold lookup. rewrite O. now destruct (own tickers t).
        -- rewrite lookup_set, String.eqb_refl, own_set_other by congruence.
           now destruct (own tickers t).
    + rewrite lookup_set, String.eqb_refl. simpl. now rewrite (String.eqb_sym t t').
  - assert (Hl : lookup (match own map a' with
                         | Some tickers =>
                             match own tickers t' with
                             | Some _ => map
                             | None => set map a' (set tickers t' (record_of a' it))
                             end
                         | None => set (set map a' []) a' [(t', record_of a' it)]
                         end) a t = lookup map a t).
    { rewrite String.eqb_sym in Ea.
      destruct (own map a') as [tickers|]; [destruct (own tickers t')|];
        rewrite ?lookup_set, ?Ea; reflexivity. }
    rewrite Hl. now destruct (lookup map a t).
Qed.

Lemma lookup_fold assetTypes data : forall map a t,
  lookup (fold_left (ingest assetTypes) data map) a t =
    match lookup map a t with
    | Some r => Some r
    | None => option_map (record_of a) (find (normalizes_to assetTypes a t) data)
    end.
Proof.
  induction data as [|it data IH]; intros map a t; simpl.
  - now destruct (lookup map a t).
  - rewrite IH, lookup_ingest. destruct (lookup map a t); [reflexivity|].
    now destruct (normalizes_to assetTypes a t it).
Qed.

Lemma lookup_initSymbols assetTypes data a t :
  lookup (initSymbols assetTypes data) a t =
    option_map (record_of a) (find (normalizes_to assetTypes a t) data).
Proof. unfold initSymbols. now rewrite lookup_fold. Qed.

Lemma getTickerInfo_Own h dir a t info :
  getTickerInfo h dir a t = Own info <-> lookup dir a t = Some info.
Proof.
  unfold getTickerInfo, lookup, get at 1.
  destruct (own dir a) as [m|].
  - split; [apply get_Own_inv | apply get_own].
  - destruct (inherited a); [destruct (host_truthy h a t)|]; split; discriminate.
Qed.

Lemma ingest_distinct assetTypes map it :
  tickers_distinct map -> tickers_distinct (ingest assetTypes map it).
Proof.
  intros Hd. destruct (normalize assetTypes it) as [[a t]|] eqn:N.
  2:{ now rewrite ingest_skip. }
  rewrite (ingest_keep _ _ _ _ _ N).
  assert (Hset : forall m', NoDup (keys m') -> forall dir', tickers_distinct dir' ->
                            tickers_distinct (set dir' a m')).
  { intros m' Hm' dir' Hdir' a0 m0. destruct (String.eqb a0 a) eqn:E.
    - apply String.eqb_eq in E. subst. rewrite own_set_same. now intros [= <-].
    - apply String.eqb_neq in E. rewrite own_set_other by assumption. apply Hdir'. }
  destruct (own map a) as [tickers|] eqn:O.
  - destruct (own tickers t); [assumption|].
    apply Hset; [|assumption]. apply NoDup_keys_set. eapply Hd; eauto.
  - apply Hset; [repeat constructor; simpl; tauto|].
    apply Hset; [constructor | assumption].
Qed.

Lemma initSymbols_distinct assetTypes data : tickers_distinct (initSymbols assetTypes data).
Proof.
  unfold initSymbols.
  assert (H : forall map, tickers_distinct map ->
                          tickers_distinct (fold_left (ingest assetTypes) data map)).
  { induction data as [|it data IH]; simpl; intros map Hm; [assumption|].
    apply IH. now apply ingest_distinct. }
  apply H. intros a m. discriminate.
Qed.

Lemma find_first {A : Type} (f : A -> bool) (before : list A) (x : A) (rest : list A) :
  (forall y, In y before -> f y = false) -> f x = true ->
  find f (before ++ x :: rest) = Some x.
Proof.
  induction before as [|y before IH]; simpl; intros Hb Hx.
  - now rewrite Hx.
  - rewrite (Hb y) by auto. auto.
Qed.




(** C7. Within one ingestion pass, of the catalog entries that
    normalize to the same (assetType, ticker) pair the directory keeps
    the feed id of the first: a later entry for that pair does not
    overwrite it, and no entry overwrites what the directory already
    holds. *)
Theorem first_seen_wins :
  (forall h assetTypes before e1 between e2 after a t,
      normalize assetTypes e1 = Some (a, t) ->
      normalize assetTypes e2 = Some (a, t) ->
      (forall x, In x before -> normalize assetTypes x <> Some (a, t)) ->
      getTickerInfo h
        (initSymbols assetTypes (before ++ e1 :: between ++ e2 :: after)) a t
      = Own {| feedId := e1.(pyth_lazer_id); Symbols.assetType := a |})
  /\ (forall h assetTypes data more a t info,
         getTickerInfo h (initSymbols assetTypes data) a t = Own info ->
         getTickerInfo h (initSymbols assetTypes (data ++ more)) a t = Own info).
Proof.
  split.
  - intros h assetTypes before e1 between e2 after a t H1 _ Hb.
    apply getTickerInfo_Own. rewrite lookup_initSymbols, (find_first _ before e1).
    + reflexivity.
    + intros y Hy. destruct (normalizes_to assetTypes a t y) eqn:E; [|reflexivity].
      apply normalizes_to_true in E. now apply Hb in Hy.
    + now apply normalizes_to_true.
  - intros h assetTypes data more a t info H. apply getTickerInfo_Own in H.
    apply getTickerInfo_Own. unfold initSymbols in *.
    now rewrite fold_left_app, lookup_fold, H.
Qed.

Lemma first_seen_wins_witness :
  getTickerInfo Examples.host
    (initSymbols Examples.config.(assetTypes) Examples.catalog) "crypto" "BTC-USD"
  = Own {| feedId := 1; Symbols.assetType := "crypto" |}.
Proof.
  apply (proj1 first_seen_wins Examples.host Examples.config.(assetTypes) []
           {| state := "stable"; asset_type := "crypto"; symbol := "Crypto.BTC/USD";
              pyth_lazer_id := 1 |}
           [ {| state := "coming_soon"; asset_type := "crypto";
                symbol := "Crypto.ETH/USD"; pyth_lazer_id := 2 |} ]
           {| state := "stable"; asset_type := "crypto";
              symbol := "Crypto.FundingRate.BTC/USD"; pyth_lazer_id := 112 |}
           [] "crypto" "BTC-USD").
  - reflexivity.
  - reflexivity.
  - intros x [].
Defined.

(** C8. For the directory an ingestion built: a ticker that appears in
    the listing of an asset type is found by the point lookup, which
    returns the record the listing holds for it, feed id included. *)
Theorem lookup_agrees_with_listing (h : Host) (assetTypes : obj AssetType.t)
    (data : list item) (a : string) :
  (forall t,
      In t (Object_keys (getTickersForAssetType (initSymbols assetTypes data) a)) ->
      exists listing info,
        getTickersForAssetType (initSymbols assetTypes data) a = Own listing /\
        In (t, info) listing /\
        getTickerInfo h (initSymbols assetTypes data) a t = Own info)
  /\ (forall listing t info,
         getTickersForAssetType (initSymbols assetTypes data) a = Own listing ->
         In (t, info) listing ->
         getTickerInfo h (initSymbols assetTypes data) a t = Own info
         /\ (forall info', getTickerInfo h (initSymbols assetTypes data) a t = Own info' ->
                           info'.(feedId) = info.(feedId))).
Proof.
  pose proof (initSymbols_distinct assetTypes data) as Hd.
  set (dir := initSymbols assetTypes data) in *.
  assert (H2 : forall listing t info,
             getTickersForAssetType dir a = Own listing -> In (t, info) listing ->
             getTickerInfo h dir a t = Own info).
  { intros listing t info Hl Hin. unfold getTickersForAssetType, getTickerInfo in *.
    unfold get at 1 in Hl. unfold get at 1.
    destruct (own dir a) as [m|] eqn:O.
    - injection Hl as ->. apply get_own, NoDup_keys_own; [|assumption]. eapply Hd; eauto.
    - destruct (inherited a); [discriminate|]. injection Hl as <-. destruct Hin. }
  split.
  - intros t Hin.
    destruct (getTickersForAssetType dir a) as [listing| |] eqn:L; simpl in Hin; try tauto.
    unfold keys in Hin. apply in_map_iff in Hin as [[t' info] [<- Hin]].
    exists listing, info. simpl. eauto.
  - intros listing t info Hl Hin. split; [eauto|].
    intros info' H'. rewrite (H2 _ _ _ Hl Hin) in H'. now injection H' as <-.
Qed.

Lemma lookup_agrees_with_listing_witness :
  exists listing info,
    getTickersForAssetType
      (initSymbols Examples.config.(assetTypes) Examples.catalog) "crypto" = Own listing /\
    In ("BTC-USD", info) listing /\
    getTickerInfo Examples.host
      (initSymbols Examples.config.(assetTypes) Examples.catalog) "crypto" "BTC-USD"
    = Own info.
Proof.
  apply (proj1 (lookup_agrees_with_listing Examples.host Examples.config.(assetTypes)
                  Examples.catalog "crypto") "BTC-USD").
  simpl. auto.
Defined.

(** ** Regular expressions *)

Lemma append_nil_inv (s1 s2 : string) : s1 ++ s2 = "" -> s1 = "" /\ s2 = "".
Proof. destruct s1; simpl; [auto | discriminate]. Qed.

Lemma lang_seq_inv r1 r2 s :
  lang (Seq r1 r2) s -> exists s1 s2, s = s1 ++ s2 /\ lang r1 s1 /\ lang r2 s2.
Proof. inversion 1; subst; eauto. Qed.

Lemma lang_class_inv p s : lang (Class p) s -> exists a, s = String a "" /\ p a = true.
Proof. inversion 1; subst; eauto. Qed.

Lemma lang_alt_inv r1 r2 s : lang (Alt r1 r2) s -> lang r1 s \/ lang r2 s.
Proof. inversion 1; subst; auto. Qed.

Lemma nullable_lang r : nullable r = true <-> lang r "".
Proof.
  induction r as [| |p|r1 IH1 r2 IH2|r1 IH1 r2 IH2|r IH]; simpl.
  - split; [discriminate | inversion 1].
  - split; [constructor | reflexivity].
  - split; [discriminate | inversion 1].
  - rewrite andb_true_iff, IH1, IH2. split.
    + intros [H1 H2]. change "" with ("" ++ ""). now constructor.
    + intros H. apply lang_seq_inv in H as [s1 [s2 [E [H1 H2]]]].
      symmetry in E. apply append_nil_inv in E as [-> ->]. auto.
  - rewrite orb_true_iff, IH1, IH2. split.
    + intros [H|H]; [now apply lang_alt_l | now apply lang_alt_r].
    + apply lang_alt_inv.
  - split; [constructor | reflexivity].
Qed.

Lemma lang_star_cons_inv r a s :
  lang (Star r) (String a s) ->
  exists s1 s2, s = s1 ++ s2 /\ lang r (String a s1) /\ lang (Star r) s2.
Proof.
  intros H.
  assert (G : forall r' s', lang r' s' ->
              forall x y, r' = Star r -> s' = String x y ->
              exists s1 s2, y = s1 ++ s2 /\ lang r (String x s1) /\ lang (Star r) s2).
  { clear. induction 1 as [| | | | | |r0 s1 s2 H1 _ H2 IH2]; intros x y Er Es;
      try discriminate.
    injection Er as ->. destruct s1 as [|b s1]; simpl in Es.
    - now apply IH2.
    - injection Es as -> <-. eauto. }
  eapply G; eauto.
Qed.

Lemma deriv_lang a r : forall s, lang (deriv a r) s <-> lang r (String a s).
Proof.
  induction r as [| |p|r1 IH1 r2 IH2|r1 IH1 r2 IH2|r IH]; simpl; intros s.
  - split; inversion 1.
  - split; inversion 1.
  - destruct (p a) eqn:E; split; intros H.
    + inversion H; subst. now constructor.
    + apply lang_class_inv in H as [b [Hs _]]. injection Hs as _ ->. constructor.
    + inversion H.
    + apply lang_class_inv in H as [b [Hs Hb]]. injection Hs as <- _. congruence.
  - assert (Hl : lang (Seq (deriv a r1) r2) s -> lang (Seq r1 r2) (String a s)).
    { intros H. apply lang_seq_inv in H as [s1 [s2 [-> [H1 H2]]]]. apply IH1 in H1.
      change (String a (s1 ++ s2)) with (String a s1 ++ s2). now constructor. }
    assert (Hr : lang (Seq r1 r2) (String a s) ->
                 lang (Seq (deriv a r1) r2) s \/ (lang r1 "" /\ lang r2 (String a s))).
    { intros H. apply lang_seq_inv in H as [s1 [s2 [E [H1 H2]]]].
      destruct s1 as [|b s1]; simpl in E.
      - subst. auto.
      - injection E as <- ->. left. constructor; [now apply IH1 | assumption]. }
    destruct (nullable r1) eqn:N.
    + split.
      * intros H. apply lang_alt_inv in H as [H|H]; [auto|].
        change (String a s) with ("" ++ String a s).
        constructor; [now apply nullable_lang | now apply IH2].
      * intros H. apply Hr in H as [H|[_ H]];
          [now apply lang_alt_l | apply lang_alt_r; now apply IH2].
    + split; [assumption|]. intros H. apply Hr in H as [H|[H _]]; [assumption|].
      apply nullable_lang in H. congruence.
  - split; intros H; apply lang_alt_inv in H as [H|H];
      solve [apply lang_alt_l; now apply IH1 | apply lang_alt_r; now apply IH2].
  - split.
    + intros H. apply lang_seq_inv in H as [s1 [s2 [-> [H1 H2]]]]. apply IH in H1.
      change (String a (s1 ++ s2)) with (String a s1 ++ s2). now constructor.
    + intros H. apply lang_star_cons_inv in H as [s1 [s2 [-> [H1 H2]]]].
      constructor; [now apply IH | assumption].
Qed.

Lemma test_lang r s : test r s = true <-> lang r s.
Proof.
  revert r. induction s as [|a s IH]; simpl; intros r.
  - apply nullable_lang.
  - rewrite IH. apply deriv_lang.
Qed.

Lemma lang_star_class p s : lang (Star (Class p)) s <-> all_chars p s = true.
Proof.
  induction s as [|a s IH]; simpl.
  - split; [reflexivity | constructor].
  - rewrite andb_true_iff, <- IH. split.
    + intros H. apply lang_star_cons_inv in H as [s1 [s2 [-> [H1 H2]]]].
      apply lang_class_inv in H1 as [b [Hs Hb]]. injection Hs as E1 E2. subst.
      simpl. auto.
    + intros [Ha Hs]. change (String a s) with (String a "" ++ s).
      constructor; [now constructor | assumption].
Qed.

Lemma lang_plus_class p s :
  lang (Plus (Class p)) s <-> s <> "" /\ all_chars p s = true.
Proof.
  unfold Plus. split.
  - intros H. apply lang_seq_inv in H as [s1 [s2 [-> [H1 H2]]]].
    apply lang_class_inv in H1 as [a [-> Ha]]. apply lang_star_class in H2. simpl.
    split; [discriminate | now rewrite H2, Ha].
  - intros [Hne Hall]. destruct s as [|a s]; [congruence|]. simpl in Hall.
    apply andb_true_iff in Hall as [Ha Hs].
    change (String a s) with (String a "" ++ s).
    constructor; [now constructor | now apply lang_star_class].
Qed.

Lemma ticker_re_lexical t : test Purchase.ticker_re t = true <-> lexical t.
Proof.
  rewrite test_lang. unfold Purchase.ticker_re, lexical. split.
  - intros H. apply lang_seq_inv in H as [base [rest [-> [Hb Hr]]]].
    apply lang_seq_inv in Hr as [dash [quote [-> [Hd Hq]]]].
    apply lang_class_inv in Hd as [c [-> Hc]].
    apply Ascii.eqb_eq in Hc. subst c.
    apply lang_plus_class in Hb as [Hb1 Hb2]. apply lang_plus_class in Hq as [Hq1 Hq2].
    exists base, quote. auto.
  - intros [base [quote [-> [Hb1 [Hb2 [Hq1 Hq2]]]]]].
    constructor; [now apply lang_plus_class|].
    change ("-" ++ quote) with (String "-" "" ++ quote).
    constructor; [constructor; reflexivity | now apply lang_plus_class].
Qed.

(** ** Purchase Flow Controller *)

Lemma purchaseBody_accepts body t :
  Purchase.purchaseBody body = inl t <->
  exists o, body = Some (JObject o) /\ own o "ticker" = Some (JString t) /\ lexical t.
Proof.
  unfold Purchase.purchaseBody. split.
  - destruct body as [[| | | | |o]|]; try discriminate.
    destruct (get o "ticker") as [j| |] eqn:G; try discriminate.
    destruct j; try discriminate.
    destruct (test Purchase.ticker_re s) eqn:T; [|discriminate].
    intros [= <-]. exists o. apply get_Own_inv in G. apply ticker_re_lexical in T. auto.
  - intros [o [-> [Ho Hl]]]. rewrite (get_own _ _ _ Ho).
    apply ticker_re_lexical in Hl. now rewrite Hl.
Qed.

(** C4, as amended. The ticker of a purchase body is accepted exactly
    when the body is an object whose [ticker] is a string made of a
    non-empty base of upper-case letters and digits, a hyphen, and a
    non-empty quote of upper-case letters only; any other body (no
    ticker, a ticker that is not a string, a quote with a digit) is
    answered 400 [VALIDATION_ERROR] with no call into the symbol
    directory, and an accepted ticker is looked up next. *)
Theorem ticker_validation :
  (forall body t,
      Purchase.purchaseBody body = inl t <->
      exists o, body = Some (JObject o) /\ own o "ticker" = Some (JString t) /\ lexical t)
  /\ (forall h env cfg dir a c d req,
         (forall t, Purchase.purchaseBody req.(Purchase.body) <> inl t) ->
         exists msg,
           Purchase.purchaseHandler h env cfg dir a c d req =
             ([], Err 400 {| code := "VALIDATION_ERROR"; message := msg; hint := None |}))
  /\ (forall h env cfg dir a c d req t,
         Purchase.purchaseBody req.(Purchase.body) = inl t ->
         exists rest,
           fst (Purchase.purchaseHandler h env cfg dir a c d req) =
             Purchase.CallGetTickerInfo a t :: rest).
Proof.
  split; [exact purchaseBody_accepts|]. split.
  - intros h env cfg dir a c d req Hrej. unfold Purchase.purchaseHandler.
    destruct (Purchase.purchaseBody (Purchase.body req)) as [t|issues].
    + now destruct (Hrej t).
    + unfold validation_error. eauto.
  - intros h env cfg dir a c d req t Ht. unfold Purchase.purchaseHandler. rewrite Ht.
    destruct (negb (truthy (getTickerInfo h dir a t))); simpl; eauto.
Qed.

Lemma ticker_validation_witness :
  (exists msg,
      Purchase.purchaseHandler Examples.host Examples.env Examples.config
        Examples.byAssetType "crypto" "fixed" "1h" (Examples.request "btc-usd") =
        ([], Err 400 {| code := "VALIDATION_ERROR"; message := msg; hint := None |}))
  /\ (exists rest,
        fst (Purchase.purchaseHandler Examples.host Examples.env Examples.config
               Examples.byAssetType "crypto" "fixed" "1h" (Examples.request "BTC-USD")) =
          Purchase.CallGetTickerInfo "crypto" "BTC-USD" :: rest).
Proof.
  destruct ticker_validation as [_ [H2 H3]]. split.
  - apply H2. intros t. simpl. discriminate.
  - apply H3. reflexivity.
Defined.

(** ["BTC-USD1"] has an upper-case alphanumeric base and quote, and
    is rejected: the quote holds a digit. *)
Lemma ticker_validation_counterexample :
  spec_lexical "BTC-USD1" /\
  Purchase.purchaseHandler Examples.host Examples.env Examples.config
    Examples.byAssetType "crypto" "fixed" "1h" (Examples.request "BTC-USD1") =
    ([], Err 400 {| code := "VALIDATION_ERROR"; message := "ticker: Invalid";
                    hint := None |}).
Proof.
  split; [|reflexivity].
  exists "BTC", "USD1". repeat split; discriminate.
Qed.

Lemma purchaseHandler_validated h env cfg dir a c d req t :
  Purchase.purchaseBody req.(Purchase.body) = inl t ->
  truthy (getTickerInfo h dir a t) = true ->
  Purchase.purchaseHandler h env cfg dir a c d req =
    ([ Purchase.CallGetTickerInfo a t;
       Purchase.LogPurchaseCompleted
         {| Purchase.Audit.wallet := Purchase.payerWallet_of req;
            Purchase.Audit.ticker := t;
            Purchase.Audit.feedId := Purchase.feedId_of (getTickerInfo h dir a t);
            Purchase.Audit.assetType := a;
            Purchase.Audit.channel := c;
            Purchase.Audit.duration := d;
            Purchase.Audit.pricePaid := option_map formatted (computePrice cfg a c d) |} ],
     Ok {| Purchase.Credential.ticker := t;
           Purchase.Credential.feedId := Purchase.feedId_of (getTickerInfo h dir a t);
           Purchase.Credential.assetType := a;
           Purchase.Credential.channel := c;
           Purchase.Credential.duration := d;
           Purchase.Credential.pricePaid := option_map formatted (computePrice cfg a c d);
           Purchase.Credential.pythPro :=
             {| Purchase.accessToken := env.(Purchase.PYTH_PRO_ACCESS_TOKEN);
                Purchase.websocketUrls := env.(Purchase.PYTH_PRO_WS_URLS);
                Purchase.authMethod := "Pass as Authorization: Bearer {accessToken} header when connecting to WebSocket";
                Purchase.subscribe :=
                  {| Purchase.type := "subscribe";
                     Purchase.subscriptionId := 1;
                     Purchase.priceFeedIds := [Purchase.feedId_of (getTickerInfo h dir a t)];
                     Purchase.properties := ["price"; "bestBidPrice"; "bestAskPrice";
                                             "exponent"; "confidence"];
                     Purchase.formats := ["evm"; "solana"];
                     Purchase.channel := Purchase.wsChannel_of (get cfg.(channels) c);
                     Purchase.deliveryFormat := "json";
                     Purchase.jsonBinaryEncoding := "hex" |} |} |}).
Proof.
  intros Hb Ht. unfold Purchase.purchaseHandler. rewrite Hb, Ht. reflexivity.
Qed.

(** C1, as amended. On a route whose triple has no resolvable price in
    the current snapshot the handler raises no error of its own: a
    malformed body is answered 400 [VALIDATION_ERROR], an unknown
    ticker 400 [INVALID_TICKER], and a ticker found under the route's
    asset type is answered 200 with a credential descriptor whose
    [pricePaid] is absent, the audit record having no price either.
    The answer is never a 500. *)
Theorem unpriced_route_is_fulfilled h env cfg dir a c d req :
  computePrice cfg a c d = None ->
  match Purchase.purchaseBody req.(Purchase.body) with
  | inr issues =>
      Purchase.purchaseHandler h env cfg dir a c d req = ([], validation_error issues)
  | inl t =>
      if truthy (getTickerInfo h dir a t) then
        exists audit cred,
          Purchase.purchaseHandler h env cfg dir a c d req =
            ([Purchase.CallGetTickerInfo a t; Purchase.LogPurchaseCompleted audit], Ok cred)
          /\ audit.(Purchase.Audit.pricePaid) = None
          /\ cred.(Purchase.Credential.pricePaid) = None
          /\ cred.(Purchase.Credential.ticker) = t
      else
        exists msg,
          snd (Purchase.purchaseHandler h env cfg dir a c d req) =
            Err 400 {| code := "INVALID_TICKER"; message := msg; hint := None |}
  end
  /\ status (snd (Purchase.purchaseHandler h env cfg dir a c d req)) <> 500%Z.
Proof.
  intros Hp. split.
  - destruct (Purchase.purchaseBody (Purchase.body req)) as [t|issues] eqn:B.
    + destruct (truthy (getTickerInfo h dir a t)) eqn:T.
      * rewrite (purchaseHandler_validated _ _ _ _ _ _ _ _ _ B T), Hp.
        do 2 eexists. split; [reflexivity|]. simpl. auto.
      * unfold Purchase.purchaseHandler. rewrite B, T. simpl. eauto.
    + unfold Purchase.purchaseHandler. now rewrite B.
  - unfold Purchase.purchaseHandler.
    destruct (Purchase.purchaseBody (Purchase.body req)) as [t|issues]; [|discriminate].
    destruct (negb (truthy (getTickerInfo h dir a t))); discriminate.
Qed.

Lemma unpriced_route_is_fulfilled_witness :
  status (snd (Purchase.purchaseHandler Examples.host Examples.env
                 Examples.config_renamed Examples.byAssetType "crypto" "fixed" "1h"
                 (Examples.request "BTC-USD"))) <> 500%Z.
Proof.
  apply (unpriced_route_is_fulfilled Examples.host Examples.env Examples.config_renamed
           Examples.byAssetType "crypto" "fixed" "1h" (Examples.request "BTC-USD")).
  reflexivity.
Defined.

(** The route [POST /v1/purchase/crypto/fixed/1h] is registered from
    the startup configuration; a valid update then renames the channel;
    the route has no price any more, and a purchase on it is answered
    200, not 500. *)
Lemma unpriced_route_counterexample :
  In "/v1/purchase/crypto/fixed/1h"
     (map routePath (getAllRouteConfigs Examples.config))
  /\ snd (run [ {| eventType := "change";
                   content := Document Examples.document_renamed |} ]
              (Loaded Examples.config true))
     = Loaded Examples.config_renamed true
  /\ computePrice Examples.config_renamed "crypto" "fixed" "1h" = None
  /\ (exists cred,
        snd (Purchase.purchaseHandler Examples.host Examples.env
               Examples.config_renamed Examples.byAssetType "crypto" "fixed" "1h"
               (Examples.request "BTC-USD")) = Ok cred
        /\ cred.(Purchase.Credential.feedId) = Some 1%Z
        /\ cred.(Purchase.Credential.pricePaid) = None)
  /\ status (snd (Purchase.purchaseHandler Examples.host Examples.env
                    Examples.config_renamed Examples.byAssetType "crypto" "fixed" "1h"
                    (Examples.request "BTC-USD"))) = 200%Z.
Proof.
  split; [simpl; auto|]. split; [reflexivity|]. split; [reflexivity|].
  split; [eexists; repeat split; reflexivity | reflexivity].
Qed.

(** C10. When the route's channel key is not in the current snapshot,
    a request whose ticker is valid for the route is still answered
    200 with a credential descriptor, and the [channel] of its
    subscribe message is the literal ["fixed_rate@200ms"]. *)
Theorem channel_fallback h env cfg dir a c d req t :
  Purchase.purchaseBody req.(Purchase.body) = inl t ->
  truthy (getTickerInfo h dir a t) = true ->
  own cfg.(channels) c = None ->
  exists cred,
    snd (Purchase.purchaseHandler h env cfg dir a c d req) = Ok cred
    /\ status (snd (Purchase.purchaseHandler h env cfg dir a c d req)) = 200%Z
    /\ cred.(Purchase.Credential.pythPro).(Purchase.subscribe).(Purchase.channel)
       = "fixed_rate@200ms".
Proof.
  intros Hb Ht Hc. rewrite (purchaseHandler_validated _ _ _ _ _ _ _ _ _ Hb Ht).
  eexists. split; [reflexivity|]. split; [reflexivity|]. simpl.
  unfold get. rewrite Hc. now destruct (inherited c).
Qed.

Lemma channel_fallback_witness :
  exists cred,
    snd (Purchase.purchaseHandler Examples.host Examples.env Examples.config_renamed
           Examples.byAssetType "crypto" "fixed" "1h" (Examples.request "BTC-USD")) = Ok cred
    /\ status (snd (Purchase.purchaseHandler Examples.host Examples.env
                      Examples.config_renamed Examples.byAssetType "crypto" "fixed" "1h"
                      (Examples.request "BTC-USD"))) = 200%Z
    /\ cred.(Purchase.Credential.pythPro).(Purchase.subscribe).(Purchase.channel)
       = "fixed_rate@200ms".
Proof.
  apply (channel_fallback Examples.host Examples.env Examples.config_renamed
           Examples.byAssetType "crypto" "fixed" "1h" (Examples.request "BTC-USD") "BTC-USD");
    reflexivity.
Defined.

(** ** GET /v1/pricing *)






(* ================================================================== *)
(** * Further properties *)
(* ================================================================== *)

(** ** pricing.ts *)

Lemma truthy_get_false {A : Type} (o : obj A) (k : string) :
  truthy (get o k) = false <-> own o k = None /\ inherited k = false.
Proof.
  unfold get. destruct (own o k); simpl.
  - split; [discriminate | intros [H _]; discriminate].
  - destruct (inherited k); simpl; split; try tauto; try discriminate.
Qed.

Lemma find_path_None (ds : list Duration.t) (d : string) :
  find (fun x => String.eqb x.(Duration.path) d) ds = None <->
  forall dur, In dur ds -> dur.(Duration.path) <> d.
Proof.
  induction ds as [|x ds IH]; simpl.
  - split; [intros _ dur [] | reflexivity].
  - destruct (String.eqb (Duration.path x) d) eqn:E.
    + apply String.eqb_eq in E. split; [discriminate|].
      intros H. now destruct (H x (or_introl eq_refl)).
    + apply String.eqb_neq in E. rewrite IH. split.
      * intros H dur [<-|Hin]; auto.
      * intros H dur Hin. apply H. now right.
Qed.

(** X1. [computePrice] returns [undefined] exactly when one of its
    three lookups fails: for an asset type and a channel name that
    [Object.prototype] does not define, when the asset type or the
    channel is no key of the snapshot or no duration has the path. *)
Theorem computePrice_absent_iff cfg a c d :
  inherited a = false -> inherited c = false ->
  (computePrice cfg a c d = None <->
   own cfg.(assetTypes) a = None \/
   own cfg.(channels) c = None \/
   (forall dur, In dur cfg.(durations) -> dur.(Duration.path) <> d)).
Proof.
  intros Ha Hc. rewrite <- find_path_None. unfold computePrice.
  destruct (find _ _) as [dur|].
  - destruct (truthy (get (assetTypes cfg) a)) eqn:Ta;
      destruct (truthy (get (channels cfg) c)) eqn:Tc; simpl.
    + apply truthy_get_plain in Ta, Tc; try assumption.
      split; [discriminate|]. intros [H|[H|H]]; congruence.
    + apply truthy_get_false in Tc as [Tc _]. tauto.
    + apply truthy_get_false in Ta as [Ta _]. tauto.
    + apply truthy_get_false in Ta as [Ta _]. tauto.
  - tauto.
Qed.

Lemma computePrice_absent_iff_witness :
  computePrice Examples.config "crypto" "real_time" "1h" = None <->
  own Examples.config.(assetTypes) "crypto" = None \/
  own Examples.config.(channels) "real_time" = None \/
  (forall dur, In dur Examples.config.(durations) -> dur.(Duration.path) <> "1h").
Proof.
  apply (computePrice_absent_iff Examples.config "crypto" "real_time" "1h"); reflexivity.
Defined.

Lemma mul_NaN_r x : mul x NaN = NaN.
Proof. now destruct x. Qed.

(** X2. An asset type or channel name that the snapshot does not hold
    but [Object.prototype] defines (["constructor"], ["toString"], ...)
    passes the truthiness test of [computePrice]: with the other key
    present and the duration found, the price is NaN, formatted
    ["$NaN"]. *)
Theorem computePrice_inherited_name cfg a c d dur :
  find (fun x => String.eqb x.(Duration.path) d) cfg.(durations) = Some dur ->
  (own cfg.(assetTypes) a = None /\ inherited a = true /\
   truthy (get cfg.(channels) c) = true)
  \/ (own cfg.(channels) c = None /\ inherited c = true /\
      truthy (get cfg.(assetTypes) a) = true) ->
  computePrice cfg a c d = Some {| dollars := NaN; formatted := "$NaN" |}.
Proof.
  intros Hd H.
  assert (Ht : truthy (get cfg.(assetTypes) a) = true /\
               truthy (get cfg.(channels) c) = true).
  { destruct H as [[Ho [Hi Ht]]|[Ho [Hi Ht]]]; (split; [|try assumption]);
      try assumption; unfold get; rewrite Ho, Hi; reflexivity. }
  assert (Hm : mul (mul dur.(Duration.basePriceDollars)
                        (assetType_multiplier (get cfg.(assetTypes) a)))
                   (channel_multiplier (get cfg.(channels) c)) = NaN).
  { destruct H as [[Ho [Hi _]]|[Ho [Hi _]]].
    - unfold get at 1. rewrite Ho, Hi. simpl assetType_multiplier.
      rewrite mul_NaN_r. reflexivity.
    - unfold get at 2. rewrite Ho, Hi. simpl channel_multiplier.
      apply mul_NaN_r. }
  destruct Ht as [Ta Tc]. unfold computePrice. rewrite Hd, Ta, Tc. cbv zeta.
  rewrite Hm. reflexivity.
Qed.

Lemma computePrice_inherited_name_witness :
  computePrice Examples.config "toString" "fixed" "1h"
  = Some {| dollars := NaN; formatted := "$NaN" |}.
Proof.
  apply (computePrice_inherited_name Examples.config "toString" "fixed" "1h"
           {| Duration.path := "1h"; Duration.label := "1 hour";
              Duration.basePriceDollars := of_Z 5 |}).
  - reflexivity.
  - left. repeat split; reflexivity.
Defined.

Lemma slash_split_inj (a b a' b' : string) :
  slash_free a -> slash_free a' ->
  a ++ String "/" b = a' ++ String "/" b' -> a = a' /\ b = b'.
Proof.
  intros Ha Ha' E.
  destruct (indexOf_app "/" a b Ha) as [_ [Ht Hd]].
  destruct (indexOf_app "/" a' b' Ha') as [Hi' [Ht' Hd']].
  destruct (indexOf_app "/" a b Ha) as [Hi _].
  rewrite E in Hi, Ht, Hd. rewrite Hi' in Hi. injection Hi as Hlen.
  rewrite <- Hlen in Ht, Hd. split; congruence.
Qed.

Lemma append_inj_l (p s s' : string) : p ++ s = p ++ s' -> s = s'.
Proof. induction p; simpl; [auto | intros [= H]; auto]. Qed.

Lemma routePath_of_inj a c d a' c' d' :
  slash_free a -> slash_free c -> slash_free a' -> slash_free c' ->
  routePath_of a c d = routePath_of a' c' d' -> a = a' /\ c = c' /\ d = d'.
Proof.
  intros Ha Hc Ha' Hc' E. unfold routePath_of in E.
  apply append_inj_l in E.
  apply (slash_split_inj a _ a' _ Ha Ha') in E as [-> E].
  apply (slash_split_inj c _ c' _ Hc Hc') in E as [-> ->]. auto.
Qed.

Lemma NoDup_flat_map {A B : Type} (f : A -> list B) (l : list A) :
  NoDup l ->
  (forall x, In x l -> NoDup (f x)) ->
  (forall x y z, In x l -> In y l -> In z (f x) -> In z (f y) -> x = y) ->
  NoDup (flat_map f l).
Proof.
  induction 1 as [|x l Hx Hnd IH]; simpl; intros Hf Hdis; [constructor|].
  apply NoDup_app.
  - apply Hf. now left.
  - apply IH; [intros; apply Hf; now right|].
    intros a b z Ha Hb. apply Hdis; now right.
  - intros z Hz Hz'. apply in_flat_map in Hz' as [y [Hy Hzy]].
    assert (x = y).
    { apply (Hdis x y z); simpl; auto. }
    subst. contradiction.
Qed.

Lemma map_routePath_routes cfg :
  map routePath (getAllRouteConfigs cfg) =
  flat_map (fun a =>
    flat_map (fun c =>
      map (fun dur => routePath_of a c dur.(Duration.path)) cfg.(durations))
      (keys cfg.(channels)))
    (keys cfg.(assetTypes)).
Proof.
  unfold getAllRouteConfigs.
  assert (Hin : forall a c, In a (keys cfg.(assetTypes)) -> In c (keys cfg.(channels)) ->
            forall ds, (forall dur, In dur ds -> In dur cfg.(durations)) ->
            map routePath
              (flat_map (fun dur =>
                 match computePrice cfg a c dur.(Duration.path) with
                 | Some price =>
                     [ {| routePath := routePath_of a c dur.(Duration.path);
                          Pricing.price := price.(formatted);
                          Pricing.assetType := a;
                          Pricing.channel := c;
                          Pricing.duration := dur.(Duration.path) |} ]
                 | None => []
                 end) ds)
            = map (fun dur => routePath_of a c dur.(Duration.path)) ds).
  { intros a c Ha Hc. induction ds as [|dur ds IH]; simpl; intros Hsub; [reflexivity|].
    destruct (computePrice_keys cfg a c dur Ha Hc (Hsub dur (or_introl eq_refl)))
      as [p ->].
    simpl. rewrite IH; [reflexivity | intros; apply Hsub; now right]. }
  assert (Hch : forall a, In a (keys cfg.(assetTypes)) ->
            forall cs, (forall c, In c cs -> In c (keys cfg.(channels))) ->
            map routePath
              (flat_map (fun c =>
                 flat_map (fun dur =>
                   match computePrice cfg a c dur.(Duration.path) with
                   | Some price =>
                       [ {| routePath := routePath_of a c dur.(Duration.path);
                            Pricing.price := price.(formatted);
                            Pricing.assetType := a;
                            Pricing.channel := c;
                            Pricing.duration := dur.(Duration.path) |} ]
                   | None => []
                   end) cfg.(durations)) cs)
            = flat_map (fun c =>
                map (fun dur => routePath_of a c dur.(Duration.path)) cfg.(durations)) cs).
  { intros a Ha. induction cs as [|c cs IH]; simpl; intros Hsub; [reflexivity|].
    rewrite map_app, Hin, IH; auto; intros; apply Hsub; now right. }
  assert (Hat : forall xs, (forall a, In a xs -> In a (keys cfg.(assetTypes))) ->
            map routePath
              (flat_map (fun a =>
                 flat_map (fun c =>
                   flat_map (fun dur =>
                     match computePrice cfg a c dur.(Duration.path) with
                     | Some price =>
                         [ {| routePath := routePath_of a c dur.(Duration.path);
                              Pricing.price := price.(formatted);
                              Pricing.assetType := a;
                              Pricing.channel := c;
                              Pricing.duration := dur.(Duration.path) |} ]
                     | None => []
                     end) cfg.(durations)) (keys cfg.(channels))) xs)
            = flat_map (fun a =>
                flat_map (fun c =>
                  map (fun dur => routePath_of a c dur.(Duration.path)) cfg.(durations))
                  (keys cfg.(channels))) xs).
  { induction xs as [|a xs IH]; simpl; intros Hsub; [reflexivity|].
    rewrite map_app, Hch, IH; auto; intros; apply Hsub; now right. }
  apply Hat. auto.
Qed.

(** X3. When no asset type key and no channel key holds a slash and
    the duration paths are pairwise distinct, the purchase paths that
    [getAllRouteConfigs] generates are pairwise distinct: no two
    combinations share an endpoint. *)
Theorem route_paths_distinct cfg :
  NoDup (keys cfg.(assetTypes)) -> NoDup (keys cfg.(channels)) ->
  NoDup (map Duration.path cfg.(durations)) ->
  (forall k, In k (keys cfg.(assetTypes)) -> slash_free k) ->
  (forall k, In k (keys cfg.(channels)) -> slash_free k) ->
  NoDup (map routePath (getAllRouteConfigs cfg)).
Proof.
  intros Na Nc Nd Sa Sc. rewrite map_routePath_routes.
  apply NoDup_flat_map; [assumption| |].
  - intros a Ha. apply NoDup_flat_map; [assumption| |].
    + intros c Hc.
      assert (G : forall ds, NoDup (map Duration.path ds) ->
                  NoDup (map (fun dur => routePath_of a c dur.(Duration.path)) ds)).
      { induction ds as [|dur ds IH]; simpl; intros H; [constructor|].
        inversion H as [|? ? Hx Hn]; subst. constructor; [|auto].
        intros Hin. apply in_map_iff in Hin as [dur' [E Hin]].
        apply routePath_of_inj in E as [_ [_ E]]; auto.
        apply Hx. rewrite <- E. now apply in_map. }
      now apply G.
    + intros c c' z Hc Hc' Hz Hz'.
      apply in_map_iff in Hz as [dur [<- _]]. apply in_map_iff in Hz' as [dur' [E _]].
      apply routePath_of_inj in E; auto. intuition congruence.
  - intros a a' z Ha Ha' Hz Hz'.
    apply in_flat_map in Hz as [c [Hc Hz]]. apply in_flat_map in Hz' as [c' [Hc' Hz']].
    apply in_map_iff in Hz as [dur [<- _]]. apply in_map_iff in Hz' as [dur' [E _]].
    apply routePath_of_inj in E; auto. intuition congruence.
Qed.

Lemma route_paths_distinct_witness :
  NoDup (map routePath (getAllRouteConfigs Examples.config)).
Proof.
  apply route_paths_distinct; simpl.
  - repeat constructor; simpl; tauto.
  - repeat constructor; simpl; tauto.
  - repeat constructor; simpl; tauto.
  - intros k [<-|[]]. reflexivity.
  - intros k [<-|[]]. reflexivity.
Defined.

(** The same endpoint for two combinations, once a key holds a slash. *)
Example route_paths_collide :
  routePath_of "fx/spot" "fixed" "1h" = routePath_of "fx" "spot/fixed" "1h".
Proof. reflexivity. Qed.

Lemma traverse_map_id {A B : Type} (f : B -> option A) (g : A -> B) (l : list A) :
  (forall a, In a l -> f (g a) = Some a) -> traverse f (map g l) = Some l.
Proof.
  induction l as [|a l IH]; simpl; intros H; [reflexivity|].
  rewrite H by auto. rewrite IH by auto. reflexivity.
Qed.

Lemma filter_no_proto {A : Type} (o : obj A) :
  ~ In "__proto__" (keys o) ->
  filter (fun kv => negb (String.eqb (fst kv) "__proto__")) o = o.
Proof.
  unfold keys. induction o as [|[k v] o IH]; simpl; intros H; [reflexivity|].
  destruct (String.eqb k "__proto__") eqn:E.
  - apply String.eqb_eq in E. subst. exfalso. apply H. now left.
  - simpl. rewrite IH; [reflexivity|]. intros Hin. apply H. now right.
Qed.

Lemma filter_proto_keys {A : Type} (o : obj A) :
  ~ In "__proto__" (keys (filter (fun kv => negb (String.eqb (fst kv) "__proto__")) o)).
Proof.
  unfold keys. intros H. apply in_map_iff in H as [[k v] [E H]].
  apply filter_In in H as [_ H]. simpl in *. subst. discriminate.
Qed.

Lemma z_record_nonempty_no_proto {A : Type} (value : json -> option A) p r :
  z_record_nonempty value p = Some r -> ~ In "__proto__" (keys r).
Proof.
  unfold z_record_nonempty. destruct p as [[| | | | |o]| |]; try discriminate.
  destruct (traverse _ o) as [r0|]; [|discriminate].
  destruct (filter _ r0) as [|kv r'] eqn:F; [discriminate|].
  intros [= <-]. rewrite <- F. apply filter_proto_keys.
Qed.

Lemma pricingSchema_no_proto j cfg : pricingSchema j = Some cfg -> no_proto_key cfg.
Proof.
  unfold pricingSchema. destruct j as [| | | | |o]; try discriminate.
  destruct (z_array_min1 _ _) as [d|]; [|discriminate].
  destruct (z_record_nonempty assetTypeSchema _) as [a|] eqn:HA; [|discriminate].
  destruct (z_record_nonempty channelSchema _) as [c|] eqn:HC; [|discriminate].
  intros [= <-]. split; simpl; eapply z_record_nonempty_no_proto; eauto.
Qed.

Lemma pricingSchema_sections o d a c :
  z_array_min1 durationSchema (get o "durations") = Some d ->
  z_record_nonempty assetTypeSchema (get o "assetTypes") = Some a ->
  z_record_nonempty channelSchema (get o "channels") = Some c ->
  pricingSchema (JObject o) = Some {| durations := d; assetTypes := a; channels := c |}.
Proof. unfold pricingSchema. now intros -> -> ->. Qed.

Lemma pricingSchema_config_json cfg :
  well_formed cfg -> no_proto_key cfg -> pricingSchema (config_json cfg) = Some cfg.
Proof.
  intros [Hd [Hdp [Ha [Hap [Hc Hcp]]]]] [Pa Pc].
  destruct cfg as [ds ats chs]. simpl in *.
  assert (Ed : z_array_min1 durationSchema
                 (get [("durations", JArray (map duration_json ds));
                       ("assetTypes",
                        JObject (map (fun kv => (fst kv, assetType_json (snd kv))) ats));
                       ("channels",
                        JObject (map (fun kv => (fst kv, channel_json (snd kv))) chs))]
                      "durations") = Some ds).
  { change (get _ "durations") with (@Own json (JArray (map duration_json ds))).
    unfold z_array_min1. rewrite traverse_map_id.
    - destruct ds; [congruence | reflexivity].
    - intros d Hin. rewrite Forall_forall in Hdp. specialize (Hdp d Hin).
      destruct d as [pa la ba]. simpl in *.
      unfold durationSchema, duration_json. cbn [Duration.path Duration.label
        Duration.basePriceDollars].
      change (get _ "path") with (@Own json (JString pa)).
      change (get _ "label") with (@Own json (JString la)).
      change (get _ "basePriceDollars") with (@Own json (JNumber ba)).
      simpl. now rewrite Hdp. }
  assert (Ea : z_record_nonempty assetTypeSchema
                 (get [("durations", JArray (map duration_json ds));
                       ("assetTypes",
                        JObject (map (fun kv => (fst kv, assetType_json (snd kv))) ats));
                       ("channels",
                        JObject (map (fun kv => (fst kv, channel_json (snd kv))) chs))]
                      "assetTypes") = Some ats).
  { change (get _ "assetTypes")
      with (@Own json (JObject (map (fun kv => (fst kv, assetType_json (snd kv))) ats))).
    unfold z_record_nonempty. rewrite traverse_map_id.
    - rewrite filter_no_proto by assumption. destruct ats; [congruence | reflexivity].
    - intros [k [la ma]] Hin. rewrite Forall_forall in Hap. specialize (Hap _ Hin).
      simpl in *. unfold assetTypeSchema.
      change (get _ "label") with (@Own json (JString la)).
      change (get _ "multiplier") with (@Own json (JNumber ma)).
      simpl. now rewrite Hap. }
  assert (Ec : z_record_nonempty channelSchema
                 (get [("durations", JArray (map duration_json ds));
                       ("assetTypes",
                        JObject (map (fun kv => (fst kv, assetType_json (snd kv))) ats));
                       ("channels",
                        JObject (map (fun kv => (fst kv, channel_json (snd kv))) chs))]
                      "channels") = Some chs).
  { change (get _ "channels")
      with (@Own json (JObject (map (fun kv => (fst kv, channel_json (snd kv))) chs))).
    unfold z_record_nonempty. rewrite traverse_map_id.
    - rewrite filter_no_proto by assumption. destruct chs; [congruence | reflexivity].
    - intros [k [la wa ma]] Hin. rewrite Forall_forall in Hcp. specialize (Hcp _ Hin).
      simpl in *. unfold channelSchema.
      change (get _ "label") with (@Own json (JString la)).
      change (get _ "wsChannel") with (@Own json (JString wa)).
      change (get _ "multiplier") with (@Own json (JNumber ma)).
      simpl. now rewrite Hcp. }
  exact (pricingSchema_sections _ _ _ _ Ed Ea Ec).
Qed.

(** X4. The schema accepts what it produced: a configuration with at
    least one duration, asset type and channel, positive prices and
    multipliers and no key ["__proto__"] is accepted unchanged, order
    included; every configuration the schema returns is of that kind,
    so validating the held snapshot again gives the same snapshot. *)
Theorem pricingSchema_round_trip :
  (forall cfg,
      well_formed cfg -> no_proto_key cfg -> pricingSchema (config_json cfg) = Some cfg)
  /\ (forall j cfg,
         pricingSchema j = Some cfg ->
         well_formed cfg /\ no_proto_key cfg /\ pricingSchema (config_json cfg) = Some cfg).
Proof.
  split; [exact pricingSchema_config_json|].
  intros j cfg H.
  pose proof (pricingSchema_well_formed _ _ H) as Hw.
  pose proof (pricingSchema_no_proto _ _ H) as Hp.
  auto using pricingSchema_config_json.
Qed.

Lemma pricingSchema_round_trip_witness :
  pricingSchema (config_json Examples.config) = Some Examples.config.
Proof.
  apply (proj2 pricingSchema_round_trip (Examples.document)). reflexivity.
Defined.

Lemma run_app evs1 evs2 st :
  snd (run (evs1 ++ evs2) st) = snd (run evs2 (snd (run evs1 st))).
Proof.
  revert st. induction evs1 as [|ev evs1 IH]; intros st; simpl; [reflexivity|].
  destruct (deliver ev st) as [l1 st1]. specialize (IH st1).
  destruct (run (evs1 ++ evs2) st1) as [l2 st2].
  destruct (run evs1 st1) as [l3 st3]. simpl in *. exact IH.
Qed.

Lemma run_failed_changes evs cur :
  (forall e, In e evs -> e.(eventType) = "change" -> load_fails e.(content)) ->
  snd (run evs (Loaded cur true)) = Loaded cur true.
Proof.
  induction evs as [|ev evs IH]; simpl; intros H; [reflexivity|].
  assert (E : snd (on_watch ev cur) = cur).
  { unfold on_watch. destruct (String.eqb (eventType ev) "change") eqn:C; [|reflexivity].
    apply String.eqb_eq in C. specialize (H ev (or_introl eq_refl) C).
    apply loadConfig_fails in H. destruct (loadConfig (content ev)) as [logs upd].
    simpl in H. now subst. }
  destruct (on_watch ev cur) as [l1 cur1]. simpl in E. subst cur1.
  specialize (IH (fun e Hin => H e (or_intror Hin))).
  destruct (run evs (Loaded cur true)) as [l2 st2]. simpl in *. exact IH.
Qed.

Lemma run_not_watching evs cur : run evs (Loaded cur false) = ([], Loaded cur false).
Proof.
  induction evs as [|ev evs IH]; simpl; [reflexivity|]. now rewrite IH.
Qed.

Lemma run_stays_loaded evs : forall cur,
  exists cur', snd (run evs (Loaded cur true)) = Loaded cur' true.
Proof.
  induction evs as [|ev evs IH]; intros cur; simpl; [eauto|].
  destruct (on_watch ev cur) as [l1 cur1]. destruct (IH cur1) as [cur' H].
  destruct (run evs (Loaded cur1 true)) as [l2 st2]. simpl in *. eauto.
Qed.

(** X5. While the module watches the file, the snapshot it holds is
    the one of the last ["change"] notification whose file loaded,
    whatever came before and whatever invalid or other notifications
    came after. When [fs.watch] could not be set up the snapshot never
    changes and nothing is logged. *)
Theorem last_valid_change_wins :
  (forall before ev after current cfg,
      ev.(eventType) = "change" ->
      snd (loadConfig ev.(content)) = Some cfg ->
      (forall e, In e after -> e.(eventType) = "change" -> load_fails e.(content)) ->
      snd (run (before ++ ev :: after) (Loaded current true)) = Loaded cfg true)
  /\ (forall evs current, run evs (Loaded current false) = ([], Loaded current false)).
Proof.
  split; [|exact run_not_watching].
  intros before ev after current cfg Hc Hl Hafter.
  rewrite run_app. destruct (run_stays_loaded before current) as [cur' ->].
  simpl. unfold on_watch. rewrite Hc. simpl.
  destruct (loadConfig (content ev)) as [logs upd]. simpl in Hl. subst upd.
  pose proof (run_failed_changes after cfg Hafter) as H.
  destruct (run after (Loaded cfg true)) as [l2 st2]. simpl in *. exact H.
Qed.

Lemma last_valid_change_wins_witness :
  snd (run ([ {| eventType := "change"; content := Malformed |} ]
            ++ {| eventType := "change"; content := Document Examples.document_renamed |}
            :: [ {| eventType := "rename"; content := Document Examples.document |};
                 {| eventType := "change"; content := Unreadable |} ])
           (Loaded Examples.config true))
  = Loaded Examples.config_renamed true.
Proof.
  apply (proj1 last_valid_change_wins).
  - reflexivity.
  - reflexivity.
  - intros e [<-|[<-|[]]]; simpl.
    + discriminate.
    + intros _. exact I.
Defined.

(** ** symbols.ts *)

Lemma lookup_Some dir a t r :
  lookup dir a t = Some r <-> exists m, own dir a = Some m /\ own m t = Some r.
Proof.
  unfold lookup. destruct (own dir a) as [m|]; split.
  - eauto.
  - intros [m' [[= <-] H]]. exact H.
  - discriminate.
  - intros [m' [H _]]. discriminate.
Qed.

Lemma ingest_present assetTypes map it a t r :
  normalize assetTypes it = Some (a, t) -> lookup map a t = Some r ->
  ingest assetTypes map it = map.
Proof.
  intros N L. rewrite (ingest_keep _ _ _ _ _ N).
  apply lookup_Some in L as [m [-> ->]]. reflexivity.
Qed.

(** X6. Ingestion absorbs repetition: entries appended to a catalog
    change nothing when each of them is skipped or normalizes to a pair
    some entry of the catalog already normalizes to; in particular a
    catalog listed twice gives the same directory as once. *)
Theorem initSymbols_absorbs_repeats assetTypes data more :
  (forall it a t,
      In it more -> normalize assetTypes it = Some (a, t) ->
      exists it', In it' data /\ normalize assetTypes it' = Some (a, t)) ->
  initSymbols assetTypes (data ++ more) = initSymbols assetTypes data
  /\ initSymbols assetTypes (data ++ data) = initSymbols assetTypes data.
Proof.
  assert (G : forall more',
             (forall it a t,
                 In it more' -> normalize assetTypes it = Some (a, t) ->
                 exists it', In it' data /\ normalize assetTypes it' = Some (a, t)) ->
             initSymbols assetTypes (data ++ more') = initSymbols assetTypes data).
  { intros more' H. unfold initSymbols. rewrite fold_left_app.
    fold (initSymbols assetTypes data).
    induction more' as [|it more' IH]; simpl; [reflexivity|].
    assert (E : ingest assetTypes (initSymbols assetTypes data) it
                = initSymbols assetTypes data).
    { destruct (normalize assetTypes it) as [[a t]|] eqn:N; [|now apply ingest_skip].
      destruct (H it a t (or_introl eq_refl) N) as [it' [Hin N']].
      destruct (find (normalizes_to assetTypes a t) data) as [x|] eqn:F.
      - apply (ingest_present _ _ _ a t (record_of a x)); [assumption|].
        now rewrite lookup_initSymbols, F.
      - apply (find_none _ _ F) in Hin. apply normalizes_to_true in N'. congruence. }
    rewrite E. apply IH. intros it0 a t Hin. apply H. now right. }
  intros H. split; [now apply G|]. apply G. eauto.
Qed.

Lemma initSymbols_absorbs_repeats_witness :
  initSymbols Examples.config.(assetTypes)
    (Examples.catalog
     ++ [ {| state := "stable"; asset_type := "crypto"; symbol := "Funding.BTC/USD";
             pyth_lazer_id := 7 |};
          {| state := "inactive"; asset_type := "crypto"; symbol := "Crypto.SOL/USD";
             pyth_lazer_id := 6 |} ])
  = initSymbols Examples.config.(assetTypes) Examples.catalog.
Proof.
  apply (initSymbols_absorbs_repeats Examples.config.(assetTypes) Examples.catalog).
  intros it a t [<-|[<-|[]]]; simpl.
  - intros [= <- <-].
    exists {| state := "stable"; asset_type := "crypto"; symbol := "Crypto.BTC/USD";
              pyth_lazer_id := 1 |}.
    split; [simpl; auto | reflexivity].
  - discriminate.
Defined.

Lemma ingest_nonempty assetTypes map it :
  (forall a m, own map a = Some m -> m <> []) ->
  forall a m, own (ingest assetTypes map it) a = Some m -> m <> [].
Proof.
  intros Hd. destruct (normalize assetTypes it) as [[a t]|] eqn:N.
  2:{ now rewrite ingest_skip. }
  rewrite (ingest_keep _ _ _ _ _ N).
  assert (Hset : forall (m' : obj TickerInfo) (dir' : directory), m' <> [] ->
                   (forall a0 m0, a0 <> a -> own dir' a0 = Some m0 -> m0 <> []) ->
                   forall a0 m0, own (set dir' a m') a0 = Some m0 -> m0 <> []).
  { intros m' dir' Hm' Hdir' a0 m0. destruct (String.eqb a0 a) eqn:E.
    - apply String.eqb_eq in E. subst. rewrite own_set_same. now intros [= <-].
    - apply String.eqb_neq in E. rewrite own_set_other by assumption. now apply Hdir'. }
  match goal with
  | |- context [match ?x with Some _ => _ | None => _ end] =>
      destruct x as [tickers|] eqn:O
  end.
  - match goal with
    | |- context [match ?x with Some _ => _ | None => _ end] =>
        destruct x as [r|] eqn:T
    end; [exact Hd|].
    apply Hset; [|intros; eapply Hd; eauto].
    intros E. pose proof (own_set_same tickers t (record_of a it)) as S.
    rewrite E in S. discriminate.
  - apply Hset; [discriminate|].
    intros a0 m0 Ha0. rewrite own_set_other by assumption. apply Hd.
Qed.

Lemma initSymbols_nonempty assetTypes data a m :
  own (initSymbols assetTypes data) a = Some m -> m <> [].
Proof.
  unfold initSymbols.
  assert (H : forall map, (forall a m, own map a = Some m -> m <> []) ->
              forall a m, own (fold_left (ingest assetTypes) data map) a = Some m -> m <> []).
  { induction data as [|it data IH]; simpl; intros map Hm; [assumption|].
    apply IH. now apply ingest_nonempty. }
  apply H. intros a0 m0. discriminate.
Qed.

Lemma initSymbols_entry assetTypes data a m t info :
  own (initSymbols assetTypes data) a = Some m -> own m t = Some info ->
  exists it, In it data /\ normalize assetTypes it = Some (a, t) /\ info = record_of a it.
Proof.
  intros Ha Ht.
  assert (L : lookup (initSymbols assetTypes data) a t = Some info).
  { apply lookup_Some. eauto. }
  rewrite lookup_initSymbols in L.
  destruct (find (normalizes_to assetTypes a t) data) as [it|] eqn:F; [|discriminate].
  apply find_some in F as [Hin Hn]. apply normalizes_to_true in Hn.
  injection L as <-. eauto.
Qed.

Lemma mappedType_of_Some asset_type a :
  mappedType_of asset_type = Some a ->
  In a (map snd ASSET_TYPE_MAP)
  \/ (inherited asset_type = true /\ a = native_key asset_type).
Proof.
  unfold mappedType_of, get.
  destruct (own ASSET_TYPE_MAP asset_type) as [v|] eqn:E.
  - destruct (is_empty v); [discriminate|]. intros [= <-]. left.
    apply own_In in E. change v with (snd (asset_type, v)). now apply in_map.
  - destruct (inherited asset_type); [|discriminate]. intros [= <-]. auto.
Qed.

(** X7. The directory an ingestion builds only has asset types that
    are configured, none of them with an empty ticker map. Such an
    asset type is a value of [ASSET_TYPE_MAP] or, for a catalog entry
    whose [asset_type] is a name of [Object.prototype], the text that
    built-in converts to as a property key; it is never itself a name
    of [Object.prototype]. Every ticker is a non-empty base, a hyphen
    and a non-empty quote, and its record names the asset type it is
    filed under and carries the feed id of a stable catalog entry whose
    [asset_type] the table maps to that asset type. *)
Theorem directory_shape assetTypes data a m :
  own (initSymbols assetTypes data) a = Some m ->
  In a (keys assetTypes)
  /\ (In a (map snd ASSET_TYPE_MAP)
      \/ exists b, inherited b = true /\ a = native_key b)
  /\ inherited a = false
  /\ m <> []
  /\ (forall t info,
         own m t = Some info ->
         (exists base quote, t = base ++ "-" ++ quote /\ base <> "" /\ quote <> "")
         /\ info.(Symbols.assetType) = a
         /\ exists it, In it data /\ it.(state) = "stable"
                       /\ mappedType_of it.(asset_type) = Some a
                       /\ info.(feedId) = it.(pyth_lazer_id)).
Proof.
  intros Ha.
  assert (Hent : forall t info, own m t = Some info ->
            exists it, In it data /\ normalize assetTypes it = Some (a, t)
                       /\ info = record_of a it).
  { intros t info. now apply initSymbols_entry. }
  pose proof (initSymbols_nonempty _ _ _ _ Ha) as Hne.
  assert (Hfirst : exists t info, own m t = Some info).
  { destruct m as [|[t info] m']; [congruence|]. exists t, info. simpl.
    now rewrite String.eqb_refl. }
  destruct Hfirst as [t0 [info0 H0]].
  destruct (Hent _ _ H0) as [it0 [_ [N0 _]]].
  apply normalize_Some in N0 as [_ [M0 [K0 _]]].
  split; [assumption|]. split; [|split; [|split; [assumption|]]].
  - destruct (mappedType_of_Some _ _ M0) as [H|[H1 H2]]; eauto.
  - exact (mappedType_plain _ _ M0).
  - intros t info Ht. destruct (Hent _ _ Ht) as [it [Hin [N ->]]].
    apply normalize_Some in N as [S [M [_ P]]].
    apply parseTickerName_spec in P as [base [quote [[pre [_ [_ [_ [_ [Hb Hq]]]]]] ->]]].
    split; [eauto|]. split; [reflexivity|]. exists it. auto.
Qed.

Lemma directory_shape_witness :
  In "crypto" (keys Examples.config.(assetTypes))
  /\ (In "crypto" (map snd ASSET_TYPE_MAP)
      \/ exists b, inherited b = true /\ "crypto" = native_key b)
  /\ inherited "crypto" = false
  /\ [("BTC-USD", {| feedId := 1%Z; Symbols.assetType := "crypto" |})] <> []
  /\ (forall t info,
         own [("BTC-USD", {| feedId := 1%Z; Symbols.assetType := "crypto" |})] t
         = Some info ->
         (exists base quote, t = base ++ "-" ++ quote /\ base <> "" /\ quote <> "")
         /\ info.(Symbols.assetType) = "crypto"
         /\ exists it, In it Examples.catalog /\ it.(state) = "stable"
                       /\ mappedType_of it.(asset_type) = Some "crypto"
                       /\ info.(feedId) = it.(pyth_lazer_id)).
Proof.
  apply (directory_shape Examples.config.(assetTypes) Examples.catalog "crypto").
  reflexivity.
Defined.

Lemma total_pairs dir : total dir = List.length (pairs dir).
Proof.
  unfold total, pairs.
  assert (H : forall n, fold_left (fun sum (m : obj TickerInfo) => sum + List.length (keys m))
                          (map snd dir) n
                        = n + List.length
                                (flat_map (fun kv : string * obj TickerInfo =>
                                             map (pair (fst kv)) (keys (snd kv))) dir)).
  { induction dir as [|[a m] dir IH]; simpl; intros n; [lia|].
    rewrite IH, length_app, length_map. lia. }
  apply H.
Qed.

Lemma ingest_keys_distinct assetTypes (map : directory) it :
  NoDup (keys map) -> NoDup (keys (ingest assetTypes map it)).
Proof.
  intros Hd. destruct (normalize assetTypes it) as [[a t]|] eqn:N.
  2:{ now rewrite ingest_skip. }
  rewrite (ingest_keep _ _ _ _ _ N).
  repeat match goal with
         | |- context [match ?x with Some _ => _ | None => _ end] => destruct x
         end; auto using NoDup_keys_set.
Qed.

Lemma initSymbols_keys_distinct assetTypes data : NoDup (keys (initSymbols assetTypes data)).
Proof.
  unfold initSymbols.
  assert (H : forall map : directory, NoDup (keys map) ->
                NoDup (keys (fold_left (ingest assetTypes) data map))).
  { induction data as [|it data IH]; simpl; intros map Hm; [assumption|].
    apply IH. now apply ingest_keys_distinct. }
  apply H. constructor.
Qed.

Lemma In_pairs (dir : directory) a t :
  In (a, t) (pairs dir) <-> exists m, In (a, m) dir /\ In t (keys m).
Proof.
  unfold pairs. rewrite in_flat_map. split.
  - intros [[a' m] [Hin Hp]]. simpl in Hp. apply in_map_iff in Hp as [t' [[= -> ->] Ht]].
    eauto.
  - intros [m [Hin Ht]]. exists (a, m). split; [assumption|]. simpl.
    now apply in_map.
Qed.

Lemma NoDup_pairs (dir : directory) :
  NoDup (keys dir) -> tickers_distinct dir -> NoDup (pairs dir).
Proof.
  intros Hk Ht. unfold pairs. apply NoDup_flat_map.
  - unfold keys in Hk. now apply NoDup_map_inv in Hk.
  - intros [a m] Hin. simpl.
    assert (Hm : NoDup (keys m)) by (apply (Ht a), NoDup_keys_own; assumption).
    clear Hin. induction Hm as [|t l Hnot Hnd IH]; simpl; constructor; [|assumption].
    intros Hin. apply in_map_iff in Hin as [t' [[= ->] Hin]]. contradiction.
  - intros [a m] [a' m'] [a0 t] Hx Hy Hz Hz'. simpl in Hz, Hz'.
    apply in_map_iff in Hz as [t1 [[= -> ->] _]].
    apply in_map_iff in Hz' as [t2 [[= -> ->] _]].
    apply (NoDup_keys_own _ _ _ Hk) in Hx, Hy. congruence.
Qed.

Lemma In_normalized assetTypes data p :
  In p (normalized assetTypes data)
  <-> exists it, In it data /\ normalize assetTypes it = Some p.
Proof.
  unfold normalized. rewrite in_flat_map. split.
  - intros [it [Hin Hp]]. exists it. split; [assumption|].
    destruct (normalize assetTypes it); simpl in Hp; [|contradiction].
    destruct Hp as [->|[]]. reflexivity.
  - intros [it [Hin Hp]]. exists it. rewrite Hp. simpl. auto.
Qed.

Lemma length_normalized assetTypes data :
  List.length (normalized assetTypes data) <= List.length data.
Proof.
  unfold normalized. induction data as [|it data IH]; simpl; [lia|].
  rewrite length_app. destruct (normalize assetTypes it); simpl; lia.
Qed.

Lemma pairs_initSymbols assetTypes data a t :
  In (a, t) (pairs (initSymbols assetTypes data))
  <-> In (a, t) (normalized assetTypes data).
Proof.
  rewrite In_pairs, In_normalized. split.
  - intros [m [Hin Ht]].
    apply (NoDup_keys_own _ _ _ (initSymbols_keys_distinct assetTypes data)) in Hin.
    apply In_keys_own in Ht as [info Ht].
    destruct (initSymbols_entry _ _ _ _ _ _ Hin Ht) as [it [Hi [N _]]]. eauto.
  - intros [it [Hin N]].
    destruct (find (normalizes_to assetTypes a t) data) as [x|] eqn:F.
    + assert (L : lookup (initSymbols assetTypes data) a t = Some (record_of a x))
        by now rewrite lookup_initSymbols, F.
      apply lookup_Some in L as [m [Hm Ht]]. exists m. split.
      * now apply own_In.
      * eapply own_keys; eauto.
    + apply (find_none _ _ F) in Hin. apply normalizes_to_true in N. congruence.
Qed.

(** X8. The total an ingestion logs is the number of distinct
    (asset type, ticker) pairs the catalog entries normalize to; it
    never exceeds the length of the catalog. *)
Theorem total_counts_distinct_pairs assetTypes data :
  total (initSymbols assetTypes data)
  = List.length (nodup pair_eq_dec (normalized assetTypes data))
  /\ total (initSymbols assetTypes data) <= List.length data.
Proof.
  assert (E : total (initSymbols assetTypes data)
              = List.length (nodup pair_eq_dec (normalized assetTypes data))).
  { rewrite total_pairs. apply Nat.le_antisymm.
    - apply NoDup_incl_length.
      + apply NoDup_pairs;
          [apply initSymbols_keys_distinct | apply initSymbols_distinct].
      + intros [a t] H. apply nodup_In. now apply pairs_initSymbols.
    - apply NoDup_incl_length; [apply NoDup_nodup|].
      intros [a t] H. apply nodup_In in H. now apply pairs_initSymbols. }
  split; [assumption|]. rewrite E.
  pose proof (length_normalized assetTypes data).
  assert (L : forall l : list (string * string),
             List.length (nodup pair_eq_dec l) <= List.length l).
  { induction l as [|x l IH]; simpl; [lia|].
    destruct (in_dec pair_eq_dec x l); simpl; lia. }
  specialize (L (normalized assetTypes data)). lia.
Qed.

(** ** routes/purchase.ts *)

Lemma own_fold_set_other {A B : Type} (key : A -> string) (val : A -> B) l init k :
  ~ In k (map key l) ->
  own (fold_left (fun o x => set o (key x) (val x)) l init) k = own init k.
Proof.
  revert init. induction l as [|x l IH]; simpl; intros init H; [reflexivity|].
  rewrite IH by tauto. apply own_set_other. intros E. apply H. now left.
Qed.

Lemma own_fold_set {A B : Type} (key : A -> string) (val : A -> B) l init r :
  NoDup (map key l) -> In r l ->
  own (fold_left (fun o x => set o (key x) (val x)) l init) (key r) = Some (val r).
Proof.
  revert init. induction l as [|x l IH]; simpl; intros init Hnd Hin; [contradiction|].
  inversion Hnd as [|? ? Hx Hl]; subst. destruct Hin as [->|Hin].
  - rewrite own_fold_set_other by assumption. apply own_set_same.
  - now apply IH.
Qed.

(** X9. With the directory built from a catalog, a validated purchase
    on a route whose asset type is not a name of [Object.prototype] is
    answered from the catalog: when some entry normalizes to the
    route's asset type and the ticker, 200 with the feed id of the
    first such entry, in the descriptor and in its subscribe message;
    otherwise 400 [INVALID_TICKER]. *)
Theorem purchase_follows_catalog h env cfg assetTypes data a c d req t :
  Purchase.purchaseBody req.(Purchase.body) = inl t ->
  inherited a = false ->
  match find (normalizes_to assetTypes a t) data with
  | Some it =>
      exists cred,
        snd (Purchase.purchaseHandler h env cfg (initSymbols assetTypes data) a c d req)
        = Ok cred
        /\ cred.(Purchase.Credential.ticker) = t
        /\ cred.(Purchase.Credential.assetType) = a
        /\ cred.(Purchase.Credential.feedId) = Some it.(pyth_lazer_id)
        /\ cred.(Purchase.Credential.pythPro).(Purchase.subscribe).(Purchase.priceFeedIds)
           = [Some it.(pyth_lazer_id)]
  | None =>
      exists msg,
        snd (Purchase.purchaseHandler h env cfg (initSymbols assetTypes data) a c d req)
        = Err 400 {| code := "INVALID_TICKER"; message := msg; hint := None |}
  end.
Proof.
  intros Hb Ha.
  pose proof (lookup_initSymbols assetTypes data a t) as L.
  destruct (find (normalizes_to assetTypes a t) data) as [it|] eqn:F; simpl in L.
  - apply getTickerInfo_Own with (h := h) in L.
    assert (T : truthy (getTickerInfo h (initSymbols assetTypes data) a t) = true)
      by now rewrite L.
    rewrite (purchaseHandler_validated _ _ _ _ _ _ _ _ _ Hb T), L.
    eexists. split; [reflexivity|]. simpl. auto.
  - assert (T : truthy (getTickerInfo h (initSymbols assetTypes data) a t) = false).
    { apply purchaseBody_accepts in Hb as [o [_ [_ [base [quote [-> _]]]]]].
      unfold lookup in L. unfold getTickerInfo, get at 1.
      destruct (own (initSymbols assetTypes data) a) as [m|].
      - now rewrite get_absent by (assumption || apply dash_not_inherited).
      - now rewrite Ha. }
    unfold Purchase.purchaseHandler. rewrite Hb, T. simpl. eauto.
Qed.

Lemma purchase_follows_catalog_witness :
  exists cred,
    snd (Purchase.purchaseHandler Examples.host Examples.env Examples.config
           (initSymbols Examples.config.(assetTypes) Examples.catalog)
           "crypto" "fixed" "1h" (Examples.request "BTC-USD"))
    = Ok cred
    /\ cred.(Purchase.Credential.ticker) = "BTC-USD"
    /\ cred.(Purchase.Credential.assetType) = "crypto"
    /\ cred.(Purchase.Credential.feedId) = Some 1%Z
    /\ cred.(Purchase.Credential.pythPro).(Purchase.subscribe).(Purchase.priceFeedIds)
       = [Some 1%Z].
Proof.
  apply (purchase_follows_catalog Examples.host Examples.env Examples.config
           Examples.config.(assetTypes) Examples.catalog
           "crypto" "fixed" "1h" (Examples.request "BTC-USD") "BTC-USD");
    reflexivity.
Defined.

(** X10. A request is answered 200 or 400, and it writes a purchase
    record exactly when it is answered 200: one record, which repeats
    the ticker, feed id, asset type, channel, duration and price of
    the credential descriptor; the descriptor is the route's, and its
    subscribe message asks for the descriptor's feed. *)
Theorem audit_agrees_with_response h env cfg dir a c d req :
  let out := Purchase.purchaseHandler h env cfg dir a c d req in
  audits (fst out)
  = match snd out with
    | Ok cred => [audit_of (Purchase.payerWallet_of req) cred]
    | Err _ _ => []
    end
  /\ (status (snd out) = 200%Z \/ status (snd out) = 400%Z)
  /\ match snd out with
     | Ok cred =>
         cred.(Purchase.Credential.assetType) = a
         /\ cred.(Purchase.Credential.channel) = c
         /\ cred.(Purchase.Credential.duration) = d
         /\ cred.(Purchase.Credential.pythPro).(Purchase.subscribe).(Purchase.priceFeedIds)
            = [cred.(Purchase.Credential.feedId)]
     | Err _ _ => True
     end.
Proof.
  unfold Purchase.purchaseHandler.
  destruct (Purchase.purchaseBody (Purchase.body req)) as [t|issues]; simpl.
  - destruct (truthy (getTickerInfo h dir a t)); simpl; auto 10.
  - auto.
Qed.

(** ** server.ts *)

(** X11. When the generated purchase paths are pairwise distinct, the
    payment table holds under [POST <path>] the entry of the route
    itself, the path is registered once, with the route's triple, and
    a purchase that the handler registered there fulfils reports as
    [pricePaid] the price the table charges. *)
Theorem charged_price_is_price_paid h conf env cfg dir r req t :
  NoDup (map routePath (getAllRouteConfigs cfg)) ->
  In r (getAllRouteConfigs cfg) ->
  Purchase.purchaseBody req.(Purchase.body) = inl t ->
  truthy (getTickerInfo h dir r.(Pricing.assetType) t) = true ->
  own (Server.routeConfig_of conf (getAllRouteConfigs cfg)) ("POST " ++ r.(routePath))
  = Some (Server.entry_of conf r)
  /\ (forall args,
         In (r.(routePath), args) (Server.registrations_of (getAllRouteConfigs cfg))
         <-> args = (r.(Pricing.assetType), r.(Pricing.channel), r.(Pricing.duration)))
  /\ exists cred,
       snd (Purchase.purchaseHandler h env cfg dir r.(Pricing.assetType)
              r.(Pricing.channel) r.(Pricing.duration) req) = Ok cred
       /\ map Server.price (Server.accepts (Server.entry_of conf r))
          = [r.(Pricing.price)]
       /\ cred.(Purchase.Credential.pricePaid) = Some r.(Pricing.price).
Proof.
  intros Hnd Hin Hb Ht. split; [|split].
  - unfold Server.routeConfig_of.
    apply (own_fold_set (fun r => "POST " ++ routePath r) (Server.entry_of conf)); [|assumption].
    clear - Hnd. induction (getAllRouteConfigs cfg) as [|x l IH]; simpl; [constructor|].
    inversion Hnd as [|? ? Hx Hl]; subst. constructor; [|auto].
    intros H. apply in_map_iff in H as [y [E Hy]]. apply Hx.
    injection E as E. rewrite <- E. now apply in_map.
  - intros args. unfold Server.registrations_of. rewrite in_map_iff. split.
    + intros [r' [E Hr']]. injection E as E <-.
      assert (r' = r); [|now subst].
      clear - Hnd Hin Hr' E. induction (getAllRouteConfigs cfg) as [|x l IH]; [contradiction|].
      simpl in Hnd. inversion Hnd as [|? ? Hx Hl]; subst.
      destruct Hin as [->|Hin], Hr' as [->|Hr']; auto.
      * exfalso. apply Hx. rewrite <- E. now apply in_map.
      * exfalso. apply Hx. rewrite E. now apply in_map.
    + intros ->. exists r. auto.
  - rewrite (purchaseHandler_validated _ _ _ _ _ _ _ _ _ Hb Ht).
    eexists. split; [reflexivity|]. split; [reflexivity|]. simpl.
    unfold getAllRouteConfigs in Hin.
    apply in_flat_map in Hin as [a [_ Hin]]. apply in_flat_map in Hin as [c [_ Hin]].
    apply in_flat_map in Hin as [dur [_ Hin]].
    destruct (computePrice cfg a c (Duration.path dur)) as [p|] eqn:P; [|contradiction].
    destruct Hin as [<-|[]]. simpl. now rewrite P.
Qed.

Lemma charged_price_is_price_paid_witness :
  own (Server.routeConfig_of Examples.settings (getAllRouteConfigs Examples.config))
      ("POST " ++ Examples.route.(routePath))
  = Some (Server.entry_of Examples.settings Examples.route)
  /\ (forall args,
         In (Examples.route.(routePath), args)
            (Server.registrations_of (getAllRouteConfigs Examples.config))
         <-> args = ("crypto", "fixed", "1h"))
  /\ exists cred,
       snd (Purchase.purchaseHandler Examples.host (Config.purchase_env Examples.settings)
              Examples.config Examples.byAssetType "crypto" "fixed" "1h"
              (Examples.request "BTC-USD")) = Ok cred
       /\ map Server.price (Server.accepts (Server.entry_of Examples.settings Examples.route))
          = ["$10.00"]
       /\ cred.(Purchase.Credential.pricePaid) = Some "$10.00".
Proof.
  apply (charged_price_is_price_paid Examples.host Examples.settings
           (Config.purchase_env Examples.settings) Examples.config Examples.byAssetType
           Examples.route (Examples.request "BTC-USD") "BTC-USD").
  - vm_compute. repeat constructor. simpl. tauto.
  - vm_compute. auto.
  - reflexivity.
  - reflexivity.
Defined.

(** ** config.ts *)

Lemma split_cons sep s : exists x xs, PricingRoute.Multi.split sep s = x :: xs.
Proof.
  induction s as [|a s [x [xs IH]]]; simpl; [eauto|].
  rewrite IH. destruct (Ascii.eqb a sep); eauto.
Qed.

Lemma join_split sep s :
  join (String sep "") (PricingRoute.Multi.split sep s) = s.
Proof.
  unfold join. induction s as [|a s IH]; [reflexivity|].
  simpl PricingRoute.Multi.split.
  destruct (split_cons sep s) as [x [xs E]]. rewrite E in *.
  destruct (Ascii.eqb a sep) eqn:A.
  - apply Ascii.eqb_eq in A. subst a.
    change (String.concat (String sep "") ("" :: x :: xs))
      with (String sep (String.concat (String sep "") (x :: xs))).
    now rewrite IH.
  - destruct xs as [|y ys]; simpl in *; now rewrite IH.
Qed.

Lemma split_free sep s x : In x (PricingRoute.Multi.split sep s) -> free_of sep x.
Proof.
  unfold free_of. revert x. induction s as [|a s IH]; simpl; intros x H.
  - destruct H as [<-|[]]. reflexivity.
  - destruct (split_cons sep s) as [y [ys E]]. rewrite E in *.
    destruct (Ascii.eqb a sep) eqn:A.
    + destruct H as [<-|H]; [reflexivity | now apply IH].
    + destruct H as [<-|H]; [|apply IH; now right].
      simpl. rewrite A. simpl. apply IH. now left.
Qed.

(** X12. A parsed environment never holds an empty list of WebSocket
    URLs: the list joined with commas is the variable as it was set
    (the three default endpoints when it is unset), and no URL of the
    list holds a comma. *)
Theorem envSchema_ws_urls e c :
  Config.envSchema e = Some c ->
  c.(Config.PYTH_PRO_WS_URLS) <> []
  /\ join "," c.(Config.PYTH_PRO_WS_URLS)
     = Config.with_default e.(Config.env_PYTH_PRO_WS_URLS) Config.default_ws_urls
  /\ (forall u, In u c.(Config.PYTH_PRO_WS_URLS) -> free_of "," u)
  /\ (e.(Config.env_PYTH_PRO_WS_URLS) = None ->
      c.(Config.PYTH_PRO_WS_URLS)
      = [ "wss://pyth-lazer-0.dourolabs.app/v1/stream";
          "wss://pyth-lazer-1.dourolabs.app/v1/stream";
          "wss://pyth-lazer-2.dourolabs.app/v1/stream" ]).
Proof.
  unfold Config.envSchema. intros H.
  destruct (Config.env_PAYMENT_RECIPIENT_ADDRESS e) as [addr|]; [|discriminate].
  destruct (Config.env_PYTH_PRO_ACCESS_TOKEN e) as [token|]; [|discriminate].
  destruct (Config.is_nan _); [discriminate|].
  destruct (negb (String.prefix "0x" addr)); [discriminate|].
  destruct (negb (existsb _ _)); [discriminate|].
  injection H as <-. cbn [Config.PYTH_PRO_WS_URLS].
  split; [|split; [|split]].
  - destruct (split_cons "," (Config.with_default (Config.env_PYTH_PRO_WS_URLS e)
                                Config.default_ws_urls)) as [x [xs ->]]. discriminate.
  - apply (join_split ",").
  - intros u. apply split_free.
  - intros ->. reflexivity.
Qed.

Lemma envSchema_ws_urls_witness :
  Examples.settings.(Config.PYTH_PRO_WS_URLS) <> []
  /\ join "," Examples.settings.(Config.PYTH_PRO_WS_URLS)
     = Config.with_default Examples.process_env.(Config.env_PYTH_PRO_WS_URLS)
         Config.default_ws_urls
  /\ (forall u, In u Examples.settings.(Config.PYTH_PRO_WS_URLS) -> free_of "," u)
  /\ (Examples.process_env.(Config.env_PYTH_PRO_WS_URLS) = None ->
      Examples.settings.(Config.PYTH_PRO_WS_URLS)
      = [ "wss://pyth-lazer-0.dourolabs.app/v1/stream";
          "wss://pyth-lazer-1.dourolabs.app/v1/stream";
          "wss://pyth-lazer-2.dourolabs.app/v1/stream" ]).
Proof.
  apply (envSchema_ws_urls Examples.process_env Examples.settings). reflexivity.
Defined.

Lemma given_Some v k : PricingRoute.given v = Some k <-> v = Some k /\ k <> "".
Proof.
  unfold PricingRoute.given. destruct v as [s|].
  - destruct (is_empty s) eqn:E.
    + destruct s; [|discriminate]. split; [discriminate|]. intros [[= <-] H]. congruence.
    + apply is_empty_false in E. split.
      * intros [= <-]. auto.
      * intros [[= <-] _]. reflexivity.
  - split; [discriminate | intros [H _]; discriminate].
Qed.

Lemma drop_placeholder_given v k :
  PricingRoute.given (Config.drop_placeholder v) = Some k <-> usable_key v k.
Proof.
  unfold usable_key. rewrite given_Some. unfold Config.drop_placeholder.
  destruct v as [s|].
  - destruct (String.prefix "your-" s) eqn:P.
    + split; [intros [H _]; discriminate | intros [[= <-] [_ H]]; congruence].
    + split; [intros [[= <-] H]; auto | intros [[= <-] [H _]]; auto].
  - split; [intros [H _]; discriminate | intros [H _]; discriminate].
Qed.

(** X13. The server talks to the authenticated facilitator exactly
    when both keys of the environment are usable (set, non-empty and
    not a [your-] placeholder), and then with these two keys; in every
    other case it talks to the public facilitator at x402.org. *)
Theorem facilitator_choice e c :
  Config.envSchema e = Some c ->
  (forall i k,
      Server.facilitator_of c = Server.Cdp i k
      <-> usable_key e.(Config.env_CDP_API_KEY_ID) i
          /\ usable_key e.(Config.env_CDP_API_KEY_SECRET) k)
  /\ (Server.hasCdpKeys c = true
      <-> exists i k, Server.facilitator_of c = Server.Cdp i k)
  /\ (Server.hasCdpKeys c = false
      <-> Server.facilitator_of c = Server.Public "https://x402.org/facilitator").
Proof.
  unfold Config.envSchema. intros H.
  destruct (Config.env_PAYMENT_RECIPIENT_ADDRESS e) as [addr|]; [|discriminate].
  destruct (Config.env_PYTH_PRO_ACCESS_TOKEN e) as [token|]; [|discriminate].
  destruct (Config.is_nan _); [discriminate|].
  destruct (negb (String.prefix "0x" addr)); [discriminate|].
  destruct (negb (existsb _ _)); [discriminate|].
  injection H as <-.
  unfold Server.facilitator_of, Server.hasCdpKeys.
  cbn [Config.CDP_API_KEY_ID Config.CDP_API_KEY_SECRET].
  pose proof (drop_placeholder_given (Config.env_CDP_API_KEY_ID e)) as Hi.
  pose proof (drop_placeholder_given (Config.env_CDP_API_KEY_SECRET e)) as Hk.
  destruct (PricingRoute.given (Config.drop_placeholder (Config.env_CDP_API_KEY_ID e)))
    as [i0|];
    destruct (PricingRoute.given (Config.drop_placeholder (Config.env_CDP_API_KEY_SECRET e)))
    as [k0|].
  - split; [|split].
    + intros i k. rewrite <- Hi, <- Hk. split; [intros [= <- <-]; auto|].
      intros [[= <-] [= <-]]. reflexivity.
    + split; eauto.
    + split; discriminate.
  - split; [|split].
    + intros i k. rewrite <- Hk. split; [discriminate | intros [_ H]; discriminate].
    + split; [discriminate | intros [i [k H]]; discriminate].
    + split; reflexivity.
  - split; [|split].
    + intros i k. rewrite <- Hi. split; [discriminate | intros [H _]; discriminate].
    + split; [discriminate | intros [i [k H]]; discriminate].
    + split; reflexivity.
  - split; [|split].
    + intros i k. rewrite <- Hi. split; [discriminate | intros [H _]; discriminate].
    + split; [discriminate | intros [i [k H]]; discriminate].
    + split; reflexivity.
Qed.

Lemma facilitator_choice_witness :
  (forall i k,
      Server.facilitator_of Examples.settings = Server.Cdp i k
      <-> usable_key Examples.process_env.(Config.env_CDP_API_KEY_ID) i
          /\ usable_key Examples.process_env.(Config.env_CDP_API_KEY_SECRET) k)
  /\ (Server.hasCdpKeys Examples.settings = true
      <-> exists i k, Server.facilitator_of Examples.settings = Server.Cdp i k)
  /\ (Server.hasCdpKeys Examples.settings = false
      <-> Server.facilitator_of Examples.settings
          = Server.Public "https://x402.org/facilitator").
Proof.
  apply (facilitator_choice Examples.process_env Examples.settings). reflexivity.
Defined.

(** ** routes/pricing.ts *)

Lemma map_flat_map {A B C : Type} (f : B -> C) (g : A -> list B) l :
  map f (flat_map g l) = flat_map (fun x => map f (g x)) l.
Proof.
  induction l as [|x l IH]; simpl; [reflexivity|]. now rewrite map_app, IH.
Qed.

Lemma matrix_routes cfg :
  PricingRoute.matrix cfg (keys cfg.(assetTypes)) (keys cfg.(channels))
  = map quote_of (getAllRouteConfigs cfg).
Proof.
  unfold PricingRoute.matrix, getAllRouteConfigs.
  rewrite map_flat_map. apply flat_map_ext. intros a.
  rewrite map_flat_map. apply flat_map_ext. intros c.
  rewrite map_flat_map. apply flat_map_ext. intros dur.
  now destruct (computePrice cfg a c (Duration.path dur)).
Qed.

Lemma matrix_rows_are_routes cfg eff chans row :
  incl eff (keys cfg.(assetTypes)) -> incl chans (keys cfg.(channels)) ->
  In row (PricingRoute.matrix cfg eff chans) ->
  exists r, In r (getAllRouteConfigs cfg) /\ row = quote_of r.
Proof.
  intros Ha Hc H. unfold PricingRoute.matrix in H.
  apply in_flat_map in H as [a [Hina H]]. apply in_flat_map in H as [c [Hinc H]].
  apply in_flat_map in H as [dur [Hind H]].
  destruct (computePrice cfg a c (Duration.path dur)) as [p|] eqn:P; [|contradiction].
  destruct H as [<-|[]].
  exists {| routePath := routePath_of a c dur.(Duration.path);
            price := p.(formatted);
            Pricing.assetType := a;
            Pricing.channel := c;
            Pricing.duration := dur.(Duration.path) |}.
  split; [|reflexivity]. unfold getAllRouteConfigs.
  apply in_flat_map. exists a. split; [auto|].
  apply in_flat_map. exists c. split; [auto|].
  apply in_flat_map. exists dur. split; [assumption|]. rewrite P. now left.
Qed.

Lemma z_string_optional_inl name v r :
  PricingRoute.z_string_optional name v = inl r ->
  v = option_map PricingRoute.QString r.
Proof.
  destruct v as [[x| |]|]; simpl; try discriminate; now intros [= <-].
Qed.

Lemma querySchema_inl q t a c :
  PricingRoute.querySchema q = inl (t, a, c) ->
  q.(PricingRoute.ticker) = option_map PricingRoute.QString t
  /\ q.(PricingRoute.assetType) = option_map PricingRoute.QString a
  /\ q.(PricingRoute.channel) = option_map PricingRoute.QString c.
Proof.
  unfold PricingRoute.querySchema.
  destruct (PricingRoute.z_string_optional "ticker" _) as [t'|] eqn:T;
    destruct (PricingRoute.z_string_optional "assetType" _) as [a'|] eqn:A;
    destruct (PricingRoute.z_string_optional "channel" _) as [c'|] eqn:C;
    try discriminate.
  intros [= <- <- <-].
  apply z_string_optional_inl in T, A, C. auto.
Qed.

Lemma no_filter_parsed name v :
  no_filter v ->
  exists r, PricingRoute.z_string_optional name v = inl r /\ PricingRoute.given r = None.
Proof. intros [->| ->]; simpl; eauto. Qed.

Lemma filtered_known {A : Type} (o : obj A) v x :
  PricingRoute.unknown_filter o v = None -> PricingRoute.given v = Some x ->
  inherited x = false -> In x (keys o).
Proof.
  unfold PricingRoute.unknown_filter. intros H G Hx. rewrite G in H.
  destruct (truthy (get o x)) eqn:T; [|discriminate].
  apply truthy_get_plain in T; [|assumption].
  destruct (own o x) as [v'|] eqn:O; [|congruence]. eapply own_keys; eauto.
Qed.

Lemma validated_filters_known cfg a c :
  PricingRoute.validate_filters cfg a c = None ->
  (forall x, a = Some x -> inherited x = false) ->
  (forall x, c = Some x -> inherited x = false) ->
  incl (PricingRoute.filteredAssetTypes_of cfg a) (keys cfg.(assetTypes))
  /\ incl (PricingRoute.filteredChannels_of cfg c) (keys cfg.(channels)).
Proof.
  unfold PricingRoute.validate_filters. intros H Pa Pc.
  destruct (PricingRoute.unknown_filter (assetTypes cfg) a) eqn:Ua; [discriminate|].
  destruct (PricingRoute.unknown_filter (channels cfg) c) eqn:Uc; [discriminate|].
  unfold PricingRoute.filteredAssetTypes_of, PricingRoute.filteredChannels_of. split.
  - destruct (PricingRoute.given a) as [x|] eqn:G; [|apply incl_refl].
    intros y [<-|[]]. apply (filtered_known _ _ _ Ua G).
    apply Pa. now apply given_Some in G as [-> _].
  - destruct (PricingRoute.given c) as [x|] eqn:G; [|apply incl_refl].
    intros y [<-|[]]. apply (filtered_known _ _ _ Uc G).
    apply Pc. now apply given_Some in G as [-> _].
Qed.

Lemma main_Listening p e f watch_ok early fetched config current watching byAssetType routes :
  Index.main p e f watch_ok early fetched
  = Index.Listening config current watching byAssetType routes ->
  routes = getAllRouteConfigs current.
Proof.
  unfold Index.main.
  destruct (Config.envSchema e); [|discriminate].
  destruct (negb (Index.logger_ok p)); [discriminate|].
  destruct (snd (init f watch_ok)); [|discriminate].
  destruct fetched; [|discriminate].
  destruct (snd (run early _)); [|discriminate].
  destruct (Index.createApp_ok p && Index.listen_ok p); [|discriminate].
  now intros [= _ <- _ _ <-].
Qed.

(** X14. A pricing request that filters nothing (each parameter absent
    or empty) is answered 200 by both revisions of the route, and the
    matrix is the route table of the snapshot the request reads: one
    row per route that [getAllRouteConfigs] generates from it, in the
    same order, with the route's triple, price and path. The routes
    are registered once, at start-up: the matrix quotes the registered
    routes when the request reads the snapshot the process started
    with. *)
Theorem unfiltered_matrix_is_route_table h cfg dir q :
  no_filter q.(PricingRoute.ticker) ->
  no_filter q.(PricingRoute.assetType) ->
  no_filter q.(PricingRoute.channel) ->
  PricingRoute.Single.pricingRouter_get h cfg dir q
  = Ok (map quote_of (getAllRouteConfigs cfg))
  /\ PricingRoute.Multi.pricingRouter_get h cfg dir q
     = Ok (map quote_of (getAllRouteConfigs cfg))
  /\ forall p e f watch_ok early fetched config watching byAssetType routes,
       Index.main p e f watch_ok early fetched
       = Index.Listening config cfg watching byAssetType routes ->
       PricingRoute.Single.pricingRouter_get h cfg dir q = Ok (map quote_of routes)
       /\ PricingRoute.Multi.pricingRouter_get h cfg dir q = Ok (map quote_of routes).
Proof.
  intros Ht Ha Hc.
  destruct (no_filter_parsed "ticker" _ Ht) as [t [Pt Gt]].
  destruct (no_filter_parsed "assetType" _ Ha) as [a [Pa Ga]].
  destruct (no_filter_parsed "channel" _ Hc) as [c [Pc Gc]].
  assert (Q : PricingRoute.querySchema q = inl (t, a, c)).
  { unfold PricingRoute.querySchema. now rewrite Pt, Pa, Pc. }
  assert (V : PricingRoute.validate_filters cfg a c = None).
  { unfold PricingRoute.validate_filters, PricingRoute.unknown_filter.
    now rewrite Ga, Gc. }
  assert (S : PricingRoute.Single.pricingRouter_get h cfg dir q
              = Ok (map quote_of (getAllRouteConfigs cfg))
              /\ PricingRoute.Multi.pricingRouter_get h cfg dir q
                 = Ok (map quote_of (getAllRouteConfigs cfg))).
  { unfold PricingRoute.Single.pricingRouter_get, PricingRoute.Multi.pricingRouter_get,
      PricingRoute.Multi.tickers_of, PricingRoute.filteredAssetTypes_of,
      PricingRoute.filteredChannels_of.
    rewrite Q, V, Gt, Ga, Gc. simpl. now rewrite matrix_routes. }
  destruct S as [S1 S2]. split; [assumption|]. split; [assumption|].
  intros p e f watch_ok early fetched config watching byAssetType routes M.
  apply main_Listening in M. subst routes. auto.
Qed.

Lemma unfiltered_matrix_is_route_table_witness :
  let q := {| PricingRoute.ticker := None;
              PricingRoute.assetType := Some (PricingRoute.QString "");
              PricingRoute.channel := None |} in
  PricingRoute.Single.pricingRouter_get Examples.host Examples.config Examples.byAssetType q
  = Ok (map quote_of (getAllRouteConfigs Examples.config))
  /\ PricingRoute.Multi.pricingRouter_get Examples.host Examples.config
       Examples.byAssetType q
     = Ok (map quote_of (getAllRouteConfigs Examples.config))
  /\ forall p e f watch_ok early fetched config watching byAssetType routes,
       Index.main p e f watch_ok early fetched
       = Index.Listening config Examples.config watching byAssetType routes ->
       PricingRoute.Single.pricingRouter_get Examples.host Examples.config
         Examples.byAssetType q = Ok (map quote_of routes)
       /\ PricingRoute.Multi.pricingRouter_get Examples.host Examples.config
            Examples.byAssetType q = Ok (map quote_of routes).
Proof.
  intros q.
  apply (unfiltered_matrix_is_route_table Examples.host Examples.config Examples.byAssetType q).
  - left. reflexivity.
  - right. reflexivity.
  - left. reflexivity.
Defined.

(** X15. Whatever the filters, as long as the [assetType] and
    [channel] parameters are no names of [Object.prototype], every row
    of a 200 answer of either revision quotes a route of the snapshot
    the request reads: its triple, price and purchase path are those of
    a route that [getAllRouteConfigs] generates from that snapshot. The
    routes are registered once, at start-up: every row quotes a
    registered route when the request reads the snapshot the process
    started with. *)
Theorem quoted_rows_are_routes h cfg dir q rows :
  plain_filter q.(PricingRoute.assetType) ->
  plain_filter q.(PricingRoute.channel) ->
  PricingRoute.Single.pricingRouter_get h cfg dir q = Ok rows
  \/ PricingRoute.Multi.pricingRouter_get h cfg dir q = Ok rows ->
  (forall row, In row rows ->
     exists r, In r (getAllRouteConfigs cfg) /\ row = quote_of r)
  /\ forall p e f watch_ok early fetched config watching byAssetType routes,
       Index.main p e f watch_ok early fetched
       = Index.Listening config cfg watching byAssetType routes ->
       forall row, In row rows -> exists r, In r routes /\ row = quote_of r.
Proof.
  unfold plain_filter. intros Pa Pc H.
  assert (G : forall row, In row rows ->
                exists r, In r (getAllRouteConfigs cfg) /\ row = quote_of r).
  { intros row Hrow.
    unfold PricingRoute.Single.pricingRouter_get, PricingRoute.Multi.pricingRouter_get in H.
    destruct (PricingRoute.querySchema q) as [[[t a] c]|issues] eqn:Q.
    2:{ destruct H as [H|H]; discriminate. }
    apply querySchema_inl in Q as [_ [Qa Qc]].
    destruct (PricingRoute.validate_filters cfg a c) eqn:V.
    { destruct H as [H|H]; discriminate. }
    apply validated_filters_known in V as [Ia Ic].
    2:{ intros x ->. apply Pa. now rewrite Qa. }
    2:{ intros x ->. apply Pc. now rewrite Qc. }
    assert (F : forall f, incl (filter f (PricingRoute.filteredAssetTypes_of cfg a))
                               (keys cfg.(assetTypes))).
    { intros f x Hx. apply filter_In in Hx as [Hx _]. now apply Ia. }
    destruct H as [H|H].
    - destruct (PricingRoute.given t) as [x|].
      + destruct (filter _ _) eqn:E in H; [discriminate|]. rewrite <- E in H.
        injection H as <-.
        eapply matrix_rows_are_routes; [apply F | apply Ic | eassumption].
      + injection H as <-. eapply matrix_rows_are_routes; eassumption.
    - destruct (PricingRoute.Multi.invalidTickers_of _ _ _ _); [|discriminate].
      injection H as <-.
      destruct (PricingRoute.Multi.tickers_of t).
      + exact (matrix_rows_are_routes _ _ _ _ Ia Ic Hrow).
      + exact (matrix_rows_are_routes _ _ _ _ (F _) Ic Hrow). }
  split; [assumption|].
  intros p e f watch_ok early fetched config watching byAssetType routes M.
  apply main_Listening in M. subst routes. assumption.
Qed.

Lemma quoted_rows_are_routes_witness :
  (forall row, In row [ quote_of Examples.route ] ->
     exists r, In r (getAllRouteConfigs Examples.config) /\ row = quote_of r)
  /\ forall p e f watch_ok early fetched config watching byAssetType routes,
       Index.main p e f watch_ok early fetched
       = Index.Listening config Examples.config watching byAssetType routes ->
       forall row, In row [ quote_of Examples.route ] ->
         exists r, In r routes /\ row = quote_of r.
Proof.
  apply (quoted_rows_are_routes Examples.host Examples.config Examples.byAssetType
           {| PricingRoute.ticker := Some (PricingRoute.QString "BTC-USD");
              PricingRoute.assetType := Some (PricingRoute.QString "crypto");
              PricingRoute.channel := None |}
           [ quote_of Examples.route ]).
  - intros x [= <-]. reflexivity.
  - intros x [=].
  - left. reflexivity.
Defined.

Lemma all_chars_trimStart p s :
  all_chars p s = true -> all_chars p (PricingRoute.Multi.trimStart s) = true.
Proof.
  induction s as [|a s IH]; [auto|]. cbn [PricingRoute.Multi.trimStart].
  intros H. destruct (PricingRoute.Multi.white_space a); [|assumption].
  apply IH. simpl in H. now apply andb_prop in H as [_ H].
Qed.

Lemma all_chars_trimEnd p s :
  all_chars p s = true -> all_chars p (PricingRoute.Multi.trimEnd s) = true.
Proof.
  induction s as [|a s IH]; [auto|]. cbn [PricingRoute.Multi.trimEnd all_chars].
  intros H. apply andb_prop in H as [Ha H].
  destruct (PricingRoute.Multi.white_space a && is_empty (PricingRoute.Multi.trimEnd s));
    [reflexivity|].
  cbn [all_chars]. now rewrite Ha, IH.
Qed.

Lemma trimStart_head s :
  PricingRoute.Multi.trimStart s = ""
  \/ exists a r, PricingRoute.Multi.trimStart s = String a r
                 /\ PricingRoute.Multi.white_space a = false.
Proof.
  induction s as [|a s IH]; [now left|]. cbn [PricingRoute.Multi.trimStart].
  destruct (PricingRoute.Multi.white_space a) eqn:W; [assumption|]. right. eauto.
Qed.

Lemma trimEnd_idem s :
  PricingRoute.Multi.trimEnd (PricingRoute.Multi.trimEnd s) = PricingRoute.Multi.trimEnd s.
Proof.
  induction s as [|a s IH]; [reflexivity|]. cbn [PricingRoute.Multi.trimEnd].
  destruct (PricingRoute.Multi.white_space a && is_empty (PricingRoute.Multi.trimEnd s))
    eqn:E; [reflexivity|].
  cbn [PricingRoute.Multi.trimEnd]. now rewrite IH, E.
Qed.

Lemma trim_idem s :
  PricingRoute.Multi.trim (PricingRoute.Multi.trim s) = PricingRoute.Multi.trim s.
Proof.
  unfold PricingRoute.Multi.trim.
  destruct (trimStart_head s) as [->|[a [r [-> W]]]]; [reflexivity|].
  cbn [PricingRoute.Multi.trimEnd]. rewrite W. cbn [andb].
  cbn [PricingRoute.Multi.trimStart]. rewrite W.
  cbn [PricingRoute.Multi.trimEnd]. rewrite W. cbn [andb]. now rewrite trimEnd_idem.
Qed.

(** X16. Every ticker the comma-separated parameter parses to is
    non-empty, holds no comma and is trimmed; a parameter that is
    absent or empty parses to no ticker at all. *)
Theorem tickers_of_shape tickerParam :
  (forall x, In x (PricingRoute.Multi.tickers_of tickerParam) ->
     x <> "" /\ free_of "," x /\ PricingRoute.Multi.trim x = x)
  /\ (tickerParam = None \/ tickerParam = Some "" ->
      PricingRoute.Multi.tickers_of tickerParam = []).
Proof.
  split.
  - intros x. unfold PricingRoute.Multi.tickers_of.
    destruct (PricingRoute.given tickerParam) as [p|]; [|contradiction].
    intros H. apply filter_In in H as [H Hne].
    apply in_map_iff in H as [y [<- Hy]].
    split; [|split].
    + apply is_empty_false. now destruct (is_empty _).
    + apply split_free in Hy. unfold free_of, PricingRoute.Multi.trim in *.
      now apply all_chars_trimEnd, all_chars_trimStart.
    + apply trim_idem.
  - intros [->| ->]; reflexivity.
Qed.

(** X17. The two revisions differ on a ticker listed under another
    asset type than the [assetType] filter: the single-ticker revision
    answers 400 [INVALID_TICKER], the comma-separated one, which looks
    the ticker up under every configured asset type, answers 200 with
    an empty pricing matrix. *)
Theorem ticker_outside_filter h cfg dir a b t :
  PricingRoute.Multi.tickers_of (Some t) = [t] ->
  inherited t = false ->
  a <> "" -> inherited a = false ->
  own cfg.(assetTypes) a <> None ->
  In b (keys cfg.(assetTypes)) ->
  lookup dir b t <> None ->
  lookup dir a t = None ->
  let q := {| PricingRoute.ticker := Some (PricingRoute.QString t);
              PricingRoute.assetType := Some (PricingRoute.QString a);
              PricingRoute.channel := None |} in
  PricingRoute.Single.pricingRouter_get h cfg dir q
  = Err 400 {| code := "INVALID_TICKER";
               message := "Ticker '" ++ t ++ "' not found in asset type '" ++ a ++ "'";
               hint := None |}
  /\ PricingRoute.Multi.pricingRouter_get h cfg dir q = Ok [].
Proof.
  intros Ht It Ha Ia Oa Hb Lb La q.
  assert (Gt : PricingRoute.given (Some t) = Some t).
  { unfold PricingRoute.Multi.tickers_of in Ht.
    destruct (PricingRoute.given (Some t)) as [x|] eqn:G; [|discriminate].
    now apply given_Some in G as [-> _]. }
  assert (Ga : PricingRoute.given (Some a) = Some a) by now apply given_Some.
  assert (V : PricingRoute.validate_filters cfg (Some a) None = None).
  { unfold PricingRoute.validate_filters, PricingRoute.unknown_filter. rewrite Ga.
    assert (T : truthy (get cfg.(assetTypes) a) = true) by now apply truthy_get_plain.
    now rewrite T. }
  assert (Na : in_tickers h t (getTickersForAssetType dir a) = false).
  { unfold lookup in La. unfold getTickersForAssetType, get at 1.
    destruct (own dir a) as [m|].
    - simpl. unfold has. now rewrite get_absent.
    - rewrite Ia. simpl. unfold has. now rewrite get_absent. }
  assert (Fb : PricingRoute.Multi.found_in h (getAllTickers dir) b t = true).
  { unfold lookup in Lb. unfold PricingRoute.Multi.found_in, getAllTickers, get at 1.
    destruct (own dir b) as [m|]; [|congruence].
    unfold get. now destruct (own m t). }
  assert (Q : PricingRoute.querySchema q = inl (Some t, Some a, None)) by reflexivity.
  unfold PricingRoute.Single.pricingRouter_get, PricingRoute.Multi.pricingRouter_get.
  rewrite Q, V, Ht, Gt. unfold PricingRoute.filteredAssetTypes_of. rewrite Ga. split.
  - cbn [filter]. rewrite Na.
    unfold PricingRoute.Single.not_found_message. now rewrite Ga.
  - assert (I : PricingRoute.Multi.invalidTickers_of h cfg (getAllTickers dir) [t] = []).
    { unfold PricingRoute.Multi.invalidTickers_of. cbn [filter].
      assert (E : existsb (fun aty => PricingRoute.Multi.found_in h (getAllTickers dir) aty t)
                    (keys cfg.(assetTypes)) = true).
      { apply existsb_exists. eauto. }
      now rewrite E. }
    rewrite I. cbn [filter existsb]. rewrite Na. reflexivity.
Qed.

Lemma ticker_outside_filter_witness :
  let cfg := {| durations := Examples.config.(durations);
                assetTypes :=
                  [ ("crypto", {| AssetType.label := "Crypto";
                                  AssetType.multiplier := Number.of_Z 1 |});
                    ("fx", {| AssetType.label := "FX";
                              AssetType.multiplier := Number.of_Z 1 |}) ];
                channels := Examples.config.(channels) |} in
  let q := {| PricingRoute.ticker := Some (PricingRoute.QString "BTC-USD");
              PricingRoute.assetType := Some (PricingRoute.QString "fx");
              PricingRoute.channel := None |} in
  PricingRoute.Single.pricingRouter_get Examples.host cfg Examples.byAssetType q
  = Err 400 {| code := "INVALID_TICKER";
               message := "Ticker '" ++ "BTC-USD" ++ "' not found in asset type '"
                          ++ "fx" ++ "'";
               hint := None |}
  /\ PricingRoute.Multi.pricingRouter_get Examples.host cfg Examples.byAssetType q = Ok [].
Proof.
  intros cfg.
  apply (ticker_outside_filter Examples.host cfg Examples.byAssetType "fx" "crypto" "BTC-USD");
    try reflexivity; try discriminate.
  simpl. auto.
Defined.

Lemma tickers_of_shape_witness :
  "BTC-USD" <> "" /\ free_of "," "BTC-USD" /\ PricingRoute.Multi.trim "BTC-USD" = "BTC-USD".
Proof.
  apply (proj1 (tickers_of_shape (Some " BTC-USD, ,ETH-USD"))).
  simpl. auto.
Defined.

(** ** The supported-ticker map *)

Lemma own_fold_opt {V : Type} (step : obj V -> string -> obj V) (val : string -> option V) l :
  (forall x acc, In x l ->
     step acc x = match val x with Some v => set acc x v | None => acc end) ->
  forall acc a,
    own (fold_left step l acc) a
    = if existsb (String.eqb a) l
      then match val a with Some v => Some v | None => own acc a end
      else own acc a.
Proof.
  induction l as [|x l IH]; intros Hs acc a; [reflexivity|].
  cbn [fold_left existsb]. rewrite IH by (intros; apply Hs; now right).
  rewrite (Hs x acc) by now left.
  destruct (String.eqb a x) eqn:E.
  - apply String.eqb_eq in E. subst x. cbn [orb].
    destruct (val a) as [v|] eqn:Va.
    + rewrite own_set_same. now destruct (existsb (String.eqb a) l).
    + now destruct (existsb (String.eqb a) l).
  - apply String.eqb_neq in E. cbn [orb].
    assert (O : own match val x with Some v => set acc x v | None => acc end a = own acc a).
    { destruct (val x); [now apply own_set_other | reflexivity]. }
    now rewrite O.
Qed.

Lemma own_all_of m t :
  own (SupportedTickers.all_of m) t = option_map (fun i => Some i.(feedId)) (own m t).
Proof.
  unfold SupportedTickers.all_of. induction m as [|[k v] m IH]; simpl; [reflexivity|].
  now destruct (String.eqb t k).
Qed.

Lemma inherited_proto k : inherited k = false -> String.eqb k "__proto__" = false.
Proof.
  intros H. destruct (String.eqb k "__proto__") eqn:E; [|reflexivity].
  apply String.eqb_eq in E. subst. discriminate.
Qed.

Lemma existsb_eqb_In a l : existsb (String.eqb a) l = true <-> In a l.
Proof.
  rewrite existsb_exists. split.
  - intros [x [H E]]. apply String.eqb_eq in E. now subst.
  - intros H. exists a. split; [assumption | apply String.eqb_refl].
Qed.

Lemma matched_lookup (m : obj TickerInfo) tickers t :
  (forall x, In x tickers -> inherited x = false) ->
  own (fold_left (SupportedTickers.Multi.match_ticker m) tickers []) t
  = if existsb (String.eqb t) tickers
    then option_map (fun i => Some i.(feedId)) (own m t)
    else None.
Proof.
  intros Hp.
  rewrite (own_fold_opt (SupportedTickers.Multi.match_ticker m)
             (fun x => option_map (fun i => Some i.(feedId)) (own m x))).
  - destruct (existsb (String.eqb t) tickers); [|reflexivity].
    now destruct (own m t).
  - intros x acc Hx. unfold SupportedTickers.Multi.match_ticker, get.
    rewrite (Hp x Hx), (inherited_proto x (Hp x Hx)).
    now destruct (own m x).
Qed.

(** The map the comma-separated revision assigns under an asset type. *)
Lemma multi_step_plain h (dir : directory) tickers acc aty :
  inherited aty = false ->
  SupportedTickers.Multi.step h dir tickers acc aty
  = match match own dir aty with
          | Some m =>
              match tickers with
              | [] => Some (SupportedTickers.all_of m)
              | _ =>
                  match fold_left (SupportedTickers.Multi.match_ticker m) tickers [] with
                  | [] => None
                  | matched => Some matched
                  end
              end
          | None => None
          end with
    | Some v => set acc aty v
    | None => acc
    end.
Proof.
  intros Hp. unfold SupportedTickers.Multi.step, SupportedTickers.assign, get.
  rewrite Hp, (inherited_proto aty Hp).
  destruct (own dir aty) as [m|]; [|reflexivity].
  destruct tickers as [|x xs]; [reflexivity|].
  now destruct (fold_left _ _ _).
Qed.

Lemma single_step_plain h (dir : directory) ticker acc aty :
  inherited aty = false ->
  (forall x, PricingRoute.given ticker = Some x -> inherited x = false) ->
  SupportedTickers.Single.step h dir ticker acc aty
  = match match own dir aty with
          | Some m =>
              match PricingRoute.given ticker with
              | Some t => option_map (fun i => [(t, Some i.(feedId))]) (own m t)
              | None => Some (SupportedTickers.all_of m)
              end
          | None => None
          end with
    | Some v => set acc aty v
    | None => acc
    end.
Proof.
  intros Hp Ht. unfold SupportedTickers.Single.step, SupportedTickers.assign, get at 1.
  rewrite Hp, (inherited_proto aty Hp).
  destruct (own dir aty) as [m|]; [|reflexivity].
  destruct (PricingRoute.given ticker) as [t|]; [|reflexivity].
  unfold get. rewrite (Ht t eq_refl). now destruct (own m t).
Qed.

(** X18. The supported-ticker map of a 200 answer repeats the symbol
    directory: with asset types and requested tickers that are no
    names of [Object.prototype], a ticker is listed under an asset type
    with a feed id exactly when the asset type is among the effective
    ones, the ticker is requested (or none is) and the directory holds
    the ticker under that asset type with that feed id. In both
    revisions. *)
Theorem supported_tickers_repeat_directory h dir effectiveAssetTypes :
  (forall a, In a effectiveAssetTypes -> inherited a = false) ->
  (forall tickers a t v,
      (forall x, In x tickers -> inherited x = false) ->
      listed (SupportedTickers.Multi.supportedTickers_of h dir tickers effectiveAssetTypes)
             a t = Some v
      <-> In a effectiveAssetTypes /\ (tickers = [] \/ In t tickers)
          /\ exists info, lookup dir a t = Some info /\ v = Some info.(feedId))
  /\ (forall ticker a t v,
         (forall x, PricingRoute.given ticker = Some x -> inherited x = false) ->
         listed (SupportedTickers.Single.supportedTickers_of h dir ticker effectiveAssetTypes)
                a t = Some v
         <-> In a effectiveAssetTypes
             /\ (PricingRoute.given ticker = None \/ PricingRoute.given ticker = Some t)
             /\ exists info, lookup dir a t = Some info /\ v = Some info.(feedId)).
Proof.
  intros Hp. split.
  - intros tickers a t v Ht.
    unfold listed, SupportedTickers.Multi.supportedTickers_of, getAllTickers.
    rewrite (own_fold_opt _ _ _
               (fun x acc Hx => multi_step_plain h dir tickers acc x (Hp x Hx))).
    rewrite <- existsb_eqb_In. unfold lookup.
    destruct (existsb (String.eqb a) effectiveAssetTypes); simpl.
    2:{ split; [discriminate | intros [H _]; discriminate]. }
    destruct (own dir a) as [m|].
    2:{ split; [discriminate | intros [_ [_ [i [H _]]]]; discriminate]. }
    destruct tickers as [|x xs].
    + rewrite own_all_of. destruct (own m t) as [i|]; simpl.
      * split; [intros [= <-]; eauto 6 | intros [_ [_ [i' [[= <-] ->]]]]; reflexivity].
      * split; [discriminate | intros [_ [_ [i [H _]]]]; discriminate].
    + pose proof (matched_lookup m (x :: xs) t Ht) as M.
      rewrite <- (existsb_eqb_In t (x :: xs)).
      destruct (fold_left (SupportedTickers.Multi.match_ticker m) (x :: xs) []) as [|e es].
      * split; [discriminate|].
        intros [_ [[H|H] [i [Hi ->]]]]; [discriminate|].
        rewrite H, Hi in M. discriminate.
      * rewrite M. destruct (existsb (String.eqb t) (x :: xs)).
        -- destruct (own m t) as [i|]; simpl.
           ++ split; [intros [= <-]; eauto 6 | intros [_ [_ [i' [[= <-] ->]]]]; reflexivity].
           ++ split; [discriminate | intros [_ [_ [i [H _]]]]; discriminate].
        -- split; [discriminate | intros [_ [[H|H] _]]; discriminate].
  - intros ticker a t v Ht.
    unfold listed, SupportedTickers.Single.supportedTickers_of, getAllTickers.
    rewrite (own_fold_opt _ _ _
               (fun x acc Hx => single_step_plain h dir ticker acc x (Hp x Hx) Ht)).
    rewrite <- existsb_eqb_In. unfold lookup.
    destruct (existsb (String.eqb a) effectiveAssetTypes); simpl.
    2:{ split; [discriminate | intros [H _]; discriminate]. }
    destruct (own dir a) as [m|].
    2:{ split; [discriminate | intros [_ [_ [i [H _]]]]; discriminate]. }
    destruct (PricingRoute.given ticker) as [x|].
    + destruct (own m x) as [i|] eqn:Ox; simpl.
      * destruct (String.eqb t x) eqn:E.
        -- apply String.eqb_eq in E. subst x. rewrite Ox.
           split; [intros [= <-]; eauto 6 | intros [_ [_ [i' [[= <-] ->]]]]; reflexivity].
        -- apply String.eqb_neq in E.
           split; [discriminate | intros [_ [[H|[= H]] _]]; congruence].
      * split; [discriminate|].
        intros [_ [[H|[= H]] [i [Hi _]]]]; [discriminate | congruence].
    + rewrite own_all_of. destruct (own m t) as [i|]; simpl.
      * split; [intros [= <-]; eauto 6 | intros [_ [_ [i' [[= <-] ->]]]]; reflexivity].
      * split; [discriminate | intros [_ [_ [i [H _]]]]; discriminate].
Qed.

Lemma supported_tickers_repeat_directory_witness :
  (forall tickers a t v,
      (forall x, In x tickers -> inherited x = false) ->
      listed (SupportedTickers.Multi.supportedTickers_of Examples.host Examples.byAssetType
                tickers ["crypto"]) a t = Some v
      <-> In a ["crypto"] /\ (tickers = [] \/ In t tickers)
          /\ exists info, lookup Examples.byAssetType a t = Some info
                          /\ v = Some info.(feedId))
  /\ (forall ticker a t v,
         (forall x, PricingRoute.given ticker = Some x -> inherited x = false) ->
         listed (SupportedTickers.Single.supportedTickers_of Examples.host
                   Examples.byAssetType ticker ["crypto"]) a t = Some v
         <-> In a ["crypto"]
             /\ (PricingRoute.given ticker = None \/ PricingRoute.given ticker = Some t)
             /\ exists info, lookup Examples.byAssetType a t = Some info
                             /\ v = Some info.(feedId)).
Proof.
  apply (supported_tickers_repeat_directory Examples.host Examples.byAssetType ["crypto"]).
  intros a [<-|[]]. reflexivity.
Defined.

(** ** index.ts *)


(** ** routes/pricing.ts: the filters *)

Lemma unknown_filter_Some {A : Type} (o : obj A) v x :
  PricingRoute.unknown_filter o v = Some x
  <-> v = Some x /\ x <> "" /\ own o x = None /\ inherited x = false.
Proof.
  unfold PricingRoute.unknown_filter.
  destruct (PricingRoute.given v) as [k|] eqn:G.
  - apply given_Some in G as [-> Hk].
    destruct (truthy (get o k)) eqn:T; simpl.
    + split; [discriminate|]. intros [[= <-] [_ H]].
      apply truthy_get_false in H. congruence.
    + apply truthy_get_false in T as [O I]. split.
      * intros [= <-]. auto.
      * intros [[= <-] _]. reflexivity.
  - split; [discriminate|]. intros [-> [Hx _]].
    assert (E : PricingRoute.given (Some x) = Some x) by now apply given_Some.
    congruence.
Qed.

Lemma unknown_filter_rejected {A : Type} (o : obj A) v :
  (exists x, PricingRoute.unknown_filter o v = Some x) <-> rejected_by o v.
Proof.
  unfold rejected_by. split; intros [x H]; exists x; now apply unknown_filter_Some.
Qed.

(** X20. On a query of strings both revisions answer
    [INVALID_ASSET_TYPE] exactly when the [assetType] filter is
    non-empty, no key of the snapshot and no name of
    [Object.prototype], whatever the other parameters; they answer
    [INVALID_CHANNEL] exactly when the asset type filter passes and the
    [channel] filter fails in the same way. *)
Theorem filter_errors h cfg dir q t a c :
  PricingRoute.querySchema q = inl (t, a, c) ->
  let single := PricingRoute.Single.pricingRouter_get h cfg dir q in
  let multi := PricingRoute.Multi.pricingRouter_get h cfg dir q in
  (error_code single = Some "INVALID_ASSET_TYPE" <-> rejected_by cfg.(assetTypes) a)
  /\ (error_code multi = Some "INVALID_ASSET_TYPE" <-> rejected_by cfg.(assetTypes) a)
  /\ (error_code single = Some "INVALID_CHANNEL"
      <-> ~ rejected_by cfg.(assetTypes) a /\ rejected_by cfg.(channels) c)
  /\ (error_code multi = Some "INVALID_CHANNEL"
      <-> ~ rejected_by cfg.(assetTypes) a /\ rejected_by cfg.(channels) c).
Proof.
  intros Q single multi. subst single multi.
  unfold PricingRoute.Single.pricingRouter_get, PricingRoute.Multi.pricingRouter_get.
  rewrite Q. unfold PricingRoute.validate_filters.
  rewrite <- !unknown_filter_rejected.
  destruct (PricingRoute.unknown_filter (assetTypes cfg) a) as [x|].
  { simpl. split; [|split; [|split]].
    - split; [eauto | reflexivity].
    - split; [eauto | reflexivity].
    - split; [discriminate | intros [H _]; exfalso; apply H; eauto].
    - split; [discriminate | intros [H _]; exfalso; apply H; eauto]. }
  destruct (PricingRoute.unknown_filter (channels cfg) c) as [y|].
  { simpl. split; [|split; [|split]].
    - split; [discriminate | intros [z Hz]; discriminate].
    - split; [discriminate | intros [z Hz]; discriminate].
    - split; [|reflexivity]. intros _. split; [intros [z Hz]; discriminate | eauto].
    - split; [|reflexivity]. intros _. split; [intros [z Hz]; discriminate | eauto]. }
  assert (S : forall r : response (list PricingRoute.Row.t),
            (exists rows, r = Ok rows)
            \/ (exists m hi, r = Err 400 {| code := "INVALID_TICKER"; message := m;
                                            hint := hi |}) ->
            (error_code r = Some "INVALID_ASSET_TYPE" <-> exists x : string, None = Some x)
            /\ (error_code r = Some "INVALID_CHANNEL"
                <-> ~ (exists x : string, None = Some x) /\ exists x : string, None = Some x)).
  { intros r [[rows ->]|[m [hi ->]]]; simpl; split; split;
      try discriminate; try (intros [z Hz]; discriminate);
      try (intros [_ [z Hz]]; discriminate). }
  match goal with
  | |- (error_code ?r1 = _ <-> _) /\ (error_code ?r2 = _ <-> _) /\ _ =>
      assert (H1 : (exists rows, r1 = Ok rows)
                   \/ (exists m hi, r1 = Err 400 {| code := "INVALID_TICKER"; message := m;
                                                    hint := hi |}));
      [| assert (H2 : (exists rows, r2 = Ok rows)
                      \/ (exists m hi, r2 = Err 400 {| code := "INVALID_TICKER";
                                                       message := m; hint := hi |}));
         [| destruct (S _ H1) as [A1 B1]; destruct (S _ H2) as [A2 B2]; auto ] ]
  end.
  - destruct (PricingRoute.given t); [|eauto].
    destruct (filter _ _); eauto.
  - destruct (PricingRoute.Multi.invalidTickers_of _ _ _ _); eauto.
Qed.

Lemma filter_errors_witness :
  let q := {| PricingRoute.ticker := Some (PricingRoute.QString "FAKE-USD");
              PricingRoute.assetType := Some (PricingRoute.QString "toString");
              PricingRoute.channel := Some (PricingRoute.QString "slow") |} in
  let single := PricingRoute.Single.pricingRouter_get Examples.host Examples.config
                  Examples.byAssetType q in
  let multi := PricingRoute.Multi.pricingRouter_get Examples.host Examples.config
                 Examples.byAssetType q in
  (error_code single = Some "INVALID_ASSET_TYPE"
   <-> rejected_by Examples.config.(assetTypes) (Some "toString"))
  /\ (error_code multi = Some "INVALID_ASSET_TYPE"
      <-> rejected_by Examples.config.(assetTypes) (Some "toString"))
  /\ (error_code single = Some "INVALID_CHANNEL"
      <-> ~ rejected_by Examples.config.(assetTypes) (Some "toString")
          /\ rejected_by Examples.config.(channels) (Some "slow"))
  /\ (error_code multi = Some "INVALID_CHANNEL"
      <-> ~ rejected_by Examples.config.(assetTypes) (Some "toString")
          /\ rejected_by Examples.config.(channels) (Some "slow")).
Proof.
  intros q.
  apply (filter_errors Examples.host Examples.config Examples.byAssetType q
           (Some "FAKE-USD") (Some "toString") (Some "slow")).
  reflexivity.
Defined.
